(** * Sandbox lifecycle orchestrator: record store, clone route, git helpers

    A shallow embedding of the parts of the repository that keep the
    sandbox records (the Convex mutations and queries on the [sandboxes]
    table), of the clone route ([POST] and [startDevServer]) and of the
    git helpers ([parseGitUrl], [isValidGitUrl], [validateRepository],
    [getBranches]).

    Conventions.
    - A JavaScript string is a [string]: the bytes of its UTF-8 form.  The
      character classes the code uses only exclude ASCII characters, so
      they read byte by byte; [trim] removes white space by its encoding.
    - [Date.now()] is an integer number of milliseconds, far below 2^53,
      so timestamps are [Z] and [now + 15 * 60 * 1000] is exact.  A number
      that the code counts with or takes from the caller is a binary64
      ([Number.number]), with the standard library's specification of its
      arithmetic.
    - A call that can throw yields an [Outcome].
    - A table is the list of its documents; the limits of the platform on
      sizes and on the number of documents a function reads are left
      out.
    - Library functions whose code is not part of the repository (zod's
      URL check, [JSON.parse], the sandbox provider, [fetch]) are either
      parameters of a section or events answered by the environment. *)

From Stdlib Require Import ZArith List String Ascii Bool Lia DecimalString SpecFloat.
Import ListNotations.
Local Open Scope string_scope.
Local Open Scope Z_scope.

(** ** Results of calls that may throw *)

(** What a [throw] carries: an [Error] with its message, or zod's error
    with the paths of the fields it rejects. *)
Inductive Exn :=
| Error (message : string)
| ZodError (issues : list string).

Inductive Outcome (A : Type) : Type :=
| Returns (a : A)
| Throws (e : Exn).
Arguments Returns {A} a.
Arguments Throws {A} e.

(** ** The record store (Convex tables) *)

Module Store.

Inductive Status := creating | running | stopped | error.

Definition Status_eqb (a b : Status) : bool :=
  match a, b with
  | creating, creating | running, running
  | stopped, stopped | error, error => true
  | _, _ => false
  end.

(** Document ids; the store hands them out in creation order. *)
Definition Id := nat.

Record Sandbox := mkSandbox {
  _id : Id;
  userId : Id;
  projectId : option Id;
  sandboxId : string;
  name : string;
  url : option string;
  status : Status;
  startedAt : Z;
  lastActiveAt : Z;
  autoStopAt : option Z;
  isTemporary : bool
}.

(** Children of a sandbox record: both carry the record's internal id. *)
Record FileSnapshot := mkFileSnapshot {
  snapshot_id : Id;
  snapshot_sandboxId : Id
}.

Record ChatMessage := mkChatMessage {
  chat_id : Id;
  chat_sandboxId : option Id
}.

(** Tables list their documents in creation order, which is the order
    in which an index returns the documents that share a key. *)
Record Db := mkDb {
  sandboxes : list Sandbox;
  fileSnapshots : list FileSnapshot;
  chatHistory : list ChatMessage;
  next_id : Id
}.

(** A mutation or query handler: reads and writes the store, may throw. *)
Definition Handler (A : Type) : Type := Db -> Outcome A * Db.

Definition ret {A} (a : A) : Handler A := fun db => (Returns a, db).

(** [throw new Error(msg)] *)
Definition throw {A} (msg : string) : Handler A :=
  fun db => (Throws (Error msg), db).

Definition bind {A B} (c : Handler A) (k : A -> Handler B) : Handler B :=
  fun db =>
    match c db with
    | (Returns a, db') => k a db'
    | (Throws e, db') => (Throws e, db')
    end.

Declare Scope handler_scope.
Delimit Scope handler_scope with handler.
Notation "x <- c ;; k" := (bind c (fun x => k))
  (at level 61, c at next level, right associativity) : handler_scope.
Notation "c ;;; k" := (bind c (fun _ => k))
  (at level 61, right associativity) : handler_scope.
Local Open Scope handler_scope.

(** [ctx.db.query("sandboxes").withIndex("by_sandbox_id", q => q.eq("sandboxId", sid)).first()] *)
Definition first_by_sandbox_id (sid : string) : Handler (option Sandbox) :=
  fun db => (Returns (find (fun s => String.eqb (sandboxId s) sid) (sandboxes db)), db).

(** [ctx.db.get(id)] on the [sandboxes] table. *)
Definition get (db : Db) (id : Id) : option Sandbox :=
  find (fun s => Nat.eqb (_id s) id) (sandboxes db).

(** The fields of the object handed to [ctx.db.insert("sandboxes", ...)]. *)
Record SandboxFields := mkSandboxFields {
  f_userId : Id;
  f_projectId : option Id;
  f_sandboxId : string;
  f_name : string;
  f_url : option string;
  f_status : Status;
  f_startedAt : Z;
  f_lastActiveAt : Z;
  f_autoStopAt : option Z;
  f_isTemporary : bool
}.

Definition insert_sandbox (f : SandboxFields) : Handler Id :=
  fun db =>
    let id := next_id db in
    let doc := mkSandbox id (f_userId f) (f_projectId f) (f_sandboxId f)
                 (f_name f) (f_url f) (f_status f) (f_startedAt f)
                 (f_lastActiveAt f) (f_autoStopAt f) (f_isTemporary f) in
    (Returns id,
     mkDb (sandboxes db ++ [doc]) (fileSnapshots db) (chatHistory db) (S id)).

(** The object handed to [ctx.db.patch]: a key that is absent leaves the
    field as it is ([None]); a key that is present overwrites it.  For the
    optional fields [url] and [autoStopAt] a present key whose value is
    [undefined] removes the field ([Some None]). *)
Record SandboxPatch := mkSandboxPatch {
  p_status : option Status;
  p_url : option (option string);
  p_lastActiveAt : option Z;
  p_autoStopAt : option (option Z)
}.

Definition or_keep {A} (new : option A) (old : A) : A :=
  match new with Some a => a | None => old end.

Definition apply_patch (p : SandboxPatch) (s : Sandbox) : Sandbox :=
  mkSandbox (_id s) (userId s) (projectId s) (sandboxId s) (name s)
    (or_keep (p_url p) (url s))
    (or_keep (p_status p) (status s))
    (startedAt s)
    (or_keep (p_lastActiveAt p) (lastActiveAt s))
    (or_keep (p_autoStopAt p) (autoStopAt s))
    (isTemporary s).

Definition patch_where (id : Id) (p : SandboxPatch) (s : Sandbox) : Sandbox :=
  if Nat.eqb (_id s) id then apply_patch p s else s.

(** [ctx.db.patch(id, p)] *)
Definition patch (id : Id) (p : SandboxPatch) : Handler unit :=
  fun db =>
    (Returns tt,
     mkDb (map (patch_where id p) (sandboxes db))
          (fileSnapshots db) (chatHistory db) (next_id db)).

(** [ctx.db.delete(id)], one function per table. *)
Definition delete_sandbox (id : Id) : Handler unit :=
  fun db =>
    (Returns tt,
     mkDb (filter (fun s => negb (Nat.eqb (_id s) id)) (sandboxes db))
          (fileSnapshots db) (chatHistory db) (next_id db)).

Definition delete_snapshot (id : Id) : Handler unit :=
  fun db =>
    (Returns tt,
     mkDb (sandboxes db)
          (filter (fun s => negb (Nat.eqb (snapshot_id s) id)) (fileSnapshots db))
          (chatHistory db) (next_id db)).

Definition delete_chat (id : Id) : Handler unit :=
  fun db =>
    (Returns tt,
     mkDb (sandboxes db) (fileSnapshots db)
          (filter (fun c => negb (Nat.eqb (chat_id c) id)) (chatHistory db))
          (next_id db)).

(** [for (const x of xs) { await body(x) }] *)
Fixpoint for_each {A} (xs : list A) (body : A -> Handler unit) : Handler unit :=
  match xs with
  | [] => ret tt
  | x :: xs' => body x ;;; for_each xs' body
  end.

(** [15 * 60 * 1000] *)
Definition GRACE_MS : Z := 15 * 60 * 1000.

Record CreateArgs := mkCreateArgs {
  a_userId : Id;
  a_projectId : option Id;
  a_sandboxId : string;
  a_name : string;
  a_url : option string;
  a_isTemporary : option bool
}.

(** [args.isTemporary || false] *)
Definition or_false (b : option bool) : bool :=
  match b with Some true => true | _ => false end.

Definition createSandbox (now : Z) (args : CreateArgs) : Handler Id :=
  let autoStopAt := now + GRACE_MS in
  id <- insert_sandbox
          (mkSandboxFields (a_userId args) (a_projectId args)
             (a_sandboxId args) (a_name args) (a_url args)
             creating now now (Some autoStopAt) (or_false (a_isTemporary args))) ;;
  ret id.

Definition updateSandboxStatus (now : Z) (sid : string) (st : Status)
    (u : option string) : Handler Id :=
  sandbox <- first_by_sandbox_id sid ;;
  match sandbox with
  | None => throw "Sandbox not found"
  | Some s =>
      patch (_id s) (mkSandboxPatch (Some st) (Some u) (Some now) None) ;;;
      ret (_id s)
  end.

Definition updateSandboxActivity (now : Z) (sid : string) : Handler Id :=
  sandbox <- first_by_sandbox_id sid ;;
  match sandbox with
  | None => throw "Sandbox not found"
  | Some s =>
      let newAutoStopAt := now + GRACE_MS in
      patch (_id s)
        (mkSandboxPatch None None (Some now) (Some (Some newAutoStopAt))) ;;;
      ret (_id s)
  end.

Definition stopSandbox (now : Z) (sid : string) : Handler Id :=
  sandbox <- first_by_sandbox_id sid ;;
  match sandbox with
  | None => throw "Sandbox not found"
  | Some s =>
      patch (_id s) (mkSandboxPatch (Some stopped) None (Some now) None) ;;;
      ret (_id s)
  end.

(** [q.lt(q.field(f), n)] for a number [n].  Convex compares values of
    different types by type, and a field that is absent ([undefined])
    comes before every number. *)
Definition field_lt (field : option Z) (n : Z) : bool :=
  match field with
  | Some d => d <? n
  | None => true
  end.

(** The query reads the [by_status] index at ["running"] and filters the
    documents it yields on [autoStopAt < now]. *)
Definition getSandboxesToAutoStop (now : Z) (db : Db) : list Sandbox :=
  filter (fun s => field_lt (autoStopAt s) now)
    (filter (fun s => Status_eqb (status s) running) (sandboxes db)).

Definition deleteSandbox (sid : string) : Handler Id :=
  sandbox <- first_by_sandbox_id sid ;;
  match sandbox with
  | None => throw "Sandbox not found"
  | Some s =>
      snapshots <- (fun db =>
        (Returns (filter (fun f => Nat.eqb (snapshot_sandboxId f) (_id s))
                    (fileSnapshots db)), db)) ;;
      for_each snapshots (fun snapshot => delete_snapshot (snapshot_id snapshot)) ;;;
      chats <- (fun db =>
        (Returns (filter (fun c => match chat_sandboxId c with
                                   | Some i => Nat.eqb i (_id s)
                                   | None => false
                                   end)
                    (chatHistory db)), db)) ;;
      for_each chats (fun chat => delete_chat (chat_id chat)) ;;;
      delete_sandbox (_id s) ;;;
      ret (_id s)
  end.

(** The invariant the data model states for a record: it has a deadline,
    at least the grace window after its last activity. *)
Definition grace_ok (s : Sandbox) : Prop :=
  match autoStopAt s with
  | Some deadline => lastActiveAt s + GRACE_MS <= deadline
  | None => False
  end.

(** An operation keeps the invariant of every record. *)
Definition keeps_grace_window (op : Handler Id) : Prop :=
  forall db, Forall grace_ok (sandboxes db) ->
             Forall grace_ok (sandboxes (snd (op db))).

End Store.

(** ** JavaScript string helpers *)

Module JsString.

(** [s.endsWith(suffix)]: some tail of [s] is [suffix]. *)
Fixpoint endsWith (s suffix : string) : bool :=
  String.eqb s suffix ||
  match s with
  | EmptyString => false
  | String _ s' => endsWith s' suffix
  end.

(** [s.slice(0, -n)] *)
Definition slice_to_minus (n : nat) (s : string) : string :=
  substring 0 (String.length s - n)%nat s.

(** [s.startsWith(p)], returning what follows the prefix. *)
Fixpoint strip_prefix (p s : string) : option string :=
  match p, s with
  | EmptyString, _ => Some s
  | String a p', String b s' =>
      if Ascii.eqb a b then strip_prefix p' s' else None
  | String _ _, EmptyString => None
  end.

Fixpoint drop (n : nat) (s : string) : string :=
  match n, s with
  | O, _ => s
  | S n', String _ s' => drop n' s'
  | S _, EmptyString => EmptyString
  end.

(** How often [c] occurs in [s]. *)
Fixpoint count_char (c : ascii) (s : string) : nat :=
  match s with
  | EmptyString => O
  | String a s' => ((if Ascii.eqb a c then 1 else 0) + count_char c s')%nat
  end.

(** [p] and [s] differ at a position both have. *)
Fixpoint clash (p s : string) : bool :=
  match p, s with
  | String a p', String b s' => if Ascii.eqb a b then clash p' s' else true
  | _, _ => false
  end.

(** [p] clashes with [s] at every offset of [s]. *)
Fixpoint clear_inside (p s : string) : bool :=
  match s with
  | EmptyString => true
  | String _ s' => clash p s && clear_inside p s'
  end.

Fixpoint all_chars (p : ascii -> bool) (s : string) : bool :=
  match s with
  | EmptyString => true
  | String a s' => p a && all_chars p s'
  end.

End JsString.

(** ** Regular expressions, as far as the repository's literals need them *)

Module Regex.
Import JsString.

Inductive CharSet :=
| NoneOf (excluded : list ascii)   (* [^...] *)
| Dot.                             (* .  : anything but a line break *)

Inductive Re :=
| Lit (l : string)
| One (c : CharSet)
| Many1 (c : CharSet)              (* c+ , greedy *)
| Seq (a b : Re)
| Alt (a b : Re)                   (* a|b *)
| Opt (a : Re)                     (* a? , greedy *)
| Group (a : Re)                   (* (a), capturing *)
| Eol.                             (* $ *)

Definition in_class (c : CharSet) (a : ascii) : bool :=
  match c with
  | NoneOf ex => negb (existsb (Ascii.eqb a) ex)
  | Dot => negb (Ascii.eqb a "010" || Ascii.eqb a "013")
  end.

(** Length of the longest prefix of [s] inside the class. *)
Fixpoint run_length (c : CharSet) (s : string) : nat :=
  match s with
  | EmptyString => O
  | String a s' => if in_class c a then S (run_length c s') else O
  end.

(** The input is at its end or goes on outside the class. *)
Definition starts_outside (c : CharSet) (s : string) : bool :=
  match s with
  | EmptyString => true
  | String a _ => negb (in_class c a)
  end.

Definition Captures := list string.
Definition Cont := string -> Captures -> option Captures.

(** Greedy repetition with backtracking: the longest run first, then
    one character less, down to a single character. *)
Fixpoint try_lengths (n : nat) (s : string) (caps : Captures) (k : Cont)
    : option Captures :=
  match n with
  | O => None
  | S n' =>
      match k (drop n s) caps with
      | Some r => Some r
      | None => try_lengths n' s caps k
      end
  end.

(** The backtracking matcher: [k] is what remains to be matched; it is
    given the rest of the input and the groups closed so far. *)
Fixpoint matches (r : Re) (s : string) (caps : Captures) (k : Cont)
    : option Captures :=
  match r with
  | Lit l =>
      match strip_prefix l s with
      | Some s' => k s' caps
      | None => None
      end
  | One c =>
      match s with
      | String a s' => if in_class c a then k s' caps else None
      | EmptyString => None
      end
  | Many1 c => try_lengths (run_length c s) s caps k
  | Seq a b => matches a s caps (fun s' caps' => matches b s' caps' k)
  | Alt a b =>
      match matches a s caps k with
      | Some res => Some res
      | None => matches b s caps k
      end
  | Opt a =>
      match matches a s caps k with
      | Some res => Some res
      | None => k s caps
      end
  | Group a =>
      matches a s caps
        (fun s' caps' =>
           k s' (caps' ++ [substring 0 (String.length s - String.length s')%nat s])%list)
  | Eol =>
      match s with
      | EmptyString => k s caps
      | String _ _ => None
      end
  end.

Definition accept : Cont := fun _ caps => Some caps.

(** A pattern that starts with [^]: only offset 0 is tried. *)
Definition match_at_start (r : Re) (s : string) : option Captures :=
  matches r s [] accept.

(** [s.match(r)] without [^]: the leftmost offset at which [r] matches. *)
Fixpoint search (r : Re) (s : string) : option Captures :=
  match matches r s [] accept with
  | Some caps => Some caps
  | None =>
      match s with
      | EmptyString => None
      | String _ s' => search r s'
      end
  end.

End Regex.

(** ** Git helpers *)

Module GitUtils.
Import JsString Regex.

Record GitRepoInfo := mkGitRepoInfo {
  url : string;
  name : string;
  owner : string;
  branch : string;
  isPrivate : bool
}.

(** [/https:\/\/github\.com\/([^\/]+)\/([^\/\?]+)/] *)
Definition httpsPattern : Re :=
  Seq (Lit "https://github.com/")
    (Seq (Group (Many1 (NoneOf ["/"%char])))
       (Seq (Lit "/") (Group (Many1 (NoneOf ["/"%char; "?"%char]))))).

(** [/git@github\.com:([^\/]+)\/([^\/\?]+)/] *)
Definition sshPattern : Re :=
  Seq (Lit "git@github.com:")
    (Seq (Group (Many1 (NoneOf ["/"%char])))
       (Seq (Lit "/") (Group (Many1 (NoneOf ["/"%char; "?"%char]))))).

(** The shape the two patterns share. *)
Definition repo_tail : Re :=
  Seq (Group (Many1 (NoneOf ["/"%char])))
    (Seq (Lit "/") (Group (Many1 (NoneOf ["/"%char; "?"%char])))).

Definition repo_pattern (pre : string) : Re := Seq (Lit pre) repo_tail.

Definition repo_of_match (gitUrl : string) (m : option Captures)
    : option GitRepoInfo :=
  match m with
  | Some [owner; name] => Some (mkGitRepoInfo gitUrl name owner "main" false)
  | _ => None
  end.

Definition parseGitUrl (gitUrl : string) : option GitRepoInfo :=
  let cleanUrl :=
    if endsWith gitUrl ".git" then slice_to_minus 4 gitUrl else gitUrl in
  match search httpsPattern cleanUrl with
  | Some httpsMatch => repo_of_match gitUrl (Some httpsMatch)
  | None =>
      match search sshPattern cleanUrl with
      | Some sshMatch => repo_of_match gitUrl (Some sshMatch)
      | None => None
      end
  end.

(** [/^(https:\/\/github\.com\/[^\/]+\/[^\/\?]+|git@github\.com:[^\/]+\/[^\/\?]+)(.git)?$/] *)
Definition gitUrlPattern : Re :=
  Seq (Group
         (Alt (Seq (Lit "https://github.com/")
                 (Seq (Many1 (NoneOf ["/"%char]))
                    (Seq (Lit "/") (Many1 (NoneOf ["/"%char; "?"%char])))))
              (Seq (Lit "git@github.com:")
                 (Seq (Many1 (NoneOf ["/"%char]))
                    (Seq (Lit "/") (Many1 (NoneOf ["/"%char; "?"%char])))))))
    (Seq (Opt (Group (Seq (One Dot) (Lit "git")))) Eol).

Definition isValidGitUrl (u : string) : bool :=
  match match_at_start gitUrlPattern u with
  | Some _ => true
  | None => false
  end.

(** The two spellings of a repository address. *)
Definition https_form (owner name : string) : string :=
  "https://github.com/" ++ owner ++ "/" ++ name.

Definition ssh_form (owner name : string) : string :=
  "git@github.com:" ++ owner ++ "/" ++ name.

(** An owner the patterns read as one: not empty, no slash. *)
Definition valid_owner (o : string) : bool :=
  negb (String.eqb o "") && all_chars (in_class (NoneOf ["/"%char])) o.

(** A repository name likewise: not empty, no slash, no question mark. *)
Definition valid_name (n : string) : bool :=
  negb (String.eqb n "") && all_chars (in_class (NoneOf ["/"%char; "?"%char])) n.

Definition owner_name (r : option GitRepoInfo) : option (string * string) :=
  match r with
  | Some i => Some (owner i, name i)
  | None => None
  end.

End GitUtils.

(** ** JavaScript values, as far as JSON produces them *)

Module Js.

(** Numbers are integers here: the code only tests them for truth. *)
#[warnings="-register-all"]
Inductive value :=
| undefined
| null
| boolean (b : bool)
| number (n : Z)
| str (s : string)
| array (items : list value)
| object (fields : list (string * value)).

(** [!!v] *)
Definition truthy (v : value) : bool :=
  match v with
  | undefined | null => false
  | boolean b => b
  | number n => negb (n =? 0)
  | str s => negb (String.eqb s "")
  | array _ | object _ => true
  end.

(** [a || b] *)
Definition or_else (a b : value) : value := if truthy a then a else b.

Fixpoint lookup (key : string) (fields : list (string * value)) : value :=
  match fields with
  | [] => undefined
  | (k, v) :: rest => if String.eqb k key then v else lookup key rest
  end.

(** [v.key] for the data keys the code reads: a [TypeError] on
    [undefined] and [null], the field of an object, [undefined] on any
    other value. *)
Definition get (v : value) (key : string) : Outcome value :=
  match v with
  | undefined =>
      Throws (Error ("Cannot read properties of undefined (reading '" ++ key ++ "')"))
  | null =>
      Throws (Error ("Cannot read properties of null (reading '" ++ key ++ "')"))
  | object fields => Returns (lookup key fields)
  | _ => Returns undefined
  end.

End Js.

(** ** Programs that talk to the outside *)

Module Interaction.

Section Prog.
Variable E : Type -> Type.

(** A program performs an event and goes on with the answer, which
    may be an exception, or is finished. *)
Inductive Prog (A : Type) : Type :=
| Done (a : A)
| Do (X : Type) (e : E X) (k : Outcome X -> Prog A).

Arguments Done {A} a.
Arguments Do {A X} e k.

Fixpoint pbind {A B} (p : Prog A) (k : A -> Prog B) : Prog B :=
  match p with
  | Done a => k a
  | Do e c => Do e (fun r => pbind (c r) k)
  end.

(** An [async] function body: a program that returns or throws. *)
Definition Task (A : Type) : Type := Prog (Outcome A).

Definition ret {A} (a : A) : Task A := Done (Returns a).

Definition throw {A} (e : Exn) : Task A := Done (Throws e).

Definition bind {A B} (t : Task A) (k : A -> Task B) : Task B :=
  pbind t (fun o => match o with
                    | Returns a => k a
                    | Throws e => Done (Throws e)
                    end).

(** [await e] *)
Definition perform {X} (e : E X) : Task X := Do e (fun r => Done r).

(** A pure expression that may throw. *)
Definition lift {A} (o : Outcome A) : Task A := Done o.

(** [try { t } catch (error) { h error }] *)
Definition try_catch {A} (t : Task A) (h : Exn -> Task A) : Task A :=
  pbind t (fun o => match o with
                    | Returns a => Done (Returns a)
                    | Throws e => h e
                    end).

(** One event performed, whatever the type of its answer. *)
Inductive Call := call (X : Type) (e : E X).
Arguments call {X} e.

(** The outside: an answer to every event. *)
Definition Env := forall X, E X -> Outcome X.

(** Run a program against the outside, recording the events in order. *)
Fixpoint run {A} (env : Env) (p : Prog A) : list Call * A :=
  match p with
  | Done a => ([], a)
  | Do e k =>
      let '(t, a) := run env (k (env _ e)) in
      (call e :: t, a)
  end.

(** Every event a program can perform, whatever the answers. *)
Inductive every_call {A} (P : Call -> Prop) : Prog A -> Prop :=
| every_done (a : A) : every_call P (Done a)
| every_do (X : Type) (e : E X) (k : Outcome X -> Prog A) :
    P (call e) -> (forall r, every_call P (k r)) -> every_call P (Do e k).

End Prog.

Arguments every_call {E A} P p.
Arguments Done {E A} a.
Arguments Do {E A X} e k.
Arguments pbind {E A B} p k.
Arguments ret {E A} a.
Arguments throw {E A} e.
Arguments bind {E A B} t k.
Arguments perform {E X} e.
Arguments lift {E A} o.
Arguments try_catch {E A} t h.
Arguments call {E X} e.
Arguments run {E A} env p.

Declare Scope task_scope.
Delimit Scope task_scope with task.
Notation "x <- c ;; k" := (bind c (fun x => k))
  (at level 61, c at next level, right associativity) : task_scope.
Notation "c ;;; k" := (bind c (fun _ => k))
  (at level 61, right associativity) : task_scope.

End Interaction.

(** ** More string helpers, for the clone route *)

Module JsText.
Import JsString.

(** The double quote, which the templates of the route contain. *)
Definition dq : string := String "034" EmptyString.

(** The string of the given bytes. *)
Definition bytes (codes : list nat) : string :=
  fold_right (fun code s => String (ascii_of_nat code) s) EmptyString codes.

(** What [trim] removes: the white space and the line terminators of
    the language, each by its UTF-8 bytes.  TAB, LF, VT, FF, CR, SP;
    U+00A0; U+1680; U+2000 to U+200A; U+2028, U+2029; U+202F; U+205F;
    U+3000; U+FEFF. *)
Definition white_space : list string :=
  map bytes
    [[9]; [10]; [11]; [12]; [13]; [32];
     [194; 160];
     [225; 154; 128];
     [226; 128; 128]; [226; 128; 129]; [226; 128; 130]; [226; 128; 131];
     [226; 128; 132]; [226; 128; 133]; [226; 128; 134]; [226; 128; 135];
     [226; 128; 136]; [226; 128; 137]; [226; 128; 138];
     [226; 128; 168]; [226; 128; 169];
     [226; 128; 175];
     [226; 129; 159];
     [227; 128; 128];
     [239; 187; 191]]%nat.

(** [s] without the first of [prefixes] that it starts with. *)
Fixpoint strip_any (prefixes : list string) (s : string) : option string :=
  match prefixes with
  | [] => None
  | p :: rest =>
      match strip_prefix p s with
      | Some r => Some r
      | None => strip_any rest s
      end
  end.

(** Strips prefixes as long as there is one; every step takes at least
    one byte, so [fuel] the length of [s] is enough. *)
Fixpoint strip_all (fuel : nat) (prefixes : list string) (s : string) : string :=
  match fuel with
  | O => s
  | S fuel' =>
      match strip_any prefixes s with
      | Some r => strip_all fuel' prefixes r
      | None => s
      end
  end.

Fixpoint rev_onto (s acc : string) : string :=
  match s with
  | EmptyString => acc
  | String a s' => rev_onto s' (String a acc)
  end.

Definition reversed (s : string) : string := rev_onto s EmptyString.

Definition trim_start (s : string) : string :=
  strip_all (String.length s) white_space s.

(** Drops the white space that ends [s]. *)
Definition trim_end (s : string) : string :=
  reversed (strip_all (String.length s) (map reversed white_space) (reversed s)).

(** [s.trim()] *)
Definition trim (s : string) : string := trim_end (trim_start s).

(** [s.split(c)] for a one-character separator; never empty. *)
Fixpoint split (c : ascii) (s : string) : list string :=
  match s with
  | EmptyString => [EmptyString]
  | String a s' =>
      if Ascii.eqb a c then EmptyString :: split c s'
      else match split c s' with
           | first :: rest => String a first :: rest
           | [] => [String a EmptyString]
           end
  end.

(** [parts.join(sep)] *)
Fixpoint join (sep : string) (parts : list string) : string :=
  match parts with
  | [] => EmptyString
  | [p] => p
  | p :: rest => p ++ sep ++ join sep rest
  end.

(** [s.replace(needle, by)] with a string needle: the first occurrence. *)
Fixpoint replace_first (needle by_ s : string) : string :=
  match strip_prefix needle s with
  | Some rest => by_ ++ rest
  | None =>
      match s with
      | EmptyString => EmptyString
      | String a s' => String a (replace_first needle by_ s')
      end
  end.

(** A string in a condition: empty is false. *)
Definition nonempty (s : string) : bool := negb (String.eqb s "").

End JsText.

(** ** The programs the route runs inside the sandbox (Python) *)

Module SandboxScripts.

(** The project directory as the inspection sees it: the file names that
    [os.walk] yields, directory by directory, without [.git]. *)
Record ProjectDir := mkProjectDir {
  project_path : string;
  walk : list (list string);
  has_package_json : bool;
  has_requirements : bool;
  has_dockerfile : bool;
  has_readme : bool
}.

(** The walk adds the files of one directory at a time and stops once
    it holds 100 of them or more. *)
Fixpoint collect_files (dirs : list (list string)) (files : list string)
    : list string :=
  match dirs with
  | [] => files
  | filenames :: rest =>
      let files' := (files ++ filenames)%list in
      if (100 <=? Z.of_nat (List.length files')) then files'
      else collect_files rest files'
  end.

(** The dictionary [result] of the inspection, before [json.dumps]. *)
Definition check_result (dir : option ProjectDir) : Js.value :=
  match dir with
  | Some d =>
      let files := collect_files (walk d) [] in
      Js.object
        [("success", Js.boolean true);
         ("projectPath", Js.str (project_path d));
         ("fileCount", Js.number (Z.of_nat (List.length files)));
         ("files", Js.array (map Js.str (firstn 50 files)));
         ("hasPackageJson", Js.boolean (has_package_json d));
         ("hasRequirements", Js.boolean (has_requirements d));
         ("hasDockerfile", Js.boolean (has_dockerfile d));
         ("hasReadme", Js.boolean (has_readme d))]
  | None =>
      Js.object
        [("success", Js.boolean false);
         ("error", Js.str "Project directory not found")]
  end.

Definition declares (script : string) (scripts : list string) : bool :=
  existsb (String.eqb script) scripts.

(** [dev_command], from the names under ["scripts"] in [package.json]. *)
Definition dev_command (scripts : list string) : option string :=
  if declares "dev" scripts then Some "npm run dev"
  else if declares "start" scripts then Some "npm start"
  else if declares "serve" scripts then Some "npm run serve"
  else None.

(** What the launch program prints: [manifest] is the reading of
    [package.json], [alive] tells whether the process still runs after
    the three seconds, [stderr] is what it wrote if it does not. *)
Definition start_stdout (manifest : Outcome (list string)) (alive : bool)
    (stderr : string) : list string :=
  match manifest with
  | Returns scripts =>
      match dev_command scripts with
      | Some cmd =>
          ("Starting server with: " ++ cmd) ::
          (if alive
           then ["✅ Development server started!";
                 "🔗 Server should be available on port 3000 or 5173"]
           else ["❌ Server failed to start: " ++ stderr])
      | None => ["ℹ️ No dev script found in package.json"]
      end
  | Throws e =>
      ["❌ Error starting server: " ++
       match e with Error m => m | ZodError _ => "" end]
  end.

End SandboxScripts.

(** ** The clone route *)

Module CloneRoute.
Import Interaction JsString JsText.
Local Open Scope task_scope.

(** The handle of a remote sandbox. *)
Record Sandbox := mkSandbox { id : string }.

(** The programs handed to [runCode], by the values spliced into them. *)
Inductive Script :=
| CloneScript (cloneCommand projectName : string)
| CheckScript (projectName : string)
| InstallScript (projectName : string)
| StartScript (projectName : string).

Record Result := mkResult { text : option string }.
Record Execution := mkExecution { results : list Result }.

Definition Session := string.

(** What the route asks of the outside. *)
Inductive Event : Type -> Type :=
| GetSession : Event (option Session)
| SandboxCreate (id : option string) (timeoutMs : Z) : Event (option Sandbox)
| RunCode (sandbox : Sandbox) (code : Script) : Event Execution
| Close (sandbox : Sandbox) : Event unit
| GetHostname (sandbox : Sandbox) (port : Z) : Event string.

(** The calls that reach the remote sandbox provider. *)
Definition is_remote (c : Call Event) : bool :=
  match c with
  | call GetSession => false
  | call _ => true
  end.

Inductive Body :=
| ErrorBody (error : Js.value) (details : option (list string))
| SuccessBody (sandboxId : option string) (projectName : string)
    (projectInfo : Js.value) (serverUrl : option string) (message : string).

Record Response := mkResponse { status : Z; body : Body }.

(** [body.success] as the caller reads it. *)
Definition success (r : Response) : bool :=
  match body r with
  | SuccessBody _ _ _ _ _ => true
  | ErrorBody _ _ => false
  end.

Record CloneData := mkCloneData {
  gitUrl : string;
  branch : string;
  projectName : string;
  description : option string;
  isPrivate : bool;
  accessToken : option string;
  sandboxId : option string
}.

(** zod's field parsers: [None] is an issue. *)
Definition z_string (v : Js.value) : option string :=
  match v with Js.str s => Some s | _ => None end.

Definition z_boolean (v : Js.value) : option bool :=
  match v with Js.boolean b => Some b | _ => None end.

Definition z_optional {A} (p : Js.value -> option A) (v : Js.value)
    : option (option A) :=
  match v with
  | Js.undefined => Some None
  | _ => option_map Some (p v)
  end.

Definition z_default {A} (p : Js.value -> option A) (d : A) (v : Js.value)
    : option A :=
  option_map (fun o => match o with Some a => a | None => d end)
    (z_optional p v).

Definition z_check {A} (ok : A -> bool) (o : option A) : option A :=
  match o with
  | Some a => if ok a then Some a else None
  | None => None
  end.

Definition issue {A} (path : string) (o : option A) : list string :=
  match o with Some _ => [] | None => [path] end.

Section Route.

(** [z.string().url()]: zod accepts the strings that the platform's
    URL parser accepts. *)
Variable is_url : string -> bool.

(** [JSON.parse]: [None] when it throws. *)
Variable JSON_parse : string -> option Js.value.

(** [cloneSchema.parse(body)] *)
Definition cloneSchema_parse (body : Js.value) : Outcome CloneData :=
  match body with
  | Js.object fields =>
      let field k := Js.lookup k fields in
      let gitUrl := z_check is_url (z_string (field "gitUrl")) in
      let branch := z_default z_string "main" (field "branch") in
      let projectName :=
        z_check (fun s => (1 <=? String.length s)%nat)
          (z_string (field "projectName")) in
      let description := z_optional z_string (field "description") in
      let isPrivate := z_default z_boolean false (field "isPrivate") in
      let accessToken := z_optional z_string (field "accessToken") in
      let sandboxId := z_optional z_string (field "sandboxId") in
      match gitUrl, branch, projectName, description,
            isPrivate, accessToken, sandboxId with
      | Some g, Some b, Some p, Some d, Some i, Some a, Some s =>
          Returns (mkCloneData g b p d i a s)
      | _, _, _, _, _, _, _ =>
          Throws (ZodError
            (issue "gitUrl" gitUrl ++ issue "branch" branch ++
             issue "projectName" projectName ++
             issue "description" description ++
             issue "isPrivate" isPrivate ++
             issue "accessToken" accessToken ++
             issue "sandboxId" sandboxId)%list)
      end
  | _ => Throws (ZodError [""])
  end.

(** An optional string in a condition. *)
Definition given (o : option string) : bool :=
  match o with Some s => nonempty s | None => false end.

(** The URL handed to [git clone]. *)
Definition authGitUrl (d : CloneData) : string :=
  match accessToken d with
  | Some token =>
      if isPrivate d && nonempty token then
        match split "/" (replace_first "https://" "" (gitUrl d)) with
        | host :: pathParts =>
            "https://" ++ token ++ "@" ++ host ++ "/" ++ join "/" pathParts
        | [] => gitUrl d
        end
      else gitUrl d
  | None => gitUrl d
  end.

Definition cloneCommand (d : CloneData) : string :=
  "git clone " ++ (if isPrivate d then "-q" else "") ++ " -b " ++ branch d
  ++ " " ++ dq ++ authGitUrl d ++ dq ++ " " ++ dq ++ projectName d ++ dq.

(** The text that stands in when the inspection gives none. *)
Definition no_result_text : string :=
  "{" ++ dq ++ "success" ++ dq ++ ": false}".

Definition parse_failure : Js.value :=
  Js.object [("success", Js.boolean false);
             ("error", Js.str "Failed to parse project info")].

(** [checkResult.results[0]?.text || '{"success": false}'] *)
Definition output_of (checkResult : Execution) : string :=
  match results checkResult with
  | r :: _ =>
      match text r with
      | Some t => if nonempty t then t else no_result_text
      | None => no_result_text
      end
  | [] => no_result_text
  end.

Definition read_project_info (checkResult : Execution) : Js.value :=
  let output := output_of checkResult in
  let lines := split "010" (trim output) in
  let jsonLine := last lines EmptyString in
  match JSON_parse jsonLine with
  | Some v => v
  | None => parse_failure
  end.

Definition startDevServer (sandbox : Sandbox) (projectName : string)
    (projectInfo : Js.value) : Task Event (option string) :=
  try_catch
    (hasPackageJson <- lift (Js.get projectInfo "hasPackageJson") ;;
     if Js.truthy hasPackageJson then
       perform (RunCode sandbox (StartScript projectName)) ;;;
       host <- perform (GetHostname sandbox 3000) ;;
       if nonempty ("https://" ++ host) then ret (Some ("https://" ++ host))
       else
         other <- perform (GetHostname sandbox 5173) ;;
         ret (Some ("https://" ++ other))
     else ret None)
    (fun _ => ret None).

(** [error instanceof Error ? error.message : 'Unknown error']; zod's
    error never reaches this point. *)
Definition message_of (e : Exn) : string :=
  match e with
  | Error m => m
  | ZodError _ => "Unknown error"
  end.

(** The inner [try] block. *)
Definition clone_into (sandbox : Sandbox) (d : CloneData)
    (targetSandboxId : option string) : Task Event Response :=
  perform (RunCode sandbox (CloneScript (cloneCommand d) (projectName d))) ;;;
  checkResult <- perform (RunCode sandbox (CheckScript (projectName d))) ;;
  let projectInfo := read_project_info checkResult in
  ok <- lift (Js.get projectInfo "success") ;;
  if negb (Js.truthy ok) then
    perform (Close sandbox) ;;;
    error <- lift (Js.get projectInfo "error") ;;
    ret (mkResponse 400
           (ErrorBody (Js.or_else error (Js.str "Failed to clone repository"))
              None))
  else
    hasPackageJson <- lift (Js.get projectInfo "hasPackageJson") ;;
    (if Js.truthy hasPackageJson
     then perform (RunCode sandbox (InstallScript (projectName d))) ;;; ret tt
     else ret tt) ;;;
    serverUrl <- startDevServer sandbox (projectName d) projectInfo ;;
    ret (mkResponse 200
           (SuccessBody targetSandboxId (projectName d) projectInfo serverUrl
              ("Repository '" ++ gitUrl d ++ "' cloned successfully!"))).

(** Create the sandbox, or connect to the one the request names. *)
Definition open_sandbox (d : CloneData)
    : Task Event (option Sandbox * option string) :=
  if given (sandboxId d) then
    sandbox <- perform (SandboxCreate (sandboxId d) 900000) ;;
    ret (sandbox, sandboxId d)
  else
    sandbox <- perform (SandboxCreate None 900000) ;;
    match sandbox with
    | Some s => ret (Some s, Some (id s))
    | None => throw (Error "Cannot read properties of null (reading 'id')")
    end.

Definition internal_error : Response :=
  mkResponse 500 (ErrorBody (Js.str "Internal server error") None).

(** The route: [request_json] is the outcome of [request.json()]. *)
Definition POST (request_json : Outcome Js.value) : Prog Event Response :=
  pbind
    (session <- perform GetSession ;;
     match session with
     | None => ret (mkResponse 401 (ErrorBody (Js.str "Unauthorized") None))
     | Some _ =>
         body <- lift request_json ;;
         validatedData <- lift (cloneSchema_parse body) ;;
         opened <- open_sandbox validatedData ;;
         match opened with
         | (None, _) =>
             ret (mkResponse 500
                    (ErrorBody (Js.str "Failed to create or connect to sandbox")
                       None))
         | (Some sandbox, targetSandboxId) =>
             try_catch (clone_into sandbox validatedData targetSandboxId)
               (fun error =>
                  perform (Close sandbox) ;;;
                  ret (mkResponse 500
                         (ErrorBody
                            (Js.str ("Clone operation failed: " ++ message_of error))
                            None)))
         end
     end)
    (fun o =>
       match o with
       | Returns response => Done response
       | Throws (ZodError issues) =>
           Done (mkResponse 400
                   (ErrorBody (Js.str "Invalid request data") (Some issues)))
       | Throws (Error _) => Done internal_error
       end).

End Route.

(** The id the route hands to the provider, and the id it reports. *)
Definition requested_id (d : CloneData) : option string :=
  if given (sandboxId d) then sandboxId d else None.

Definition target_id (d : CloneData) (sandbox : Sandbox) : option string :=
  if given (sandboxId d) then sandboxId d else Some (id sandbox).


(** A run that ends in a 400-class response without a call to the
    sandbox provider. *)
Definition rejected_before_remote (r : list (Call Event) * Response) : Prop :=
  400 <= status (snd r) < 500 /\ existsb is_remote (fst r) = false.

(** [serverUrl] of a success response. *)
Definition serverUrl_of (r : Response) : option (option string) :=
  match body r with
  | SuccessBody _ _ _ serverUrl _ => Some serverUrl
  | ErrorBody _ _ => None
  end.

Definition clone_failed (e : Exn) : Response :=
  mkResponse 500
    (ErrorBody (Js.str ("Clone operation failed: " ++ message_of e)) None).


End CloneRoute.

(** ** The calls to the hosting provider's API *)

Module GitHubApi.
Import Interaction GitUtils.
Local Open Scope task_scope.

Definition Headers := list (string * string).

(** [response.json()] is read at most once, so its outcome is a field. *)
Record HttpResponse := mkHttpResponse {
  status : Z;
  json : Outcome Js.value
}.

(** [response.ok] *)
Definition ok (r : HttpResponse) : bool :=
  (200 <=? status r) && (status r <=? 299).

(** [fetch(input, init)]; [init] is absent when [fetch] gets one argument. *)
Inductive Event : Type -> Type :=
| Fetch (input : string) (init : option Headers) : Event HttpResponse.

Record Validation := mkValidation {
  exists_ : bool;
  isPrivate : Js.value;
  defaultBranch : Js.value;
  error : option string
}.

Definition string_of_Z (z : Z) : string :=
  DecimalString.NilZero.string_of_int (Z.to_int z).

(** A request that carries no header object, hence no credential. *)
Definition bare (c : Call Event) : Prop :=
  match c with
  | call (Fetch _ init) => init = None
  end.

Definition message_of (e : Exn) : string :=
  match e with
  | Error m => m
  | ZodError _ => "Unknown error"
  end.

(** The header object both functions build before they call [fetch]. *)
Definition request_headers (accessToken : option string) : Headers :=
  let headers := [("Accept", "application/vnd.github.v3+json")] in
  match accessToken with
  | Some token =>
      if JsText.nonempty token
      then List.app headers [("Authorization", "token " ++ token)]
      else headers
  | None => headers
  end.

Definition validateRepository (gitUrl : string) (accessToken : option string)
    : Prog Event Validation :=
  pbind
    (match parseGitUrl gitUrl with
     | None =>
         ret (mkValidation false (Js.boolean false) (Js.str "main")
                (Some "Invalid Git URL"))
     | Some repoInfo =>
         let apiUrl :=
           "https://api.github.com/repos/" ++ owner repoInfo ++ "/" ++ name repoInfo in
         let headers := request_headers accessToken in
         response <- perform (Fetch apiUrl None) ;;
         if status response =? 200 then
           data <- lift (json response) ;;
           private <- lift (Js.get data "private") ;;
           default_branch <- lift (Js.get data "default_branch") ;;
           ret (mkValidation true
                  (Js.or_else private (Js.boolean false))
                  (Js.or_else default_branch (Js.str "main"))
                  None)
         else if status response =? 404 then
           ret (mkValidation false (Js.boolean false) (Js.str "main")
                  (Some "Repository not found or not accessible"))
         else if status response =? 403 then
           ret (mkValidation true (Js.boolean true) (Js.str "main")
                  (Some "Repository is private and requires authentication"))
         else
           ret (mkValidation false (Js.boolean false) (Js.str "main")
                  (Some ("GitHub API error: " ++ string_of_Z (status response))))
     end)
    (fun o =>
       match o with
       | Returns v => Done v
       | Throws e =>
           Done (mkValidation false (Js.boolean false) (Js.str "main")
                   (Some ("Validation error: " ++ message_of e)))
       end).

(** [branches.map((branch) => branch.name)] *)
Fixpoint names_of (items : list Js.value) : Outcome (list Js.value) :=
  match items with
  | [] => Returns []
  | branch :: rest =>
      match Js.get branch "name" with
      | Throws e => Throws e
      | Returns n =>
          match names_of rest with
          | Returns ns => Returns (n :: ns)
          | Throws e => Throws e
          end
      end
  end.

Definition map_names (branches : Js.value) : Outcome (list Js.value) :=
  match branches with
  | Js.array items => names_of items
  | Js.undefined | Js.null =>
      Throws (Error "Cannot read properties of null (reading 'map')")
  | _ => Throws (Error "branches.map is not a function")
  end.

Definition getBranches (gitUrl : string) (accessToken : option string)
    : Prog Event (list Js.value) :=
  pbind
    (match parseGitUrl gitUrl with
     | None => ret [Js.str "main"]
     | Some repoInfo =>
         let apiUrl :=
           "https://api.github.com/repos/" ++ owner repoInfo ++ "/"
           ++ name repoInfo ++ "/branches" in
         let headers := request_headers accessToken in
         response <- perform (Fetch apiUrl None) ;;
         if ok response then
           branches <- lift (json response) ;;
           lift (map_names branches)
         else ret [Js.str "main"]
     end)
    (fun o =>
       match o with
       | Returns names => Done names
       | Throws _ => Done [Js.str "main"]
       end).

End GitHubApi.

(** ** The other queries on the sandbox records *)

Module StoreQueries.
Import Store.

(** An index read with [.order("desc")] yields the newest document first. *)
Definition getUserSandboxes (uid : Id) (db : Db) : list Sandbox :=
  rev (filter (fun s => Nat.eqb (userId s) uid) (sandboxes db)).

Definition getSandboxBySandboxId (sid : string) (db : Db) : option Sandbox :=
  find (fun s => String.eqb (sandboxId s) sid) (sandboxes db).

Definition of_project (pid : Id) (s : Sandbox) : bool :=
  match projectId s with
  | Some p => Nat.eqb p pid
  | None => false
  end.

Definition getProjectSandboxes (pid : Id) (db : Db) : list Sandbox :=
  rev (filter (of_project pid) (sandboxes db)).

Definition getActiveSandboxes (uid : Id) (db : Db) : list Sandbox :=
  filter (fun s => Status_eqb (status s) running || Status_eqb (status s) creating)
    (filter (fun s => Nat.eqb (userId s) uid) (sandboxes db)).

(** The record carries an [autoStopAt]. *)
Definition has_deadline (s : Sandbox) : bool :=
  match autoStopAt s with
  | Some _ => true
  | None => false
  end.

(** The fields that no mutation by [sandboxId] writes. *)
Definition fixed_part (s : Sandbox)
    : Id * Id * option Id * string * string * Z * bool :=
  (_id s, userId s, projectId s, sandboxId s, name s, startedAt s, isTemporary s).

(** The store hands out fresh ids: every id in use is below [next_id]. *)
Definition ids_below_next (db : Db) : Prop :=
  forall s, In s (sandboxes db) -> (_id s < next_id db)%nat.

(** A snapshot, a chat message that refers to the sandbox record [id]. *)
Definition snapshot_of (id : Id) (f : FileSnapshot) : bool :=
  Nat.eqb (snapshot_sandboxId f) id.

Definition chat_of (id : Id) (c : ChatMessage) : bool :=
  match chat_sandboxId c with
  | Some i => Nat.eqb i id
  | None => false
  end.

End StoreQueries.

(** ** Handlers over any table set *)

Module Txn.

Section Handlers.
Variable St : Type.

(** A mutation or query handler on a store of type [St]. *)
Definition Handler (A : Type) : Type := St -> Outcome A * St.

Definition ret {A} (a : A) : Handler A := fun db => (Returns a, db).

(** [throw new Error(msg)] *)
Definition throw {A} (msg : string) : Handler A :=
  fun db => (Throws (Error msg), db).

Definition bind {A B} (c : Handler A) (k : A -> Handler B) : Handler B :=
  fun db =>
    match c db with
    | (Returns a, db') => k a db'
    | (Throws e, db') => (Throws e, db')
    end.

End Handlers.

Arguments ret {St A} a.
Arguments throw {St A} msg.
Arguments bind {St A B} c k.

Declare Scope txn_scope.
Delimit Scope txn_scope with txn.
Notation "x <- c ;; k" := (bind c (fun x => k))
  (at level 61, c at next level, right associativity) : txn_scope.
Notation "c ;;; k" := (bind c (fun _ => k))
  (at level 61, right associativity) : txn_scope.

End Txn.

(** ** Subscriptions (Convex table [subscriptions]) *)

Module Subscriptions.
Import Txn.
Local Open Scope txn_scope.

Inductive Tier := free | pro | enterprise.
Inductive Status := active | cancelled | past_due | unpaid.

Definition Status_eqb (a b : Status) : bool :=
  match a, b with
  | active, active | cancelled, cancelled
  | past_due, past_due | unpaid, unpaid => true
  | _, _ => false
  end.

Definition Id := nat.

Record Subscription := mkSubscription {
  _id : Id;
  userId : Id;
  polarSubscriptionId : string;
  tier : Tier;
  status : Status;
  currentPeriodStart : Z;
  currentPeriodEnd : Z;
  createdAt : Z;
  updatedAt : Z
}.

Record Db := mkDb {
  subscriptions : list Subscription;
  next_id : Id
}.

(** The object handed to [ctx.db.patch]; an absent key keeps the field. *)
Record Patch := mkPatch {
  p_tier : option Tier;
  p_status : option Status;
  p_currentPeriodStart : option Z;
  p_currentPeriodEnd : option Z;
  p_updatedAt : option Z
}.

Definition or_keep {A} (new : option A) (old : A) : A :=
  match new with Some a => a | None => old end.

Definition apply_patch (p : Patch) (s : Subscription) : Subscription :=
  mkSubscription (_id s) (userId s) (polarSubscriptionId s)
    (or_keep (p_tier p) (tier s))
    (or_keep (p_status p) (status s))
    (or_keep (p_currentPeriodStart p) (currentPeriodStart s))
    (or_keep (p_currentPeriodEnd p) (currentPeriodEnd s))
    (createdAt s)
    (or_keep (p_updatedAt p) (updatedAt s)).

Definition patch_where (id : Id) (p : Patch) (s : Subscription) : Subscription :=
  if Nat.eqb (_id s) id then apply_patch p s else s.

(** [ctx.db.patch(id, p)]; Convex refuses to patch a document that does
    not exist. *)
Definition patch (id : Id) (p : Patch) : Handler Db unit :=
  fun db =>
    if existsb (fun s => Nat.eqb (_id s) id) (subscriptions db)
    then (Returns tt, mkDb (map (patch_where id p) (subscriptions db)) (next_id db))
    else (Throws (Error "Update on nonexistent document"), db).

Definition by_polar_id (pid : string) (s : Subscription) : bool :=
  String.eqb (polarSubscriptionId s) pid.

(** [.withIndex("by_polar_id", ...).first()] *)
Definition getByPolarId (pid : string) (db : Db) : option Subscription :=
  find (by_polar_id pid) (subscriptions db).

(** [.withIndex("by_user", ...).order("desc").first()] *)
Definition getUserSubscription (uid : Id) (db : Db) : option Subscription :=
  find (fun s => Nat.eqb (userId s) uid) (rev (subscriptions db)).

Record CreateArgs := mkCreateArgs {
  a_userId : Id;
  a_polarSubscriptionId : string;
  a_tier : Tier;
  a_status : Status;
  a_currentPeriodStart : Z;
  a_currentPeriodEnd : Z
}.

Definition createSubscription (now : Z) (args : CreateArgs) : Handler Db Id :=
  existing <- (fun db => (Returns (getByPolarId (a_polarSubscriptionId args) db), db)) ;;
  match existing with
  | Some e =>
      patch (_id e)
        (mkPatch (Some (a_tier args)) (Some (a_status args))
           (Some (a_currentPeriodStart args)) (Some (a_currentPeriodEnd args))
           (Some now)) ;;;
      ret (_id e)
  | None =>
      fun db =>
        let id := next_id db in
        (Returns id,
         mkDb (subscriptions db ++
               [mkSubscription id (a_userId args) (a_polarSubscriptionId args)
                  (a_tier args) (a_status args) (a_currentPeriodStart args)
                  (a_currentPeriodEnd args) now now])
              (S id))
  end.

Definition updateSubscription (now : Z) (subscriptionId : Id)
    (tier : option Tier) (status : option Status)
    (currentPeriodStart currentPeriodEnd : option Z) : Handler Db Id :=
  patch subscriptionId
    (mkPatch tier status currentPeriodStart currentPeriodEnd (Some now)) ;;;
  ret subscriptionId.

Definition cancelSubscription (now : Z) (subscriptionId : Id) : Handler Db Id :=
  patch subscriptionId (mkPatch None (Some cancelled) None None (Some now)) ;;;
  ret subscriptionId.

Definition getActiveSubscriptions (db : Db) : list Subscription :=
  filter (fun s => Status_eqb (status s) active) (subscriptions db).

(** The newest active subscription of the user decides. *)
Definition hasActiveSubscription (uid : Id) (now : Z) (db : Db) : bool :=
  match find (fun s => Status_eqb (status s) active)
          (rev (filter (fun s => Nat.eqb (userId s) uid) (subscriptions db))) with
  | None => false
  | Some subscription => now <? currentPeriodEnd subscription
  end.

Record Stats := mkStats {
  total : Z;
  n_active : Z;
  n_cancelled : Z;
  n_pastDue : Z;
  n_unpaid : Z;
  n_free : Z;
  n_pro : Z;
  n_enterprise : Z;
  revenue_monthly : Z;
  revenue_annual : Z
}.

(** The body of [all.forEach]: one counter by status, one by tier. *)
Definition count_subscription (stats : Stats) (sub : Subscription) : Stats :=
  let stats :=
    match status sub with
    | active =>
        mkStats (total stats) (n_active stats + 1) (n_cancelled stats)
          (n_pastDue stats) (n_unpaid stats) (n_free stats) (n_pro stats)
          (n_enterprise stats) (revenue_monthly stats) (revenue_annual stats)
    | cancelled =>
        mkStats (total stats) (n_active stats) (n_cancelled stats + 1)
          (n_pastDue stats) (n_unpaid stats) (n_free stats) (n_pro stats)
          (n_enterprise stats) (revenue_monthly stats) (revenue_annual stats)
    | past_due =>
        mkStats (total stats) (n_active stats) (n_cancelled stats)
          (n_pastDue stats + 1) (n_unpaid stats) (n_free stats) (n_pro stats)
          (n_enterprise stats) (revenue_monthly stats) (revenue_annual stats)
    | unpaid =>
        mkStats (total stats) (n_active stats) (n_cancelled stats)
          (n_pastDue stats) (n_unpaid stats + 1) (n_free stats) (n_pro stats)
          (n_enterprise stats) (revenue_monthly stats) (revenue_annual stats)
    end in
  match tier sub with
  | free =>
      mkStats (total stats) (n_active stats) (n_cancelled stats)
        (n_pastDue stats) (n_unpaid stats) (n_free stats + 1) (n_pro stats)
        (n_enterprise stats) (revenue_monthly stats) (revenue_annual stats)
  | pro =>
      mkStats (total stats) (n_active stats) (n_cancelled stats)
        (n_pastDue stats) (n_unpaid stats) (n_free stats) (n_pro stats + 1)
        (n_enterprise stats) (revenue_monthly stats) (revenue_annual stats)
  | enterprise =>
      mkStats (total stats) (n_active stats) (n_cancelled stats)
        (n_pastDue stats) (n_unpaid stats) (n_free stats) (n_pro stats)
        (n_enterprise stats + 1) (revenue_monthly stats) (revenue_annual stats)
  end.

Definition getSubscriptionStats (db : Db) : Stats :=
  let all := subscriptions db in
  fold_left count_subscription all
    (mkStats (Z.of_nat (List.length all)) 0 0 0 0 0 0 0 0 0).

Definition Tier_eqb (a b : Tier) : bool :=
  match a, b with
  | free, free | pro, pro | enterprise, enterprise => true
  | _, _ => false
  end.

Definition counted (p : Subscription -> bool) (l : list Subscription) : Z :=
  Z.of_nat (List.length (filter p l)).

(** The number of subscriptions in the given status, in the given tier. *)
Definition in_status (st : Status) (db : Db) : Z :=
  counted (fun s => Status_eqb (status s) st) (subscriptions db).

Definition in_tier (t : Tier) (db : Db) : Z :=
  counted (fun s => Tier_eqb (tier s) t) (subscriptions db).

End Subscriptions.

(** ** Numbers *)

Module Number.

(** A JavaScript number: an IEEE 754 binary64, in the standard library's
    specification of the format (53 bits of precision, exponents below
    1024). *)
Definition number : Type := spec_float.

(** The double nearest to the integer [z]; [z] itself when it has at most
    53 bits. *)
Definition of_Z (z : Z) : number := binary_normalize 53 1024 z 0 false.

(** [a + b] *)
Definition add (a b : number) : number := SFadd 53 1024 a b.

(** A number in a condition: zero and NaN are false. *)
Definition truthy (x : number) : bool :=
  match x with
  | S754_zero _ | S754_nan => false
  | _ => true
  end.

(** [x] as a count, when [Number.isInteger(x) && x >= 0]. *)
Definition to_count (x : number) : option nat :=
  match x with
  | S754_zero _ => Some 0%nat
  | S754_finite false m e =>
      if 0 <=? e then Some (Z.to_nat (Z.pos m * 2 ^ e))
      else if (Z.pos m) mod (2 ^ (- e)) =? 0
           then Some (Z.to_nat (Z.pos m / 2 ^ (- e)))
           else None
  | _ => None
  end.

End Number.

(** ** Projects (Convex table [projects]) *)

Module Projects.
Import Txn.
Local Open Scope txn_scope.

Inductive ProjectType := cloned | generated | imported.
Inductive Status := active | archived | error.

Definition Status_eqb (a b : Status) : bool :=
  match a, b with
  | active, active | archived, archived | error, error => true
  | _, _ => false
  end.

Definition Id := nat.

Record Project := mkProject {
  _id : Id;
  userId : Id;
  name : string;
  description : option string;
  gitUrl : option string;
  gitBranch : option string;
  isPrivateRepo : bool;
  lastCommitHash : option string;
  projectType : ProjectType;
  status : Status;
  createdAt : Z;
  updatedAt : Z;
  accessCount : Number.number
}.

Record Db := mkDb {
  projects : list Project;
  next_id : Id
}.

Record Patch := mkPatch {
  p_name : option string;
  p_description : option string;
  p_gitBranch : option string;
  p_lastCommitHash : option string;
  p_status : option Status;
  p_updatedAt : option Z;
  p_accessCount : option Number.number
}.

Definition or_keep {A} (new : option A) (old : A) : A :=
  match new with Some a => a | None => old end.

(** An optional field that the patch sets becomes present. *)
Definition or_keep_opt {A} (new : option A) (old : option A) : option A :=
  match new with Some a => Some a | None => old end.

Definition apply_patch (p : Patch) (x : Project) : Project :=
  mkProject (_id x) (userId x)
    (or_keep (p_name p) (name x))
    (or_keep_opt (p_description p) (description x))
    (gitUrl x)
    (or_keep_opt (p_gitBranch p) (gitBranch x))
    (isPrivateRepo x)
    (or_keep_opt (p_lastCommitHash p) (lastCommitHash x))
    (projectType x)
    (or_keep (p_status p) (status x))
    (createdAt x)
    (or_keep (p_updatedAt p) (updatedAt x))
    (or_keep (p_accessCount p) (accessCount x)).

Definition patch_where (id : Id) (p : Patch) (x : Project) : Project :=
  if Nat.eqb (_id x) id then apply_patch p x else x.

(** [ctx.db.patch(id, p)]; Convex refuses to patch a document that does
    not exist. *)
Definition patch (id : Id) (p : Patch) : Handler Db unit :=
  fun db =>
    if existsb (fun x => Nat.eqb (_id x) id) (projects db)
    then (Returns tt, mkDb (map (patch_where id p) (projects db)) (next_id db))
    else (Throws (Error "Update on nonexistent document"), db).

(** [ctx.db.get(projectId)] *)
Definition getProject (projectId : Id) (db : Db) : option Project :=
  find (fun x => Nat.eqb (_id x) projectId) (projects db).

Definition getUserProjects (uid : Id) (db : Db) : list Project :=
  rev (filter (fun x => Nat.eqb (userId x) uid) (projects db)).

Record CreateArgs := mkCreateArgs {
  a_userId : Id;
  a_name : string;
  a_description : option string;
  a_gitUrl : option string;
  a_gitBranch : option string;
  a_isPrivateRepo : option bool;
  a_projectType : ProjectType
}.

(** [args.gitBranch || "main"] *)
Definition branch_or_main (b : option string) : string :=
  match b with
  | Some s => if String.eqb s "" then "main" else s
  | None => "main"
  end.

(** [args.isPrivateRepo || false] *)
Definition or_false (b : option bool) : bool :=
  match b with Some true => true | _ => false end.

Definition createProject (now : Z) (args : CreateArgs) : Handler Db Id :=
  fun db =>
    let id := next_id db in
    (Returns id,
     mkDb (projects db ++
           [mkProject id (a_userId args) (a_name args) (a_description args)
              (a_gitUrl args) (Some (branch_or_main (a_gitBranch args)))
              (or_false (a_isPrivateRepo args)) None (a_projectType args)
              active now now (Number.of_Z 0)])
          (S id)).

Definition updateProject (now : Z) (projectId : Id)
    (name description gitBranch lastCommitHash : option string)
    (status : option Status) : Handler Db Id :=
  patch projectId
    (mkPatch name description gitBranch lastCommitHash status (Some now) None) ;;;
  ret projectId.

(** [count + 1] *)
Definition plus_one (count : Number.number) : Number.number :=
  Number.add count (Number.of_Z 1).

Definition incrementAccessCount (now : Z) (projectId : Id)
    : Handler Db Number.number :=
  project <- (fun db => (Returns (getProject projectId db), db)) ;;
  match project with
  | None => throw "Project not found"
  | Some project =>
      patch projectId
        (mkPatch None None None None None (Some now)
           (Some (plus_one (accessCount project)))) ;;;
      ret (plus_one (accessCount project))
  end.

Definition archiveProject (now : Z) (projectId : Id) : Handler Db Id :=
  patch projectId (mkPatch None None None None (Some archived) (Some now) None) ;;;
  ret projectId.

(** [args.limit || 10] *)
Definition limit_or_10 (limit : option Number.number) : Number.number :=
  match limit with
  | Some l => if Number.truthy l then l else Number.of_Z 10
  | None => Number.of_Z 10
  end.

(** [query.take(n)]: Convex refuses an [n] that is not a non-negative
    integer.  The message is Convex's and is not in the sources. *)
Definition take {A} (n : Number.number) (l : list A) : Outcome (list A) :=
  match Number.to_count n with
  | Some k => Returns (firstn k l)
  | None => Throws (Error "take: n must be a non-negative integer")
  end.

(** [.withIndex("by_user", ...).filter(status = "active").order("desc").take(n)] *)
Definition getRecentProjects (uid : Id) (limit : option Number.number) (db : Db)
    : Outcome (list Project) :=
  take (limit_or_10 limit)
    (rev (filter (fun x => Status_eqb (status x) active)
            (filter (fun x => Nat.eqb (userId x) uid) (projects db)))).

(** The number of active projects of the user. *)
Definition active_count (uid : Id) (db : Db) : nat :=
  List.length (filter (fun x => Nat.eqb (userId x) uid && Status_eqb (status x) active)
                 (projects db)).

(** Successive visits: one [incrementAccessCount] per clock reading. *)
Fixpoint visits (nows : list Z) (projectId : Id) : Handler Db (list Number.number) :=
  match nows with
  | [] => ret []
  | now :: rest =>
      c <- incrementAccessCount now projectId ;;
      cs <- visits rest projectId ;;
      ret (c :: cs)
  end.

End Projects.

(** ** The other git helpers *)

Module GitHelpers.
Import Interaction JsString JsText GitUtils GitHubApi.
Local Open Scope task_scope.

(** [s.startsWith(p)] *)
Definition startsWith (s p : string) : bool :=
  match strip_prefix p s with
  | Some _ => true
  | None => false
  end.

Definition createAuthenticatedGitUrl (gitUrl accessToken : string) : string :=
  if startsWith gitUrl "https://github.com/" then
    let urlWithoutProtocol := replace_first "https://" "" gitUrl in
    "https://" ++ accessToken ++ "@" ++ urlWithoutProtocol
  else if startsWith gitUrl "git@github.com:" then
    let repoPath := replace_first "git@github.com:" "" gitUrl in
    "https://" ++ accessToken ++ "@github.com/" ++ repoPath
  else gitUrl.

Definition generateProjectName (gitUrl : string) : string :=
  match parseGitUrl gitUrl with
  | Some repoInfo => name repoInfo
  | None =>
      let urlParts := split "/" gitUrl in
      let name := last urlParts EmptyString in
      let name := if endsWith name ".git" then slice_to_minus 4 name else name in
      if nonempty name then name else "cloned-project"
  end.

(** The header object [getDefaultBranch] hands to [fetch]. *)
Definition token_headers (accessToken : string) : Headers :=
  [("Authorization", "token " ++ accessToken);
   ("Accept", "application/vnd.github.v3+json")].

Definition getDefaultBranch (gitUrl : string) (accessToken : option string)
    : Prog Event Js.value :=
  pbind
    (match parseGitUrl gitUrl with
     | None => ret (Js.str "main")
     | Some repoInfo =>
         match accessToken with
         | Some token =>
             if nonempty token then
               let apiUrl :=
                 "https://api.github.com/repos/" ++ owner repoInfo ++ "/"
                 ++ name repoInfo in
               response <- perform (Fetch apiUrl (Some (token_headers token))) ;;
               if ok response then
                 data <- lift (json response) ;;
                 default_branch <- lift (Js.get data "default_branch") ;;
                 ret (Js.or_else default_branch (Js.str "main"))
               else ret (Js.str "main")
             else ret (Js.str "main")
         | None => ret (Js.str "main")
         end
     end)
    (fun o =>
       match o with
       | Returns branch => Done branch
       | Throws _ => Done (Js.str "main")
       end).

(** A request that carries the token in its [Authorization] header. *)
Definition authorized (token : string) (c : Call Event) : Prop :=
  match c with
  | call (Fetch _ init) => init = Some (token_headers token)
  end.

End GitHelpers.

(** ** Kinds of calls of the clone route *)

Module CloneCalls.
Import Interaction CloneRoute.

(** The call that closes the sandbox [sb]. *)
Definition closes (sb : Sandbox) (c : Call Event) : bool :=
  match c with
  | call (Close s) => String.eqb (id s) (id sb)
  | call _ => false
  end.

(** A call that runs a program inside the sandbox. *)
Definition runs_code (c : Call Event) : bool :=
  match c with
  | call (RunCode _ _) => true
  | call _ => false
  end.

(** The calls that install the dependencies or launch the server. *)
Definition installs_or_launches (c : Call Event) : bool :=
  match c with
  | call (RunCode _ (InstallScript _)) => true
  | call (RunCode _ (StartScript _)) => true
  | call (GetHostname _ _) => true
  | call _ => false
  end.

(** After the creation, in every run: a result with status 200 and no
    [close], or another result, or an exception, and a [close]. *)
Definition settled (sb : Sandbox) (calls : list (Call Event)) (o : Outcome Response)
    : Prop :=
  match o with
  | Returns response =>
      (status response = 200 /\ existsb (closes sb) calls = false) \/
      (status response <> 200 /\ existsb (closes sb) calls = true)
  | Throws _ => existsb (closes sb) calls = true
  end.

End CloneCalls.

(** ** What holds of every run of a program *)

Module Runs.
Import Interaction.

(** [P] holds of the calls made and of the result, whatever the outside
    answers; [acc] are the calls made so far. *)
Fixpoint all_runs {E : Type -> Type} {A : Type}
    (P : list (Call E) -> A -> Prop) (acc : list (Call E)) (p : Prog E A) : Prop :=
  match p with
  | Done a => P acc a
  | Do e k => forall r, all_runs P (acc ++ [call e]) (k r)
  end.

End Runs.

(** ** The route that validates a repository address *)

Module ValidateRoute.
Import Interaction JsString JsText.
Local Open Scope task_scope.

Definition Session := string.

(** What the route asks of the outside: the session, and what the
    functions of the hosting provider's API ask. *)
Inductive Event : Type -> Type :=
| GetSession : Event (option Session)
| Github {X : Type} (e : GitHubApi.Event X) : Event X.

(** A function of the API, called from the route. *)
Fixpoint within {A} (p : Prog GitHubApi.Event A) : Prog Event A :=
  match p with
  | Done a => Done a
  | Do e k => Do (Github e) (fun r => within (k r))
  end.

(** [await p] for a function that catches whatever it throws. *)
Definition resolved {E : Type -> Type} {A} (p : Prog E A) : Task E A :=
  pbind p (fun a => Done (Returns a)).

(** [s.includes(sub)] *)
Fixpoint includes (s sub : string) : bool :=
  match strip_prefix sub s with
  | Some _ => true
  | None =>
      match s with
      | String _ s' => includes s' sub
      | EmptyString => false
      end
  end.

(** [repository] of a response; [url] and [branches] are absent from
    the one [GET] builds. *)
Record Repository := mkRepository {
  url : option string;
  name : string;
  owner : string;
  isPrivate : Js.value;
  defaultBranch : Js.value;
  branches : option (list Js.value)
}.

Inductive Body :=
| ErrorOnly (error : string)
| NotValid (error : string)
| NotFound (error : string) (requiresAuth : option bool)
| BadRequest (details : list string)
| Validated (repository : Repository) (suggestedProjectName : string)
    (requiresAuth : Js.value)
| Checked (valid : bool) (repository : option Repository)
    (requiresAuth : Js.value) (error : option string).

Record Response := mkResponse { status : Z; body : Body }.

Record ValidateData := mkValidateData {
  gitUrl : string;
  accessToken : option string
}.

(** [validateSchema.parse(body)] *)
Definition validateSchema_parse (body : Js.value) : Outcome ValidateData :=
  match body with
  | Js.object fields =>
      let field k := Js.lookup k fields in
      let gitUrl :=
        CloneRoute.z_check (fun s => (1 <=? String.length s)%nat)
          (CloneRoute.z_string (field "gitUrl")) in
      let accessToken :=
        CloneRoute.z_optional CloneRoute.z_string (field "accessToken") in
      match gitUrl, accessToken with
      | Some g, Some a => Returns (mkValidateData g a)
      | _, _ =>
          Throws (ZodError
            (CloneRoute.issue "gitUrl" gitUrl ++
             CloneRoute.issue "accessToken" accessToken)%list)
      end
  | _ => Throws (ZodError [""])
  end.

(** [validation.error || 'Repository not found or not accessible'] *)
Definition error_or_default (error : option string) : string :=
  match error with
  | Some e => if nonempty e then e else "Repository not found or not accessible"
  | None => "Repository not found or not accessible"
  end.

(** [validation.isPrivate && !accessToken] *)
Definition private_without_token (isPrivate : Js.value) (accessToken : option string)
    : Js.value :=
  if Js.truthy isPrivate then Js.boolean (negb (CloneRoute.given accessToken))
  else isPrivate.

Definition apiUrl (repoInfo : GitUtils.GitRepoInfo) : string :=
  "https://api.github.com/repos/" ++ GitUtils.owner repoInfo ++ "/"
  ++ GitUtils.name repoInfo.

(** The route: [request_json] is the outcome of [request.json()].
    [getBranches] catches whatever it throws, so the [catch] around its
    call never runs. *)
Definition POST (request_json : Outcome Js.value) : Prog Event Response :=
  pbind
    (session <- perform GetSession ;;
     match session with
     | None => ret (mkResponse 401 (ErrorOnly "Unauthorized"))
     | Some _ =>
         body <- lift request_json ;;
         data <- lift (validateSchema_parse body) ;;
         if negb (GitUtils.isValidGitUrl (gitUrl data)) then
           ret (mkResponse 400
                  (NotValid "Invalid Git URL format. Please provide a valid GitHub repository URL."))
         else
           match GitUtils.parseGitUrl (gitUrl data) with
           | None =>
               ret (mkResponse 400
                      (NotValid "Could not parse repository information from URL"))
           | Some repoInfo =>
               validation <-
                 resolved (within (GitHubApi.validateRepository (gitUrl data)
                                     (accessToken data))) ;;
               if negb (GitHubApi.exists_ validation) then
                 ret (mkResponse 404
                        (NotFound (error_or_default (GitHubApi.error validation))
                           (option_map (fun e => includes e "private")
                              (GitHubApi.error validation))))
               else
                 branches <-
                   resolved (within (GitHubApi.getBranches (gitUrl data)
                                       (accessToken data))) ;;
                 let suggestedName := GitHelpers.generateProjectName (gitUrl data) in
                 ret (mkResponse 200
                        (Validated
                           (mkRepository (Some (gitUrl data))
                              (GitUtils.name repoInfo) (GitUtils.owner repoInfo)
                              (GitHubApi.isPrivate validation)
                              (GitHubApi.defaultBranch validation)
                              (Some branches))
                           suggestedName
                           (private_without_token (GitHubApi.isPrivate validation)
                              (accessToken data))))
           end
     end)
    (fun o =>
       match o with
       | Returns response => Done response
       | Throws (ZodError issues) => Done (mkResponse 400 (BadRequest issues))
       | Throws (Error _) =>
           Done (mkResponse 500 (NotValid "Failed to validate repository"))
       end).

(** The check without a session: [url_param] is the outcome of
    [new URL(request.url).searchParams.get('url')]. *)
Definition GET (url_param : Outcome (option string))
    : Prog GitHubApi.Event Response :=
  pbind
    (gitUrl <- lift url_param ;;
     match gitUrl with
     | None => ret (mkResponse 400 (NotValid "URL parameter is required"))
     | Some gitUrl =>
         if negb (nonempty gitUrl) then
           ret (mkResponse 400 (NotValid "URL parameter is required"))
         else if negb (GitUtils.isValidGitUrl gitUrl) then
           ret (mkResponse 400 (NotValid "Invalid Git URL format"))
         else
           match GitUtils.parseGitUrl gitUrl with
           | None =>
               ret (mkResponse 400 (NotValid "Could not parse repository information"))
           | Some repoInfo =>
               validation <- resolved (GitHubApi.validateRepository gitUrl None) ;;
               ret (mkResponse 200
                      (Checked (GitHubApi.exists_ validation)
                         (if GitHubApi.exists_ validation
                          then Some (mkRepository None
                                       (GitUtils.name repoInfo) (GitUtils.owner repoInfo)
                                       (GitHubApi.isPrivate validation)
                                       (GitHubApi.defaultBranch validation)
                                       None)
                          else None)
                         (GitHubApi.isPrivate validation)
                         (GitHubApi.error validation)))
           end
     end)
    (fun o =>
       match o with
       | Returns response => Done response
       | Throws _ => Done (mkResponse 500 (NotValid "Failed to check repository"))
       end).

(** A call to the hosting provider's API. *)
Definition is_fetch (c : Call Event) : bool :=
  match c with
  | call GetSession => false
  | call (Github _) => true
  end.

Definition fetches (calls : list (Call Event)) : nat :=
  List.length (filter is_fetch calls).

(** A call that hands no header object, hence no credential, to the
    outside. *)
Definition unauthenticated (c : Call Event) : bool :=
  match c with
  | call GetSession => true
  | call (Github (GitHubApi.Fetch _ None)) => true
  | call (Github (GitHubApi.Fetch _ (Some _))) => false
  end.

(** What a run of [POST] comes to: the status, and the number of calls
    to the API that go with it. *)
Definition POST_settled (calls : list (Call Event)) (response : Response) : Prop :=
  forallb unauthenticated calls = true /\
  hd_error calls = Some (call GetSession) /\
  ((status response = 200 /\ fetches calls = 2%nat) \/
   (status response = 404 /\ fetches calls = 1%nat) \/
   ((status response = 400 \/ status response = 401 \/ status response = 500) /\
    fetches calls = 0%nat)).

(** What a run of [GET] comes to. *)
Definition GET_settled (url_param : Outcome (option string))
    (calls : list (Call GitHubApi.Event)) (response : Response) : Prop :=
  (exists gitUrl repoInfo valid repository requiresAuth error,
      url_param = Returns (Some gitUrl) /\
      GitUtils.isValidGitUrl gitUrl = true /\
      GitUtils.parseGitUrl gitUrl = Some repoInfo /\
      calls = [call (GitHubApi.Fetch (apiUrl repoInfo) None)] /\
      response = mkResponse 200 (Checked valid repository requiresAuth error) /\
      (valid = true <-> repository <> None) /\
      (valid = false -> error <> None)) \/
  ((status response = 400 \/ status response = 500) /\ calls = []).

End ValidateRoute.

(** ** Sample data *)

Module Samples.
Import Store.

Definition empty_db : Db := mkDb [] [] [] 0%nat.

Definition widgets_args : CreateArgs :=
  mkCreateArgs 7%nat None "sbx-1" "widgets" None None.

(** The store after one [createSandbox] at time 0. *)
Definition db_created : Db := snd (createSandbox 0 widgets_args empty_db).

(** A store with a running record past its deadline, a stopped record
    past its deadline and a running record still within it. *)
Definition db_mixed : Db :=
  mkDb [mkSandbox 0%nat 7%nat None "sbx-1" "a" (Some "https://a") running 0 0
          (Some 900000) false;
        mkSandbox 1%nat 7%nat None "sbx-2" "b" None stopped 0 10 (Some 900000) false;
        mkSandbox 2%nat 7%nat None "sbx-3" "c" None running 0 500000
          (Some 1400000) true]
       [] [] 3%nat.

(** A store the schema allows and no mutation here writes: a running
    record that carries no [autoStopAt]. *)
Definition db_no_deadline : Db :=
  mkDb [mkSandbox 0%nat 7%nat None "sbx-1" "a" None running 0 0 None false]
       [] [] 1%nat.

(** The store after a creation at time 0 and a status update five
    seconds later: the deadline is where the creation put it. *)
Definition db_updated : Db :=
  snd (updateSandboxStatus 5000 "sbx-1" running None db_created).

End Samples.

Module CloneSamples.
Import Interaction CloneRoute JsText SandboxScripts.

(** A stand-in for the URL parser that is right on the addresses
    below: [https://] and something after it. *)
Definition sample_is_url (s : string) : bool :=
  match JsString.strip_prefix "https://" s with
  | Some rest => nonempty rest
  | None => false
  end.

(** [json.dumps] on values whose strings need no escape. *)
Fixpoint dumps (v : Js.value) : string :=
  match v with
  | Js.undefined | Js.null => "null"
  | Js.boolean true => "true"
  | Js.boolean false => "false"
  | Js.number n => GitHubApi.string_of_Z n
  | Js.str s => dq ++ s ++ dq
  | Js.array items => "[" ++ join ", " (map dumps items) ++ "]"
  | Js.object fields =>
      "{" ++ join ", " (map (fun kv => dq ++ fst kv ++ dq ++ ": " ++ dumps (snd kv))
                          fields) ++ "}"
  end.

(** A checkout that holds a [package.json] and nothing else. *)
Definition widgets_dir : ProjectDir :=
  mkProjectDir "/home/user/widgets" [["package.json"]] true false false false.

(** A stand-in for [JSON.parse] that is right on the texts below. *)
Definition sample_JSON_parse (line : string) : option Js.value :=
  if String.eqb line (dumps (check_result (Some widgets_dir)))
  then Some (check_result (Some widgets_dir))
  else if String.eqb line (dumps (check_result None))
  then Some (check_result None)
  else if String.eqb line no_result_text
  then Some (Js.object [("success", Js.boolean false)])
  else None.

(** An execution whose first result carries the printed lines. *)
Definition printed (lines : list string) : Execution :=
  mkExecution [mkResult (Some (join (String "010" "") lines))].

(** The outside, by its answers. *)
Definition env_of (session : option Session) (created : Outcome (option Sandbox))
    (clone check install start : Outcome Execution) (close : Outcome unit)
    (host : Z -> Outcome string) : Env Event :=
  fun X e =>
    match e in Event X return Outcome X with
    | GetSession => Returns session
    | SandboxCreate _ _ => created
    | RunCode _ (CloneScript _ _) => clone
    | RunCode _ (CheckScript _) => check
    | RunCode _ (InstallScript _) => install
    | RunCode _ (StartScript _) => start
    | Close _ => close
    | GetHostname _ port => host port
    end.

Definition sbx : Sandbox := mkSandbox "sbx-1".

Definition hostname (port : Z) : Outcome string :=
  Returns (GitHubApi.string_of_Z port ++ "-sbx-1.e2b.dev").

Definition clone_ok : Execution :=
  printed ["Repository cloned successfully!"; "Exit code: 0"].

(** The repository holds a manifest whose scripts are [build] and
    [test]: none of [dev], [start], [serve]. *)
Definition build_only : list string := ["build"; "test"].

Definition env_no_run_script : Env Event :=
  env_of (Some "user-1") (Returns (Some sbx)) (Returns clone_ok)
    (Returns (printed [dumps (check_result (Some widgets_dir))]))
    (Returns (printed ["Dependencies installed successfully!"]))
    (Returns (printed (start_stdout (Returns build_only) false "")))
    (Returns tt) hostname.

(** The clone command reports exit code zero, the directory is absent. *)
Definition env_dir_absent : Env Event :=
  env_of (Some "user-1") (Returns (Some sbx)) (Returns clone_ok)
    (Returns (printed [dumps (check_result None)]))
    (Returns (printed [])) (Returns (printed [])) (Returns tt) hostname.


Definition body_public : Js.value :=
  Js.object [("gitUrl", Js.str "https://github.com/acme/widgets");
             ("projectName", Js.str "widgets")].

Definition body_private_no_token : Js.value :=
  Js.object [("gitUrl", Js.str "https://github.com/acme/widgets");
             ("projectName", Js.str "widgets");
             ("isPrivate", Js.boolean true)].

Definition body_other_host : Js.value :=
  Js.object [("gitUrl", Js.str "https://example.com/acme/widgets");
             ("projectName", Js.str "widgets")].

Definition body_not_a_url : Js.value :=
  Js.object [("gitUrl", Js.str "git@github.com:acme/widgets");
             ("projectName", Js.str "widgets")].

End CloneSamples.

Module BootstrapSamples.
Import Interaction CloneRoute JsText SandboxScripts CloneSamples.

(** A checkout that holds a readme and no manifest. *)
Definition readme_dir : ProjectDir :=
  mkProjectDir "/home/user/widgets" [["README.md"]] false false false true.

(** A stand-in for [JSON.parse] that is right on the two reports below. *)
Definition parse_report (line : string) : option Js.value :=
  if String.eqb line (dumps (check_result (Some readme_dir)))
  then Some (check_result (Some readme_dir))
  else sample_JSON_parse line.

Definition env_no_manifest : Env Event :=
  env_of (Some "user-1") (Returns (Some sbx)) (Returns clone_ok)
    (Returns (printed [dumps (check_result (Some readme_dir))]))
    (Returns (printed [])) (Returns (printed [])) (Returns tt) hostname.

Definition env_install_throws : Env Event :=
  env_of (Some "user-1") (Returns (Some sbx)) (Returns clone_ok)
    (Returns (printed [dumps (check_result (Some widgets_dir))]))
    (Throws (Error "execution timed out"))
    (Returns (printed [])) (Returns tt) hostname.

Definition env_launch_throws : Env Event :=
  env_of (Some "user-1") (Returns (Some sbx)) (Returns clone_ok)
    (Returns (printed [dumps (check_result (Some widgets_dir))]))
    (Returns (printed ["Dependencies installed successfully!"]))
    (Throws (Error "execution timed out")) (Returns tt) hostname.

Definition widgets_data : CloneData :=
  mkCloneData "https://github.com/acme/widgets" "main" "widgets" None false None None.




End BootstrapSamples.

Module ValidateSamples.
Import Interaction ValidateRoute.

(** An outside with a session, where the hosting provider answers every
    request with the status [st] and an empty body. *)
Definition env_status (st : Z) : Env Event :=
  fun X e =>
    match e in Event Y return Outcome Y with
    | GetSession => Returns (Some "session-1")
    | Github g =>
        match g in GitHubApi.Event Z return Outcome Z with
        | GitHubApi.Fetch _ _ =>
            Returns (GitHubApi.mkHttpResponse st (Returns Js.null))
        end
    end.

Definition widgets_url : string := "https://github.com/acme/widgets".

Definition widgets_body : Js.value := Js.object [("gitUrl", Js.str widgets_url)].

Definition widgets_info : GitUtils.GitRepoInfo :=
  GitUtils.mkGitRepoInfo widgets_url "widgets" "acme" "main" false.

End ValidateSamples.

(** * Properties of the record store *)

Import Store.

Lemma Status_eqb_eq (a b : Status) : Status_eqb a b = true <-> a = b.
Proof. destruct a, b; simpl; split; congruence. Qed.

(** What each mutation does once the record is found, and when it is not. *)

Lemma first_by_sandbox_id_run (sid : string) (db : Db) :
  first_by_sandbox_id sid db =
  (Returns (find (fun s => String.eqb (sandboxId s) sid) (sandboxes db)), db).
Proof. reflexivity. Qed.

Lemma find_none_of_no_match (sid : string) (l : list Sandbox) :
  (forall s, In s l -> sandboxId s <> sid) ->
  find (fun s => String.eqb (sandboxId s) sid) l = None.
Proof.
  induction l as [|r l IH]; intros H; simpl; [reflexivity|].
  destruct (String.eqb_spec (sandboxId r) sid) as [E|_].
  - exfalso. apply (H r); [left; reflexivity | exact E].
  - apply IH. intros s Hs. apply H. right. exact Hs.
Qed.

Lemma updateSandboxStatus_found now sid st u db s :
  find (fun r => String.eqb (sandboxId r) sid) (sandboxes db) = Some s ->
  updateSandboxStatus now sid st u db =
  (Returns (_id s),
   mkDb (map (patch_where (_id s) (mkSandboxPatch (Some st) (Some u) (Some now) None))
           (sandboxes db))
        (fileSnapshots db) (chatHistory db) (next_id db)).
Proof.
  intros H. unfold updateSandboxStatus, bind. rewrite first_by_sandbox_id_run, H.
  reflexivity.
Qed.

Lemma updateSandboxActivity_found now sid db s :
  find (fun r => String.eqb (sandboxId r) sid) (sandboxes db) = Some s ->
  updateSandboxActivity now sid db =
  (Returns (_id s),
   mkDb (map (patch_where (_id s)
                (mkSandboxPatch None None (Some now) (Some (Some (now + GRACE_MS)))))
           (sandboxes db))
        (fileSnapshots db) (chatHistory db) (next_id db)).
Proof.
  intros H. unfold updateSandboxActivity, bind. rewrite first_by_sandbox_id_run, H.
  reflexivity.
Qed.

Lemma stopSandbox_found now sid db s :
  find (fun r => String.eqb (sandboxId r) sid) (sandboxes db) = Some s ->
  stopSandbox now sid db =
  (Returns (_id s),
   mkDb (map (patch_where (_id s) (mkSandboxPatch (Some stopped) None (Some now) None))
           (sandboxes db))
        (fileSnapshots db) (chatHistory db) (next_id db)).
Proof.
  intros H. unfold stopSandbox, bind. rewrite first_by_sandbox_id_run, H.
  reflexivity.
Qed.

Lemma updateSandboxStatus_missing now sid st u db :
  find (fun r => String.eqb (sandboxId r) sid) (sandboxes db) = None ->
  updateSandboxStatus now sid st u db = (Throws (Error "Sandbox not found"), db).
Proof.
  intros H. unfold updateSandboxStatus, bind. rewrite first_by_sandbox_id_run, H.
  reflexivity.
Qed.

Lemma updateSandboxActivity_missing now sid db :
  find (fun r => String.eqb (sandboxId r) sid) (sandboxes db) = None ->
  updateSandboxActivity now sid db = (Throws (Error "Sandbox not found"), db).
Proof.
  intros H. unfold updateSandboxActivity, bind. rewrite first_by_sandbox_id_run, H.
  reflexivity.
Qed.

Lemma stopSandbox_missing now sid db :
  find (fun r => String.eqb (sandboxId r) sid) (sandboxes db) = None ->
  stopSandbox now sid db = (Throws (Error "Sandbox not found"), db).
Proof.
  intros H. unfold stopSandbox, bind. rewrite first_by_sandbox_id_run, H.
  reflexivity.
Qed.

Lemma deleteSandbox_missing sid db :
  find (fun r => String.eqb (sandboxId r) sid) (sandboxes db) = None ->
  deleteSandbox sid db = (Throws (Error "Sandbox not found"), db).
Proof.
  intros H. unfold deleteSandbox, bind. rewrite first_by_sandbox_id_run, H.
  reflexivity.
Qed.

(** A patch never changes the id of a document, so the patched document
    is found where the original was. *)

Lemma apply_patch_id p s : _id (apply_patch p s) = _id s.
Proof. reflexivity. Qed.

Lemma patch_where_id id p s : _id (patch_where id p s) = _id s.
Proof. unfold patch_where. destruct (Nat.eqb (_id s) id); reflexivity. Qed.

Lemma find_id_patched id p (l : list Sandbox) :
  find (fun s => Nat.eqb (_id s) id) (map (patch_where id p) l) =
  option_map (apply_patch p) (find (fun s => Nat.eqb (_id s) id) l).
Proof.
  induction l as [|r l IH]; simpl; [reflexivity|].
  rewrite patch_where_id. unfold patch_where at 1.
  destruct (Nat.eqb (_id r) id); [reflexivity | exact IH].
Qed.

Lemma in_patched id p (l : list Sandbox) s' :
  In s' (map (patch_where id p) l) ->
  exists s, In s l /\ s' = patch_where id p s.
Proof.
  intros H. apply in_map_iff in H. destruct H as [s [E Hs]].
  exists s. split; [exact Hs | symmetry; exact E].
Qed.

Lemma find_some_id (sid : string) (l : list Sandbox) s :
  find (fun r => String.eqb (sandboxId r) sid) l = Some s ->
  exists r, find (fun r => Nat.eqb (_id r) (_id s)) l = Some r.
Proof.
  intros H. apply find_some in H. destruct H as [Hin _].
  destruct (find (fun r => Nat.eqb (_id r) (_id s)) l) as [r|] eqn:E.
  - exists r. reflexivity.
  - exfalso. apply (find_none _ _ E) in Hin. rewrite Nat.eqb_refl in Hin.
    discriminate.
Qed.

(** What the patches of the four mutations write and keep. *)

Lemma autoStopAt_kept id st u now (l : list Sandbox) :
  map autoStopAt (map (patch_where id (mkSandboxPatch st u (Some now) None)) l) =
  map autoStopAt l.
Proof.
  rewrite map_map. apply map_ext. intros s. unfold patch_where.
  destruct (Nat.eqb (_id s) id); reflexivity.
Qed.

Lemma lastActiveAt_written id st u a now (l : list Sandbox) s' :
  In s' (map (patch_where id (mkSandboxPatch st u (Some now) a)) l) ->
  _id s' = id -> lastActiveAt s' = now.
Proof.
  intros Hin Hid. apply in_patched in Hin. destruct Hin as [s [_ ->]].
  rewrite patch_where_id in Hid. unfold patch_where.
  rewrite Hid, Nat.eqb_refl. reflexivity.
Qed.

Lemma autoStopAt_written id st u la d (l : list Sandbox) s' :
  In s' (map (patch_where id (mkSandboxPatch st u la (Some d))) l) ->
  _id s' = id -> autoStopAt s' = d.
Proof.
  intros Hin Hid. apply in_patched in Hin. destruct Hin as [s [_ ->]].
  rewrite patch_where_id in Hid. unfold patch_where.
  rewrite Hid, Nat.eqb_refl. reflexivity.
Qed.

(** The patched record is the one [get] finds under the id. *)
Lemma get_patched id p db s :
  find (fun r => Nat.eqb (_id r) id) (sandboxes db) = Some s ->
  Store.get (mkDb (map (patch_where id p) (sandboxes db))
               (fileSnapshots db) (chatHistory db) (next_id db)) id
  = Some (apply_patch p s).
Proof.
  intros H. unfold Store.get. cbn [sandboxes]. rewrite find_id_patched, H.
  reflexivity.
Qed.

(** C1, as stated, fails: a status update five seconds after the creation
    writes [lastActiveAt] and leaves [autoStopAt] where the creation put
    it, less than the grace window ahead. *)
Lemma C1_counterexample :
  ~ ((forall now a, keeps_grace_window (createSandbox now a)) /\
     (forall now sid st u, keeps_grace_window (updateSandboxStatus now sid st u)) /\
     (forall now sid, keeps_grace_window (updateSandboxActivity now sid)) /\
     (forall now sid, keeps_grace_window (stopSandbox now sid))).
Proof.
  intros [_ [H _]].
  specialize (H 5000 "sbx-1" running None Samples.db_created).
  assert (Hpre : Forall grace_ok (sandboxes Samples.db_created)).
  { repeat constructor. unfold grace_ok; simpl. unfold GRACE_MS. lia. }
  apply H in Hpre. vm_compute in Hpre.
  inversion Hpre as [|x l Hx _]. apply Hx. reflexivity.
Qed.

(** C1, amended: [createSandbox] and [updateSandboxActivity] return, on
    every store for the first and whenever the record is there for the
    second, and write [lastActiveAt = now] and [autoStopAt = now + 15 min]
    into the record they insert or patch, which therefore satisfies the
    bound.  [updateSandboxStatus] and [stopSandbox] write [lastActiveAt =
    now] into the record they patch and leave its [autoStopAt] as it was,
    so that record satisfies the bound afterwards exactly when it has a
    deadline and [now + 15 min] is not beyond it.  No record with another
    id is changed by any of the four. *)
Theorem C1_grace_window_by_operation (now : Z) (db : Db) :
  (forall a, exists s,
      createSandbox now a db =
      (Returns (_id s),
       mkDb (sandboxes db ++ [s]) (fileSnapshots db) (chatHistory db) (S (next_id db)))
      /\ lastActiveAt s = now /\ autoStopAt s = Some (now + GRACE_MS) /\ grace_ok s) /\
  (forall sid s,
      find (fun r => String.eqb (sandboxId r) sid) (sandboxes db) = Some s ->
      let after r :=
        if Nat.eqb (_id r) (_id s)
        then mkSandbox (_id r) (userId r) (projectId r) (sandboxId r) (name r)
               (url r) (status r) (startedAt r) now (Some (now + GRACE_MS))
               (isTemporary r)
        else r in
      updateSandboxActivity now sid db =
      (Returns (_id s),
       mkDb (map after (sandboxes db)) (fileSnapshots db) (chatHistory db)
            (next_id db)) /\
      (forall r, In r (sandboxes db) -> _id r = _id s ->
                 lastActiveAt (after r) = now /\
                 autoStopAt (after r) = Some (now + GRACE_MS) /\
                 grace_ok (after r)) /\
      (forall r, _id r <> _id s -> after r = r)) /\
  (forall sid st u s,
      find (fun r => String.eqb (sandboxId r) sid) (sandboxes db) = Some s ->
      let after r :=
        if Nat.eqb (_id r) (_id s)
        then mkSandbox (_id r) (userId r) (projectId r) (sandboxId r) (name r)
               u st (startedAt r) now (autoStopAt r) (isTemporary r)
        else r in
      updateSandboxStatus now sid st u db =
      (Returns (_id s),
       mkDb (map after (sandboxes db)) (fileSnapshots db) (chatHistory db)
            (next_id db)) /\
      (forall r, In r (sandboxes db) -> _id r = _id s ->
                 lastActiveAt (after r) = now /\
                 autoStopAt (after r) = autoStopAt r /\
                 (grace_ok (after r) <->
                  exists deadline, autoStopAt r = Some deadline /\
                                   now + GRACE_MS <= deadline)) /\
      (forall r, _id r <> _id s -> after r = r)) /\
  (forall sid s,
      find (fun r => String.eqb (sandboxId r) sid) (sandboxes db) = Some s ->
      let after r :=
        if Nat.eqb (_id r) (_id s)
        then mkSandbox (_id r) (userId r) (projectId r) (sandboxId r) (name r)
               (url r) stopped (startedAt r) now (autoStopAt r) (isTemporary r)
        else r in
      stopSandbox now sid db =
      (Returns (_id s),
       mkDb (map after (sandboxes db)) (fileSnapshots db) (chatHistory db)
            (next_id db)) /\
      (forall r, In r (sandboxes db) -> _id r = _id s ->
                 lastActiveAt (after r) = now /\
                 autoStopAt (after r) = autoStopAt r /\
                 (grace_ok (after r) <->
                  exists deadline, autoStopAt r = Some deadline /\
                                   now + GRACE_MS <= deadline)) /\
      (forall r, _id r <> _id s -> after r = r)).
Proof.
  assert (Hkept : forall (r r' : Sandbox),
             lastActiveAt r' = now -> autoStopAt r' = autoStopAt r ->
             (grace_ok r' <->
              exists deadline, autoStopAt r = Some deadline /\
                               now + GRACE_MS <= deadline)).
  { intros r r' Hl Ha. unfold grace_ok. rewrite Hl, Ha.
    destruct (autoStopAt r) as [d|].
    - split; [intros H; exists d; split; [reflexivity | exact H]|].
      intros [d' [E H]]. injection E as <-. exact H.
    - split; [intros [] | intros [d' [E _]]; discriminate]. }
  split; [|split; [|split]].
  - intros a. eexists (mkSandbox _ _ _ _ _ _ _ _ _ _ _).
    split; [reflexivity|]. unfold grace_ok. simpl. repeat split. lia.
  - intros sid s E after. split; [|split].
    + rewrite (updateSandboxActivity_found now sid db s E). reflexivity.
    + intros r _ Hid. unfold after. rewrite Hid, Nat.eqb_refl.
      cbn [lastActiveAt autoStopAt]. repeat split.
      unfold grace_ok. cbn [lastActiveAt autoStopAt]. lia.
    + intros r Hid. unfold after.
      destruct (Nat.eqb_spec (_id r) (_id s)); [contradiction | reflexivity].
  - intros sid st u s E after. split; [|split].
    + rewrite (updateSandboxStatus_found now sid st u db s E). reflexivity.
    + intros r _ Hid.
      assert (Hl : lastActiveAt (after r) = now)
        by (unfold after; rewrite Hid, Nat.eqb_refl; reflexivity).
      assert (Ha : autoStopAt (after r) = autoStopAt r)
        by (unfold after; rewrite Hid, Nat.eqb_refl; reflexivity).
      split; [exact Hl | split; [exact Ha | exact (Hkept r (after r) Hl Ha)]].
    + intros r Hid. unfold after.
      destruct (Nat.eqb_spec (_id r) (_id s)); [contradiction | reflexivity].
  - intros sid s E after. split; [|split].
    + rewrite (stopSandbox_found now sid db s E). reflexivity.
    + intros r _ Hid.
      assert (Hl : lastActiveAt (after r) = now)
        by (unfold after; rewrite Hid, Nat.eqb_refl; reflexivity).
      assert (Ha : autoStopAt (after r) = autoStopAt r)
        by (unfold after; rewrite Hid, Nat.eqb_refl; reflexivity).
      split; [exact Hl | split; [exact Ha | exact (Hkept r (after r) Hl Ha)]].
    + intros r Hid. unfold after.
      destruct (Nat.eqb_spec (_id r) (_id s)); [contradiction | reflexivity].
Qed.

(** On the store where a status update has left the deadline behind, a
    touch puts the record back inside the window, and a stop does not. *)
Lemma C1_grace_window_by_operation_witness :
  (exists s db',
      updateSandboxActivity 7000 "sbx-1" Samples.db_updated = (Returns 0%nat, db') /\
      Store.get db' 0%nat = Some s /\
      lastActiveAt s = 7000 /\ autoStopAt s = Some 907000) /\
  (exists s db',
      stopSandbox 7000 "sbx-1" Samples.db_updated = (Returns 0%nat, db') /\
      Store.get db' 0%nat = Some s /\
      lastActiveAt s = 7000 /\ autoStopAt s = Some 900000).
Proof.
  pose proof (C1_grace_window_by_operation 7000 Samples.db_updated) as [_ [Ht [_ Hs]]].
  split.
  - destruct (Ht "sbx-1" _ eq_refl) as [Hrun _].
    eexists. eexists. split; [exact Hrun|]. repeat split.
  - destruct (Hs "sbx-1" _ eq_refl) as [Hrun _].
    eexists. eexists. split; [exact Hrun|]. repeat split.
Defined.

(** C2, as stated, fails on a store that the schema allows: a running
    record that carries no [autoStopAt] is returned at every [now],
    though no deadline of it is below [now]. *)
Lemma C2_counterexample :
  ~ (forall now db s,
        In s (getSandboxesToAutoStop now db) <->
        In s (sandboxes db) /\ status s = running /\
        exists deadline, autoStopAt s = Some deadline /\ deadline < now).
Proof.
  intros H.
  destruct (proj1 (H 0 Samples.db_no_deadline
                     (mkSandbox 0%nat 7%nat None "sbx-1" "a" None running 0 0 None false))
              (or_introl eq_refl))
    as [_ [_ [deadline [E _]]]].
  discriminate E.
Qed.

Lemma field_lt_spec (field : option Z) (n : Z) :
  field_lt field n = true <->
  match field with Some deadline => deadline < n | None => True end.
Proof.
  destruct field as [d|]; simpl; [apply Z.ltb_lt | tauto].
Qed.

(** C2, amended: the expired-record query returns exactly the records
    whose status is [running] and whose [autoStopAt] is absent or strictly
    below [now]; a record in any other status is never returned, whatever
    its deadline.  The mutations keep every deadline that is there, so in
    a store where every record has one (as every record that
    [createSandbox] inserts has) the query returns exactly the running
    records whose [autoStopAt] is strictly below [now]. *)
Theorem C2_expired_query_exact (now : Z) (db : Db) (s : Sandbox) :
  (In s (getSandboxesToAutoStop now db) <->
   In s (sandboxes db) /\ status s = running /\
   match autoStopAt s with Some deadline => deadline < now | None => True end) /\
  (status s <> running -> ~ In s (getSandboxesToAutoStop now db)) /\
  (forallb StoreQueries.has_deadline (sandboxes db) = true ->
   (In s (getSandboxesToAutoStop now db) <->
    In s (sandboxes db) /\ status s = running /\
    exists deadline, autoStopAt s = Some deadline /\ deadline < now)) /\
  (forallb StoreQueries.has_deadline (sandboxes db) = true ->
   (forall t a,
       forallb StoreQueries.has_deadline (sandboxes (snd (createSandbox t a db))) = true) /\
   (forall t sid st u,
       forallb StoreQueries.has_deadline
         (sandboxes (snd (updateSandboxStatus t sid st u db))) = true) /\
   (forall t sid,
       forallb StoreQueries.has_deadline
         (sandboxes (snd (updateSandboxActivity t sid db))) = true) /\
   (forall t sid,
       forallb StoreQueries.has_deadline (sandboxes (snd (stopSandbox t sid db))) = true)).
Proof.
  assert (Hexact : In s (getSandboxesToAutoStop now db) <->
                   In s (sandboxes db) /\ status s = running /\
                   match autoStopAt s with
                   | Some deadline => deadline < now
                   | None => True
                   end).
  { unfold getSandboxesToAutoStop.
    rewrite !filter_In, Status_eqb_eq, field_lt_spec. tauto. }
  assert (Hpatched : forall id p,
             (forall r, StoreQueries.has_deadline r = true ->
                        StoreQueries.has_deadline (apply_patch p r) = true) ->
             forallb StoreQueries.has_deadline (sandboxes db) = true ->
             forallb StoreQueries.has_deadline (map (patch_where id p) (sandboxes db))
             = true).
  { intros id p Hp Hall. rewrite forallb_forall in *. intros r' Hin.
    apply in_patched in Hin. destruct Hin as [r [Hin ->]].
    unfold patch_where. destruct (Nat.eqb (_id r) id); auto. }
  split; [exact Hexact | split; [|split]].
  - intros Hst Hin. apply Hexact in Hin. tauto.
  - intros Hall. rewrite Hexact. rewrite forallb_forall in Hall.
    split.
    + intros [Hin [Hst Hd]]. split; [exact Hin | split; [exact Hst|]].
      specialize (Hall s Hin). unfold StoreQueries.has_deadline in Hall.
      destruct (autoStopAt s) as [d|]; [|discriminate].
      exists d. split; [reflexivity | exact Hd].
    + intros [Hin [Hst [d [E Hd]]]]. rewrite E. tauto.
  - intros Hall. split; [|split; [|split]].
    + intros t a. cbn [createSandbox insert_sandbox Store.bind Store.ret snd sandboxes].
      unfold createSandbox, Store.bind, insert_sandbox, Store.ret.
      cbn [snd sandboxes]. rewrite forallb_app, Hall. reflexivity.
    + intros t sid st u.
      destruct (find (fun r => String.eqb (sandboxId r) sid) (sandboxes db))
        as [r|] eqn:E.
      * rewrite (updateSandboxStatus_found t sid st u db r E). cbn [snd sandboxes].
        apply Hpatched; [|exact Hall]. intros x Hx. exact Hx.
      * rewrite (updateSandboxStatus_missing t sid st u db E). exact Hall.
    + intros t sid.
      destruct (find (fun r => String.eqb (sandboxId r) sid) (sandboxes db))
        as [r|] eqn:E.
      * rewrite (updateSandboxActivity_found t sid db r E). cbn [snd sandboxes].
        apply Hpatched; [|exact Hall]. intros x Hx. reflexivity.
      * rewrite (updateSandboxActivity_missing t sid db E). exact Hall.
    + intros t sid.
      destruct (find (fun r => String.eqb (sandboxId r) sid) (sandboxes db))
        as [r|] eqn:E.
      * rewrite (stopSandbox_found t sid db r E). cbn [snd sandboxes].
        apply Hpatched; [|exact Hall]. intros x Hx. exact Hx.
      * rewrite (stopSandbox_missing t sid db E). exact Hall.
Qed.

(** In the sample store every record has a deadline: the sweep at
    1000000 returns the running record whose deadline was 900000. *)
Lemma C2_expired_query_exact_witness :
  In (mkSandbox 0%nat 7%nat None "sbx-1" "a" (Some "https://a") running 0 0
        (Some 900000) false)
    (getSandboxesToAutoStop 1000000 Samples.db_mixed).
Proof.
  apply (proj1 (proj2 (proj2 (C2_expired_query_exact 1000000 Samples.db_mixed _)))
           eq_refl).
  split; [left; reflexivity | split; [reflexivity|]].
  exists 900000. split; [reflexivity | lia].
Defined.

(** C5: [createSandbox] returns, and the record it inserts has
    [autoStopAt - lastActiveAt = 15 min]; [updateSandboxActivity] on a
    record that is there returns, and the record it has patched, which is
    the one found under the returned id, has [autoStopAt - lastActiveAt =
    15 min], whatever the two fields were before. *)
Theorem C5_grace_after_create_and_touch (now : Z) (db : Db) :
  (forall a, exists s,
      createSandbox now a db =
      (Returns (_id s),
       mkDb (sandboxes db ++ [s]) (fileSnapshots db) (chatHistory db) (S (next_id db)))
      /\ exists deadline,
           autoStopAt s = Some deadline /\ deadline - lastActiveAt s = GRACE_MS) /\
  (forall sid s,
      find (fun r => String.eqb (sandboxId r) sid) (sandboxes db) = Some s ->
      exists db' s',
        updateSandboxActivity now sid db = (Returns (_id s), db') /\
        Store.get db' (_id s) = Some s' /\
        (forall r, In r (sandboxes db') -> _id r = _id s ->
                   exists deadline,
                     autoStopAt r = Some deadline /\
                     deadline - lastActiveAt r = GRACE_MS) /\
        (forall r, _id r <> _id s -> (In r (sandboxes db) <-> In r (sandboxes db')))).
Proof.
  split.
  - intros a. eexists (mkSandbox _ _ _ _ _ _ _ _ _ _ _).
    split; [reflexivity|]. simpl. eexists. split; [reflexivity|]. lia.
  - intros sid s E.
    destruct (find_some_id sid _ s E) as [r0 Hr0].
    eexists. exists (apply_patch
                       (mkSandboxPatch None None (Some now) (Some (Some (now + GRACE_MS))))
                       r0).
    split; [exact (updateSandboxActivity_found now sid db s E)|].
    split; [exact (get_patched _ _ db r0 Hr0)|]. cbn [sandboxes]. split.
    + intros r Hin Hid. exists (now + GRACE_MS).
      rewrite (autoStopAt_written _ _ _ _ _ _ _ Hin Hid).
      rewrite (lastActiveAt_written _ _ _ _ _ _ _ Hin Hid).
      split; [reflexivity | lia].
    + intros r Hid. rewrite in_map_iff. split.
      * intros Hin. exists r. split; [|exact Hin]. unfold patch_where.
        destruct (Nat.eqb_spec (_id r) (_id s)); [contradiction | reflexivity].
      * intros [x [Hx Hin]]. unfold patch_where in Hx.
        destruct (Nat.eqb_spec (_id x) (_id s)) as [Ex|Ex].
        -- exfalso. apply Hid. rewrite <- Hx. exact Ex.
        -- rewrite <- Hx. exact Hin.
Qed.

(** A touch of the record whose deadline the status update had left
    behind: before it the two fields were 5000 and 900000. *)
Lemma C5_grace_after_create_and_touch_witness :
  exists s',
    option_map lastActiveAt (Store.get Samples.db_updated 0%nat) = Some 5000 /\
    option_map autoStopAt (Store.get Samples.db_updated 0%nat) = Some (Some 900000) /\
    Store.get (snd (updateSandboxActivity 7000 "sbx-1" Samples.db_updated)) 0%nat
    = Some s' /\
    lastActiveAt s' = 7000 /\ autoStopAt s' = Some (7000 + GRACE_MS).
Proof.
  destruct (proj2 (C5_grace_after_create_and_touch 7000 Samples.db_updated)
              "sbx-1" _ eq_refl)
    as [db' [s' [Hrun [Hget _]]]].
  exists s'. split; [reflexivity | split; [reflexivity|]].
  rewrite Hrun. cbn [snd]. split; [exact Hget|].
  injection Hrun as <-. vm_compute in Hget. injection Hget as <-.
  split; reflexivity.
Defined.

(** C7: when no record carries the given [sandboxId], [updateSandboxStatus],
    [updateSandboxActivity] and [deleteSandbox] throw "Sandbox not found"
    and leave every table of the store as it was. *)
Theorem C7_not_found_is_raised (db : Db) (sid : string)
    (Hnone : forall s, In s (sandboxes db) -> sandboxId s <> sid) :
  (forall now st u,
      updateSandboxStatus now sid st u db = (Throws (Error "Sandbox not found"), db)) /\
  (forall now,
      updateSandboxActivity now sid db = (Throws (Error "Sandbox not found"), db)) /\
  deleteSandbox sid db = (Throws (Error "Sandbox not found"), db).
Proof.
  pose proof (find_none_of_no_match sid (sandboxes db) Hnone) as E.
  split; [|split].
  - intros. apply updateSandboxStatus_missing. exact E.
  - intros. apply updateSandboxActivity_missing. exact E.
  - apply deleteSandbox_missing. exact E.
Qed.

Lemma C7_not_found_is_raised_witness :
  deleteSandbox "sbx-9" Samples.db_mixed =
  (Throws (Error "Sandbox not found"), Samples.db_mixed).
Proof.
  apply (C7_not_found_is_raised Samples.db_mixed "sbx-9").
  intros s Hs. simpl in Hs.
  destruct Hs as [<-|[<-|[<-|[]]]]; simpl; discriminate.
Defined.

(** C9: [updateSandboxStatus] writes its [url] argument on every call:
    the record it patches gets [status], [url] and [lastActiveAt] from the
    call and keeps every other field, so an omitted [url] removes the
    stored one; every other record and table is left as it was. *)
Theorem C9_status_update_overwrites_url (now : Z) (sid : string) (st : Status)
    (u : option string) (db : Db) (s : Sandbox)
    (Hfound : find (fun r => String.eqb (sandboxId r) sid) (sandboxes db) = Some s) :
  updateSandboxStatus now sid st u db =
  (Returns (_id s),
   mkDb (map (fun r =>
                if Nat.eqb (_id r) (_id s)
                then mkSandbox (_id r) (userId r) (projectId r) (sandboxId r)
                       (name r) u st (startedAt r) now (autoStopAt r)
                       (isTemporary r)
                else r)
           (sandboxes db))
        (fileSnapshots db) (chatHistory db) (next_id db)) /\
  exists s', Store.get (snd (updateSandboxStatus now sid st u db)) (_id s) = Some s' /\
             url s' = u.
Proof.
  rewrite (updateSandboxStatus_found now sid st u db s Hfound). split.
  - reflexivity.
  - unfold Store.get; simpl. rewrite find_id_patched.
    destruct (find_some_id sid _ s Hfound) as [r ->]. eexists.
    split; reflexivity.
Qed.

Lemma C9_status_update_overwrites_url_witness :
  exists s', Store.get (snd (updateSandboxStatus 7000 "sbx-1" stopped None Samples.db_mixed))
               0%nat = Some s' /\
             url s' = None.
Proof.
  exact (proj2 (C9_status_update_overwrites_url 7000 "sbx-1" stopped None
                  Samples.db_mixed _ eq_refl)).
Defined.

(** * Properties of the git helpers *)

Import JsString Regex GitUtils.

Section StringFacts.

Lemma append_assoc (a b c : string) : ((a ++ b) ++ c = a ++ (b ++ c))%string.
Proof. induction a as [|x a IH]; simpl; [reflexivity | now rewrite IH]. Qed.

Lemma length_append (a b : string) :
  String.length (a ++ b) = (String.length a + String.length b)%nat.
Proof. induction a as [|x a IH]; simpl; [reflexivity | now rewrite IH]. Qed.

Lemma drop_app (a b : string) : drop (String.length a) (a ++ b) = b.
Proof. induction a as [|x a IH]; simpl; [reflexivity | exact IH]. Qed.

Lemma substring_prefix (a b : string) :
  substring 0 (String.length a) (a ++ b) = a.
Proof.
  induction a as [|x a IH]; simpl.
  - destruct b; reflexivity.
  - now rewrite IH.
Qed.

Lemma strip_prefix_app (p s : string) : strip_prefix p (p ++ s) = Some s.
Proof.
  induction p as [|x p IH]; simpl; [reflexivity|].
  rewrite Ascii.eqb_refl. exact IH.
Qed.

Lemma strip_prefix_cons (a b : ascii) (p s : string) :
  strip_prefix (String a p) (String b s) =
  if Ascii.eqb a b then strip_prefix p s else None.
Proof. reflexivity. Qed.

Lemma endsWith_cons (a : ascii) (s suffix : string) :
  endsWith (String a s) suffix =
  (String.eqb (String a s) suffix || endsWith s suffix).
Proof. reflexivity. Qed.

Lemma endsWith_refl (s : string) : endsWith s s = true.
Proof. destruct s; simpl; rewrite ?Ascii.eqb_refl, ?String.eqb_refl; reflexivity. Qed.

Lemma endsWith_app (p suffix : string) : endsWith (p ++ suffix) suffix = true.
Proof.
  induction p as [|x p IH]; simpl append.
  - apply endsWith_refl.
  - rewrite endsWith_cons, IH. apply orb_true_r.
Qed.

Lemma slice_app (p suffix : string) :
  slice_to_minus (String.length suffix) (p ++ suffix) = p.
Proof.
  unfold slice_to_minus. rewrite length_append.
  replace (String.length p + String.length suffix - String.length suffix)%nat
    with (String.length p) by lia.
  apply substring_prefix.
Qed.

Lemma all_chars_slash (p : ascii -> bool) (x y : string) :
  p "/"%char = false -> all_chars p (x ++ String "/" y) = false.
Proof.
  intros H. induction x as [|a x IH]; simpl.
  - now rewrite H.
  - rewrite IH. apply andb_false_r.
Qed.

Lemma slash_differs (x y : string) :
  String.eqb (x ++ String "/" y) ".git" = false.
Proof.
  destruct (String.eqb_spec (x ++ String "/" y) ".git") as [E|]; [|reflexivity].
  pose proof (all_chars_slash (fun a => negb (Ascii.eqb a "/")) x y eq_refl) as H.
  rewrite E in H. discriminate.
Qed.

(** Whether an address ends in [.git] is decided after its last slash. *)
Lemma endsWith_after_slash (pre n : string) :
  endsWith (pre ++ String "/" n) ".git" = endsWith n ".git".
Proof.
  induction pre as [|a pre IH]; simpl append.
  - rewrite endsWith_cons. reflexivity.
  - rewrite endsWith_cons, IH.
    change (String a (pre ++ String "/" n)) with ((String a pre) ++ String "/" n)%string.
    rewrite slash_differs. reflexivity.
Qed.

End StringFacts.

Section TrimFacts.

Lemma strip_prefix_length (p s r : string) :
  strip_prefix p s = Some r ->
  String.length s = (String.length p + String.length r)%nat.
Proof.
  revert s. induction p as [|a p IH]; intros s H; simpl in H.
  - injection H as <-. reflexivity.
  - destruct s as [|b s]; [discriminate|].
    destruct (Ascii.eqb a b); [|discriminate].
    simpl. f_equal. apply IH. exact H.
Qed.

Lemma strip_any_shorter (prefixes : list string) (s r : string) :
  Forall (fun p => p <> EmptyString) prefixes ->
  JsText.strip_any prefixes s = Some r ->
  (String.length r < String.length s)%nat.
Proof.
  induction 1 as [|p rest Hp _ IH]; simpl; intros H; [discriminate|].
  destruct (strip_prefix p s) as [r'|] eqn:E.
  - injection H as <-. apply strip_prefix_length in E.
    destruct p; [contradiction|]. simpl in E. lia.
  - apply IH. exact H.
Qed.

(** The fuel is enough: what [strip_all] gives starts with none of the
    prefixes. *)
Lemma strip_all_done (prefixes : list string) (fuel : nat) (s : string) :
  Forall (fun p => p <> EmptyString) prefixes ->
  (String.length s <= fuel)%nat ->
  JsText.strip_any prefixes (JsText.strip_all fuel prefixes s) = None.
Proof.
  intros Hp. revert s. induction fuel as [|fuel IH]; intros s Hlen; simpl.
  - destruct (JsText.strip_any prefixes s) as [r|] eqn:E; [|reflexivity].
    apply (strip_any_shorter _ _ _ Hp) in E. lia.
  - destruct (JsText.strip_any prefixes s) as [r|] eqn:E; [|exact E].
    apply IH. apply (strip_any_shorter _ _ _ Hp) in E. lia.
Qed.

Lemma white_space_nonempty :
  Forall (fun p => p <> EmptyString) JsText.white_space.
Proof. repeat constructor; discriminate. Qed.

(** After [trim_start] no white space is left at the start. *)
Lemma trim_start_done (s : string) :
  JsText.strip_any JsText.white_space (JsText.trim_start s) = None.
Proof.
  apply strip_all_done; [exact white_space_nonempty | apply Nat.le_refl].
Qed.

End TrimFacts.

Section RegexFacts.

Lemma run_length_app (c : CharSet) (pfx rest : string) :
  all_chars (in_class c) pfx = true ->
  starts_outside c rest = true ->
  run_length c (pfx ++ rest) = String.length pfx.
Proof.
  intros Hp Hr. induction pfx as [|a pfx IH]; simpl in *.
  - destruct rest as [|b rest]; simpl in *; [reflexivity|].
    apply negb_true_iff in Hr. now rewrite Hr.
  - apply andb_true_iff in Hp. destruct Hp as [Ha Hp].
    rewrite Ha, (IH Hp). reflexivity.
Qed.

(** A captured run that can take its longest extent takes it. *)
Lemma group_many1_longest (c : CharSet) (pfx rest : string) (caps r : Captures)
    (k : Cont) :
  pfx <> EmptyString ->
  all_chars (in_class c) pfx = true ->
  starts_outside c rest = true ->
  k rest (caps ++ [pfx])%list = Some r ->
  matches (Group (Many1 c)) (pfx ++ rest) caps k = Some r.
Proof.
  intros Hne Hp Hr Hk. simpl. rewrite (run_length_app c pfx rest Hp Hr).
  destruct pfx as [|a pfx]; [congruence|].
  set (p := String a pfx) in *.
  change (String.length p) with (S (String.length pfx)).
  unfold try_lengths; fold try_lengths.
  change (S (String.length pfx)) with (String.length p).
  rewrite drop_app, length_append.
  replace (String.length p + String.length rest - String.length rest)%nat
    with (String.length p) by lia.
  rewrite substring_prefix, Hk. reflexivity.
Qed.

Lemma search_cons (r : Re) (a : ascii) (s : string) :
  search r (String a s) =
  match matches r (String a s) [] accept with
  | Some caps => Some caps
  | None => search r s
  end.
Proof. reflexivity. Qed.

Lemma search_here (r : Re) (s : string) (caps : Captures) :
  matches r s [] accept = Some caps -> search r s = Some caps.
Proof. intros H. destruct s; simpl; rewrite H; reflexivity. Qed.

End RegexFacts.

Section ParseFacts.

Lemma append_nil_r (s : string) : (s ++ "")%string = s.
Proof. induction s as [|a s IH]; simpl; [reflexivity | now rewrite IH]. Qed.

Lemma matches_seq (a b : Re) s caps k :
  matches (Seq a b) s caps k =
  matches a s caps (fun s' caps' => matches b s' caps' k).
Proof. reflexivity. Qed.

Lemma matches_lit (l : string) s caps k :
  matches (Lit l) s caps k =
  match strip_prefix l s with Some s' => k s' caps | None => None end.
Proof. reflexivity. Qed.

Lemma valid_owner_inv (o : string) :
  valid_owner o = true ->
  o <> EmptyString /\ all_chars (in_class (NoneOf ["/"%char])) o = true.
Proof.
  unfold valid_owner. intros H. apply andb_true_iff in H. destruct H as [H1 H2].
  split; [|exact H2]. intros ->. discriminate.
Qed.

Lemma valid_name_inv (n : string) :
  valid_name n = true ->
  n <> EmptyString /\
  all_chars (in_class (NoneOf ["/"%char; "?"%char])) n = true.
Proof.
  unfold valid_name. intros H. apply andb_true_iff in H. destruct H as [H1 H2].
  split; [|exact H2]. intros ->. discriminate.
Qed.

(** Owner, slash, name: the tail of both patterns captures the two. *)
Lemma matches_repo_tail (o n : string) (caps : Captures) :
  valid_owner o = true -> valid_name n = true ->
  matches repo_tail (o ++ String "/" n) caps accept = Some (caps ++ [o; n])%list.
Proof.
  intros Ho Hn.
  destruct (valid_owner_inv o Ho) as [Ho1 Ho2].
  destruct (valid_name_inv n Hn) as [Hn1 Hn2].
  unfold repo_tail. rewrite matches_seq.
  apply group_many1_longest; [exact Ho1 | exact Ho2 | reflexivity |].
  rewrite matches_seq, matches_lit. simpl strip_prefix.
  rewrite <- (append_nil_r n) at 1.
  apply group_many1_longest; [exact Hn1 | exact Hn2 | reflexivity |].
  unfold accept. rewrite <- app_assoc. reflexivity.
Qed.

Lemma search_repo (pre o n : string) :
  valid_owner o = true -> valid_name n = true ->
  search (repo_pattern pre) (pre ++ o ++ String "/" n) = Some [o; n].
Proof.
  intros Ho Hn. apply search_here.
  unfold repo_pattern. rewrite matches_seq, matches_lit, strip_prefix_app.
  apply (matches_repo_tail o n [] Ho Hn).
Qed.

End ParseFacts.

(** Where the patterns do not match. *)
Section NoMatch.

Lemma count_char_app (c : ascii) (a b : string) :
  count_char c (a ++ b) = (count_char c a + count_char c b)%nat.
Proof. induction a as [|x a IH]; simpl; [reflexivity | rewrite IH; lia]. Qed.

Lemma strip_prefix_count (c : ascii) (p s r : string) :
  strip_prefix p s = Some r -> (count_char c p <= count_char c s)%nat.
Proof.
  revert s. induction p as [|x p IH]; intros s H; simpl in *; [lia|].
  destruct s as [|y s]; [discriminate|].
  destruct (Ascii.eqb_spec x y) as [->|]; [|discriminate].
  apply IH in H. simpl. lia.
Qed.

(** A literal with more slashes than the input has is nowhere in it. *)
Lemma search_few_slashes (pre s : string) :
  (count_char "/" s < count_char "/" pre)%nat ->
  search (repo_pattern pre) s = None.
Proof.
  induction s as [|a s IH]; intros H.
  - simpl. destruct (strip_prefix pre "") eqn:E; [|reflexivity].
    apply (strip_prefix_count "/") in E. simpl in *. lia.
  - unfold search; fold search. unfold repo_pattern at 1.
    rewrite matches_seq, matches_lit.
    destruct (strip_prefix pre (String a s)) eqn:E.
    + apply (strip_prefix_count "/") in E. lia.
    + apply IH. simpl in H. lia.
Qed.

Lemma no_slash_count (p : ascii -> bool) (s : string) :
  p "/"%char = false -> all_chars p s = true -> count_char "/" s = O.
Proof.
  intros Hp. induction s as [|a s IH]; simpl; intros H; [reflexivity|].
  apply andb_true_iff in H. destruct H as [Ha Hs].
  destruct (Ascii.eqb_spec a "/") as [->|]; [congruence|].
  rewrite (IH Hs). reflexivity.
Qed.

(** Every cut of [w/] inside [w] is again a run without slash, then
    the slash. *)
Lemma drop_keeps_shape (w : string) (j : nat) :
  all_chars (in_class (NoneOf ["/"%char])) w = true ->
  (j <= String.length w)%nat ->
  exists w2, drop j (w ++ String "/" "") = (w2 ++ String "/" "")%string /\
             all_chars (in_class (NoneOf ["/"%char])) w2 = true.
Proof.
  revert j. induction w as [|a w IH]; intros j Hw Hj; simpl in *.
  - assert (j = O) by lia. subst. exists EmptyString. split; reflexivity.
  - apply andb_true_iff in Hw. destruct Hw as [Ha Hw].
    destruct j as [|j]; simpl.
    + exists (String a w). split; [reflexivity|]. simpl. now rewrite Ha, Hw.
    + apply IH; [exact Hw | lia].
Qed.

Lemma try_lengths_none (n : nat) (s : string) (caps : Captures) (k : Cont) :
  (forall j, (j <= n)%nat -> k (drop j s) caps = None) ->
  try_lengths n s caps k = None.
Proof.
  induction n as [|n IH]; intros H; simpl; [reflexivity|].
  change (match s with
          | EmptyString => EmptyString
          | String _ s' => drop n s'
          end) with (drop (S n) s).
  rewrite (H (S n)) by lia. apply IH. intros j Hj. apply H. lia.
Qed.

(** Without a name after the slash the tail of the patterns fails. *)
Lemma repo_tail_needs_name (w : string) (caps : Captures) :
  all_chars (in_class (NoneOf ["/"%char])) w = true ->
  matches repo_tail (w ++ String "/" "") caps accept = None.
Proof.
  intros Hw. unfold repo_tail. rewrite matches_seq.
  change (matches (Group (Many1 (NoneOf ["/"%char]))) (w ++ String "/" "") caps
            (fun s' caps' =>
               matches (Seq (Lit "/") (Group (Many1 (NoneOf ["/"%char; "?"%char]))))
                 s' caps' accept))
    with (try_lengths (run_length (NoneOf ["/"%char]) (w ++ String "/" ""))
            (w ++ String "/" "") caps
            (fun s' caps' =>
               matches (Seq (Lit "/") (Group (Many1 (NoneOf ["/"%char; "?"%char]))))
                 s'
                 (caps' ++ [substring 0
                              (String.length (w ++ String "/" "") - String.length s')%nat
                              (w ++ String "/" "")])%list
                 accept)).
  rewrite (run_length_app _ w (String "/" "") Hw eq_refl).
  apply try_lengths_none. intros j Hj.
  destruct (drop_keeps_shape w j Hw Hj) as [w2 [-> Hw2]].
  rewrite matches_seq, matches_lit.
  destruct w2 as [|b w2].
  - reflexivity.
  - simpl in Hw2. apply andb_true_iff in Hw2. destruct Hw2 as [Hb _].
    unfold in_class in Hb. simpl in Hb. rewrite orb_false_r in Hb.
    apply negb_true_iff in Hb. cbn [append].
    rewrite strip_prefix_cons, Ascii.eqb_sym, Hb. reflexivity.
Qed.

Lemma repo_tail_empty (caps : Captures) :
  matches repo_tail EmptyString caps accept = None.
Proof. reflexivity. Qed.

(** What a literal leaves of [w/] is a cut of it. *)
Lemma strip_prefix_keeps_shape (pre w rest : string) :
  all_chars (in_class (NoneOf ["/"%char])) w = true ->
  strip_prefix pre (w ++ String "/" "") = Some rest ->
  rest = EmptyString \/
  exists w2, rest = (w2 ++ String "/" "")%string /\
             all_chars (in_class (NoneOf ["/"%char])) w2 = true.
Proof.
  revert pre. induction w as [|a w IH]; intros pre Hw H.
  - destruct pre as [|x pre]; simpl in H.
    + injection H as <-. right. exists EmptyString. split; reflexivity.
    + destruct (Ascii.eqb x "/"); [|discriminate].
      destruct pre; simpl in H; [|discriminate].
      injection H as <-. left. reflexivity.
  - simpl in Hw. apply andb_true_iff in Hw. destruct Hw as [Ha Hw].
    destruct pre as [|x pre].
    + simpl in H. injection H as <-. right. exists (String a w).
      split; [reflexivity|]. simpl. now rewrite Ha, Hw.
    + simpl in H. destruct (Ascii.eqb x a); [|discriminate].
      apply (IH pre Hw H).
Qed.

Lemma matches_repo_pattern_none (pre w : string) :
  all_chars (in_class (NoneOf ["/"%char])) w = true ->
  matches (repo_pattern pre) (w ++ String "/" "") [] accept = None.
Proof.
  intros Hw. unfold repo_pattern. rewrite matches_seq, matches_lit.
  destruct (strip_prefix pre (w ++ String "/" "")) as [rest|] eqn:E; [|reflexivity].
  destruct (strip_prefix_keeps_shape pre w rest Hw E) as [->|[w2 [-> Hw2]]].
  - apply repo_tail_empty.
  - apply repo_tail_needs_name. exact Hw2.
Qed.

(** Neither pattern matches anywhere in [w/]. *)
Lemma search_needs_name (pre w : string) :
  all_chars (in_class (NoneOf ["/"%char])) w = true ->
  search (repo_pattern pre) (w ++ String "/" "") = None.
Proof.
  induction w as [|a w IH]; intros Hw.
  - pose proof (matches_repo_pattern_none pre EmptyString Hw) as H0.
    cbn [append] in *. unfold search. rewrite H0.
    unfold repo_pattern. rewrite matches_seq, matches_lit.
    destruct (strip_prefix pre "") eqn:E; [|reflexivity].
    destruct pre; simpl in E; [|discriminate]. injection E as <-. reflexivity.
  - pose proof (matches_repo_pattern_none pre (String a w) Hw) as H0.
    cbn [append] in *. rewrite search_cons, H0.
    simpl in Hw. apply andb_true_iff in Hw. destruct Hw as [_ Hw].
    apply IH. exact Hw.
Qed.

End NoMatch.

Section ThroughLiteral.

Lemma clash_no_prefix (p l x : string) :
  clash p l = true -> strip_prefix p (l ++ x) = None.
Proof.
  revert l. induction p as [|a p IH]; intros l H; [discriminate|].
  destruct l as [|b l]; [discriminate|].
  cbn [append]. rewrite strip_prefix_cons. simpl in H.
  destruct (Ascii.eqb a b); [apply IH; exact H | reflexivity].
Qed.

(** A pattern whose literal clashes all along [lit] does not match in
    [lit ++ w ++ "/"]. *)
Lemma search_through_literal (pre lit w : string) :
  clear_inside pre lit = true ->
  all_chars (in_class (NoneOf ["/"%char])) w = true ->
  search (repo_pattern pre) (lit ++ w ++ String "/" "") = None.
Proof.
  intros Hc Hw. induction lit as [|a lit IH].
  - apply search_needs_name. exact Hw.
  - simpl in Hc. apply andb_true_iff in Hc. destruct Hc as [Hc1 Hc2].
    cbn [append]. rewrite search_cons. unfold repo_pattern at 1.
    rewrite matches_seq, matches_lit.
    change (String a (lit ++ w ++ String "/" ""))
      with (String a lit ++ (w ++ String "/" ""))%string.
    rewrite (clash_no_prefix pre (String a lit) _ Hc1).
    apply IH. exact Hc2.
Qed.

(** Nor does a pattern match in its own literal followed by [w/]. *)
Lemma search_own_literal (a : ascii) (lit w : string) :
  clear_inside (String a lit) lit = true ->
  all_chars (in_class (NoneOf ["/"%char])) w = true ->
  search (repo_pattern (String a lit)) (String a lit ++ w ++ String "/" "") = None.
Proof.
  intros Hc Hw.
  change (String a lit ++ w ++ String "/" "")%string
    with (String a (lit ++ w ++ String "/" "")).
  rewrite search_cons. unfold repo_pattern at 1.
  rewrite matches_seq, matches_lit.
  change (String a (lit ++ w ++ String "/" ""))
    with (String a lit ++ (w ++ String "/" ""))%string.
  rewrite strip_prefix_app, (repo_tail_needs_name w [] Hw).
  apply search_through_literal; assumption.
Qed.

End ThroughLiteral.

Section ParseGitUrl.

Lemma endsWith_split (s suffix : string) :
  endsWith s suffix = true -> exists p, s = (p ++ suffix)%string.
Proof.
  induction s as [|a s IH]; intros H.
  - exists EmptyString. destruct suffix; [reflexivity | discriminate].
  - rewrite endsWith_cons in H. apply orb_true_iff in H. destruct H as [H|H].
    + apply String.eqb_eq in H. exists EmptyString. exact H.
    + destruct (IH H) as [p ->]. exists (String a p). reflexivity.
Qed.

Lemma all_chars_app (p : ascii -> bool) (a b : string) :
  all_chars p (a ++ b) = all_chars p a && all_chars p b.
Proof.
  induction a as [|x a IH]; simpl; [reflexivity|].
  rewrite IH. apply andb_assoc.
Qed.

Lemma slashes_of_ssh_form (o n : string) :
  all_chars (in_class (NoneOf ["/"%char])) o = true ->
  all_chars (in_class (NoneOf ["/"%char; "?"%char])) n = true ->
  count_char "/" (ssh_form o n) = 1%nat.
Proof.
  intros Ho Hn. unfold ssh_form.
  rewrite !count_char_app.
  rewrite (no_slash_count _ o eq_refl Ho), (no_slash_count _ n eq_refl Hn).
  reflexivity.
Qed.

(** On an address without suffix the patterns capture owner and name;
    the HTTPS pattern finds nothing in the SSH form. *)
Lemma search_https_form (o n : string) :
  valid_owner o = true -> valid_name n = true ->
  search httpsPattern (https_form o n) = Some [o; n].
Proof. intros Ho Hn. exact (search_repo "https://github.com/" o n Ho Hn). Qed.

Lemma search_ssh_form (o n : string) :
  valid_owner o = true -> valid_name n = true ->
  search sshPattern (ssh_form o n) = Some [o; n].
Proof. intros Ho Hn. exact (search_repo "git@github.com:" o n Ho Hn). Qed.

Lemma search_https_in_ssh_form (o n : string) :
  all_chars (in_class (NoneOf ["/"%char])) o = true ->
  all_chars (in_class (NoneOf ["/"%char; "?"%char])) n = true ->
  search httpsPattern (ssh_form o n) = None.
Proof.
  intros Ho Hn.
  apply (search_few_slashes "https://github.com/").
  rewrite (slashes_of_ssh_form o n Ho Hn). simpl. lia.
Qed.

(** [parseGitUrl] on an address that carries the suffix. *)
Lemma parseGitUrl_suffixed (u : string) :
  parseGitUrl (u ++ ".git") =
  match search httpsPattern u with
  | Some m => repo_of_match (u ++ ".git") (Some m)
  | None =>
      match search sshPattern u with
      | Some m => repo_of_match (u ++ ".git") (Some m)
      | None => None
      end
  end.
Proof.
  unfold parseGitUrl. rewrite endsWith_app.
  change 4%nat with (String.length ".git"). rewrite slice_app. reflexivity.
Qed.

(** [parseGitUrl] on an address that does not end in the suffix. *)
Lemma parseGitUrl_plain (u : string) :
  endsWith u ".git" = false ->
  parseGitUrl u =
  match search httpsPattern u with
  | Some m => repo_of_match u (Some m)
  | None =>
      match search sshPattern u with
      | Some m => repo_of_match u (Some m)
      | None => None
      end
  end.
Proof. intros H. unfold parseGitUrl. rewrite H. reflexivity. Qed.

Lemma https_form_suffix (o n : string) :
  endsWith (https_form o n) ".git" = endsWith n ".git".
Proof.
  unfold https_form. change ("/" ++ n)%string with (String "/" n).
  rewrite <- append_assoc. apply endsWith_after_slash.
Qed.

Lemma ssh_form_suffix (o n : string) :
  endsWith (ssh_form o n) ".git" = endsWith n ".git".
Proof.
  unfold ssh_form. change ("/" ++ n)%string with (String "/" n).
  rewrite <- append_assoc. apply endsWith_after_slash.
Qed.

Lemma https_form_app (o n x : string) :
  https_form o (n ++ x) = (https_form o n ++ x)%string.
Proof. unfold https_form. now rewrite !append_assoc. Qed.

Lemma ssh_form_app (o n x : string) :
  ssh_form o (n ++ x) = (ssh_form o n ++ x)%string.
Proof. unfold ssh_form. now rewrite !append_assoc. Qed.

Lemma parse_https_suffixed (o n : string) :
  valid_owner o = true -> valid_name n = true ->
  owner_name (parseGitUrl (https_form o n ++ ".git")) = Some (o, n).
Proof.
  intros Ho Hn.
  rewrite parseGitUrl_suffixed, (search_https_form o n Ho Hn). reflexivity.
Qed.

Lemma parse_ssh_suffixed (o n : string) :
  valid_owner o = true -> valid_name n = true ->
  owner_name (parseGitUrl (ssh_form o n ++ ".git")) = Some (o, n).
Proof.
  intros Ho Hn.
  destruct (valid_owner_inv o Ho) as [_ Ho2].
  destruct (valid_name_inv n Hn) as [_ Hn2].
  rewrite parseGitUrl_suffixed, (search_https_in_ssh_form o n Ho2 Hn2),
    (search_ssh_form o n Ho Hn).
  reflexivity.
Qed.

Lemma parse_https_plain (o n : string) :
  valid_owner o = true -> valid_name n = true -> endsWith n ".git" = false ->
  owner_name (parseGitUrl (https_form o n)) = Some (o, n).
Proof.
  intros Ho Hn Hs.
  rewrite parseGitUrl_plain by (rewrite https_form_suffix; exact Hs).
  rewrite (search_https_form o n Ho Hn). reflexivity.
Qed.

Lemma parse_ssh_plain (o n : string) :
  valid_owner o = true -> valid_name n = true -> endsWith n ".git" = false ->
  owner_name (parseGitUrl (ssh_form o n)) = Some (o, n).
Proof.
  intros Ho Hn Hs.
  destruct (valid_owner_inv o Ho) as [_ Ho2].
  destruct (valid_name_inv n Hn) as [_ Hn2].
  rewrite parseGitUrl_plain by (rewrite ssh_form_suffix; exact Hs).
  rewrite (search_https_in_ssh_form o n Ho2 Hn2), (search_ssh_form o n Ho Hn).
  reflexivity.
Qed.

(** An address that is nothing but owner, slash and suffix has no name. *)
Lemma parse_no_name (o : string) :
  valid_owner o = true ->
  parseGitUrl (https_form o "" ++ ".git") = None /\
  parseGitUrl (ssh_form o "" ++ ".git") = None.
Proof.
  intros Ho. destruct (valid_owner_inv o Ho) as [_ Ho2].
  assert (H1 : search httpsPattern (https_form o "") = None)
    by exact (search_own_literal "h" "ttps://github.com/" o eq_refl Ho2).
  assert (H2 : search sshPattern (https_form o "") = None)
    by exact (search_through_literal "git@github.com:" "https://github.com/" o
                eq_refl Ho2).
  assert (H3 : search sshPattern (ssh_form o "") = None)
    by exact (search_own_literal "g" "it@github.com:" o eq_refl Ho2).
  rewrite !parseGitUrl_suffixed, H1, H2, H3.
  rewrite (search_https_in_ssh_form o "" Ho2 eq_refl).
  split; reflexivity.
Qed.

End ParseGitUrl.


Section ValidAddresses.

(** A run that is not captured, on its longest extent. *)
Lemma many1_longest (c : CharSet) (pfx rest : string) (caps r : Captures)
    (k : Cont) :
  pfx <> EmptyString ->
  all_chars (in_class c) pfx = true ->
  starts_outside c rest = true ->
  k rest caps = Some r ->
  matches (Many1 c) (pfx ++ rest) caps k = Some r.
Proof.
  intros Hne Hp Hr Hk. simpl. rewrite (run_length_app c pfx rest Hp Hr).
  destruct pfx as [|a pfx]; [congruence|].
  set (p := String a pfx) in *.
  change (String.length p) with (S (String.length pfx)).
  unfold try_lengths; fold try_lengths.
  change (S (String.length pfx)) with (String.length p).
  rewrite drop_app, Hk. reflexivity.
Qed.

(** Owner, slash, name and the end of the input: what either branch of
    the validation pattern asks for after its literal. *)
Lemma matches_owner_name_end (o n : string) (caps : Captures) (k : Cont) r :
  valid_owner o = true -> valid_name n = true ->
  k EmptyString caps = Some r ->
  matches (Seq (Many1 (NoneOf ["/"%char]))
             (Seq (Lit "/") (Many1 (NoneOf ["/"%char; "?"%char]))))
    (o ++ String "/" n) caps k = Some r.
Proof.
  intros Ho Hn Hk.
  destruct (valid_owner_inv o Ho) as [Ho1 Ho2].
  destruct (valid_name_inv n Hn) as [Hn1 Hn2].
  rewrite matches_seq.
  apply many1_longest; [exact Ho1 | exact Ho2 | reflexivity |].
  rewrite matches_seq, matches_lit. simpl strip_prefix.
  rewrite <- (append_nil_r n) at 1.
  apply many1_longest; [exact Hn1 | exact Hn2 | reflexivity | exact Hk].
Qed.

Lemma matches_alt (a b : Re) s caps k :
  matches (Alt a b) s caps k =
  match matches a s caps k with
  | Some res => Some res
  | None => matches b s caps k
  end.
Proof. reflexivity. Qed.

Lemma matches_group (a : Re) s caps k :
  matches (Group a) s caps k =
  matches a s caps
    (fun s' caps' =>
       k s' (caps' ++ [substring 0 (String.length s - String.length s')%nat s])%list).
Proof. reflexivity. Qed.

(** Both spellings pass the validation pattern. *)
Lemma isValidGitUrl_forms (o n : string) :
  valid_owner o = true -> valid_name n = true ->
  isValidGitUrl (https_form o n) = true /\ isValidGitUrl (ssh_form o n) = true.
Proof.
  intros Ho Hn. unfold isValidGitUrl, match_at_start, gitUrlPattern. split.
  - rewrite matches_seq, matches_group, matches_alt.
    rewrite matches_seq, matches_lit. unfold https_form at 1.
    rewrite strip_prefix_app.
    change ("/" ++ n)%string with (String "/" n).
    erewrite (matches_owner_name_end o n); [reflexivity | exact Ho | exact Hn |].
    reflexivity.
  - rewrite matches_seq, matches_group, matches_alt.
    rewrite matches_seq, matches_lit. unfold ssh_form at 1.
    change (strip_prefix "https://github.com/" ("git@github.com:" ++ o ++ "/" ++ n))
      with (@None string).
    rewrite matches_seq, matches_lit. unfold ssh_form at 1.
    rewrite strip_prefix_app.
    change ("/" ++ n)%string with (String "/" n).
    erewrite (matches_owner_name_end o n); [reflexivity | exact Ho | exact Hn |].
    reflexivity.
Qed.

End ValidAddresses.

Lemma valid_name_suffixed (n : string) :
  valid_name n = true -> valid_name (n ++ ".git") = true.
Proof.
  intros Hn. destruct (valid_name_inv n Hn) as [Hn1 Hn2].
  unfold valid_name. rewrite all_chars_app, Hn2.
  destruct n; [congruence | reflexivity].
Qed.

(** C8, as stated, fails for addresses that [isValidGitUrl] accepts:
    when the name itself ends in [.git], the address with a further
    suffix gives another name than the address without, and the address
    whose name is [.git] alone gives no repository at all. *)
Lemma C8_counterexample :
  (isValidGitUrl "https://github.com/acme/widgets.git" = true /\
   isValidGitUrl "https://github.com/acme/widgets.git.git" = true /\
   owner_name (parseGitUrl "https://github.com/acme/widgets.git")
   = Some ("acme", "widgets") /\
   owner_name (parseGitUrl "https://github.com/acme/widgets.git.git")
   = Some ("acme", "widgets.git")) /\
  (isValidGitUrl "https://github.com/acme/.git" = true /\
   isValidGitUrl "git@github.com:acme/.git" = true /\
   parseGitUrl "https://github.com/acme/.git" = None /\
   parseGitUrl "git@github.com:acme/.git" = None) /\
  ~ (forall u, isValidGitUrl u = true ->
               owner_name (parseGitUrl u) <> None /\
               owner_name (parseGitUrl (u ++ ".git")) = owner_name (parseGitUrl u)).
Proof.
  split; [repeat split | split; [repeat split|]].
  intros H.
  destruct (H "https://github.com/acme/widgets.git" eq_refl) as [_ E].
  vm_compute in E. discriminate E.
Qed.

(** C8, amended: for an owner and a repository name as the patterns read
    them, the HTTPS and the SSH spelling, with or without the suffix
    [.git], are addresses that [isValidGitUrl] accepts, and [parseGitUrl]
    reads the two spellings alike.  It drops one trailing [.git] before
    it matches: with the suffix appended both spellings give exactly that
    owner and name; without it they give that owner and name when the
    name does not itself end in [.git]; a name [n'.git] is read as [n'];
    and the name [.git] alone leaves nothing, so no repository is found. *)
Theorem C8_parseGitUrl_forms (o n : string)
    (Ho : valid_owner o = true) (Hn : valid_name n = true) :
  (isValidGitUrl (https_form o n) = true /\
   isValidGitUrl (ssh_form o n) = true /\
   isValidGitUrl (https_form o n ++ ".git") = true /\
   isValidGitUrl (ssh_form o n ++ ".git") = true) /\
  owner_name (parseGitUrl (https_form o n ++ ".git")) = Some (o, n) /\
  owner_name (parseGitUrl (ssh_form o n ++ ".git")) = Some (o, n) /\
  (endsWith n ".git" = false ->
   owner_name (parseGitUrl (https_form o n)) = Some (o, n) /\
   owner_name (parseGitUrl (ssh_form o n)) = Some (o, n)) /\
  (forall n', n = (n' ++ ".git")%string -> n' <> EmptyString ->
   owner_name (parseGitUrl (https_form o n)) = Some (o, n') /\
   owner_name (parseGitUrl (ssh_form o n)) = Some (o, n')) /\
  (n = ".git" ->
   parseGitUrl (https_form o n) = None /\ parseGitUrl (ssh_form o n) = None) /\
  (endsWith n ".git" = false \/
   (exists n', n = (n' ++ ".git")%string /\ n' <> EmptyString) \/
   n = ".git").
Proof.
  split; [|split; [|split; [|split; [|split; [|split]]]]].
  - destruct (isValidGitUrl_forms o n Ho Hn) as [H1 H2].
    destruct (isValidGitUrl_forms o _ Ho (valid_name_suffixed n Hn)) as [H3 H4].
    rewrite https_form_app in H3. rewrite ssh_form_app in H4.
    repeat split; assumption.
  - apply parse_https_suffixed; assumption.
  - apply parse_ssh_suffixed; assumption.
  - intros Hs. split.
    + apply parse_https_plain; assumption.
    + apply parse_ssh_plain; assumption.
  - intros n' -> Hne.
    assert (Hn' : valid_name n' = true).
    { destruct (valid_name_inv _ Hn) as [_ H].
      rewrite all_chars_app in H. apply andb_true_iff in H.
      unfold valid_name. rewrite (proj1 H).
      destruct n'; [contradiction | reflexivity]. }
    rewrite https_form_app, ssh_form_app.
    split; [apply parse_https_suffixed | apply parse_ssh_suffixed]; assumption.
  - intros ->.
    destruct (parse_no_name o Ho) as [H1 H2].
    rewrite <- https_form_app in H1. rewrite <- ssh_form_app in H2.
    split; assumption.
  - destruct (endsWith n ".git") eqn:Hs; [|left; reflexivity].
    right. destruct (endsWith_split n ".git" Hs) as [n' ->].
    destruct n' as [|a n']; [right; reflexivity|].
    left. exists (String a n'). split; [reflexivity | discriminate].
Qed.

Lemma C8_parseGitUrl_forms_witness :
  (owner_name (parseGitUrl "https://github.com/acme/widgets") = Some ("acme", "widgets") /\
   owner_name (parseGitUrl "git@github.com:acme/widgets") = Some ("acme", "widgets") /\
   owner_name (parseGitUrl "https://github.com/acme/widgets.git")
   = Some ("acme", "widgets") /\
   owner_name (parseGitUrl "git@github.com:acme/widgets.git")
   = Some ("acme", "widgets")) /\
  (owner_name (parseGitUrl "git@github.com:acme/widgets.git.git")
   = Some ("acme", "widgets.git") /\
   owner_name (parseGitUrl "git@github.com:acme/widgets.git")
   = Some ("acme", "widgets")).
Proof.
  split.
  - destruct (C8_parseGitUrl_forms "acme" "widgets" eq_refl eq_refl)
      as [_ [H2 [H3 [H4 _]]]].
    destruct (H4 eq_refl) as [H5 H6].
    split; [exact H5 | split; [exact H6 | split; [exact H2 | exact H3]]].
  - destruct (C8_parseGitUrl_forms "acme" "widgets.git" eq_refl eq_refl)
      as [_ [_ [H3 [_ [H5 _]]]]].
    split; [exact H3 | exact (proj2 (H5 "widgets" eq_refl ltac:(discriminate)))].
Defined.

(** * Properties of the clone route *)

Import Interaction.

Section RunFacts.
Context {E : Type -> Type} (env : Env E).

Lemma run_pbind {A B} (p : Prog E A) (k : A -> Prog E B) :
  run env (pbind p k) =
  let '(t1, a) := run env p in
  let '(t2, b) := run env (k a) in
  ((t1 ++ t2)%list, b).
Proof.
  induction p as [a | X e c IH]; simpl.
  - destruct (run env (k a)); reflexivity.
  - rewrite IH. destruct (run env (c (env X e))) as [t1 a].
    destruct (run env (k a)); reflexivity.
Qed.

Lemma run_perform {X} (e : E X) : run env (perform e) = ([call e], env X e).
Proof. reflexivity. Qed.

Lemma run_lift {A} (o : Outcome A) : run env (lift (E := E) o) = ([], o).
Proof. reflexivity. Qed.

Lemma run_ret {A} (a : A) : run env (ret (E := E) a) = ([], Returns a).
Proof. reflexivity. Qed.

Lemma run_bind_returns {A B} (t : Task E A) (k : A -> Task E B) calls a :
  run env t = (calls, Returns a) ->
  run env (bind t k) =
  let '(t2, b) := run env (k a) in ((calls ++ t2)%list, b).
Proof. intros H. unfold bind. rewrite run_pbind, H. reflexivity. Qed.

Lemma run_bind_throws {A B} (t : Task E A) (k : A -> Task E B) calls e :
  run env t = (calls, Throws e) ->
  run env (bind t k) = (calls, Throws e).
Proof.
  intros H. unfold bind. rewrite run_pbind, H. simpl.
  now rewrite app_nil_r.
Qed.

Lemma run_try_returns {A} (t : Task E A) (h : Exn -> Task E A) calls a :
  run env t = (calls, Returns a) ->
  run env (try_catch t h) = (calls, Returns a).
Proof.
  intros H. unfold try_catch. rewrite run_pbind, H. simpl.
  now rewrite app_nil_r.
Qed.

Lemma run_try_throws {A} (t : Task E A) (h : Exn -> Task E A) calls e :
  run env t = (calls, Throws e) ->
  run env (try_catch t h) =
  let '(t2, b) := run env (h e) in ((calls ++ t2)%list, b).
Proof. intros H. unfold try_catch. rewrite run_pbind, H. reflexivity. Qed.

End RunFacts.

Import CloneRoute.

Section CloneFacts.
Variable is_url : string -> bool.
Variable JSON_parse : string -> option Js.value.
Variable env : Env Event.

(** With a manifest the launch step answers with the address of port
    3000, whatever the launch program printed. *)
Lemma run_startDevServer_manifest sb p info v sr host :
  Js.get info "hasPackageJson" = Returns v -> Js.truthy v = true ->
  env _ (RunCode sb (StartScript p)) = Returns sr ->
  env _ (GetHostname sb 3000) = Returns host ->
  run env (startDevServer sb p info) =
  ([call (RunCode sb (StartScript p)); call (GetHostname sb 3000)],
   Returns (Some ("https://" ++ host))).
Proof.
  intros Hget Hv Hsr Hhost.
  unfold startDevServer, try_catch, bind, lift, perform, ret.
  rewrite Hget. cbn. rewrite Hv. cbn. rewrite Hsr. cbn. rewrite Hhost. cbn.
  reflexivity.
Qed.

Lemma run_startDevServer_no_manifest sb p info v :
  Js.get info "hasPackageJson" = Returns v -> Js.truthy v = false ->
  run env (startDevServer sb p info) = ([], Returns None).
Proof.
  intros Hget Hv.
  unfold startDevServer, try_catch, bind, lift, perform, ret.
  rewrite Hget. cbn. rewrite Hv. reflexivity.
Qed.

Lemma run_startDevServer_launch_throws sb p info v e :
  Js.get info "hasPackageJson" = Returns v -> Js.truthy v = true ->
  env _ (RunCode sb (StartScript p)) = Throws e ->
  run env (startDevServer sb p info) =
  ([call (RunCode sb (StartScript p))], Returns None).
Proof.
  intros Hget Hv Hsr.
  unfold startDevServer, try_catch, bind, lift, perform, ret.
  rewrite Hget. cbn. rewrite Hv. cbn. rewrite Hsr. reflexivity.
Qed.


(** The inner block when the inspection does not report success. *)
Lemma run_clone_into_inspection_failed sb d target cr chk v error :
  env _ (RunCode sb (CloneScript (cloneCommand d) (projectName d))) = Returns cr ->
  env _ (RunCode sb (CheckScript (projectName d))) = Returns chk ->
  Js.get (read_project_info JSON_parse chk) "success" = Returns v ->
  Js.truthy v = false ->
  Js.get (read_project_info JSON_parse chk) "error" = Returns error ->
  env _ (Close sb) = Returns tt ->
  run env (clone_into JSON_parse sb d target) =
  ([call (RunCode sb (CloneScript (cloneCommand d) (projectName d)));
    call (RunCode sb (CheckScript (projectName d)));
    call (Close sb)],
   Returns (mkResponse 400
              (ErrorBody (Js.or_else error (Js.str "Failed to clone repository"))
                 None))).
Proof.
  intros Hclone Hcheck Hok Hv Herr Hclose.
  unfold clone_into.
  rewrite (run_bind_returns env _ _ _ cr) by (rewrite run_perform, Hclone; reflexivity).
  rewrite (run_bind_returns env _ _ _ chk) by (rewrite run_perform, Hcheck; reflexivity).
  rewrite (run_bind_returns env _ _ _ v) by (rewrite run_lift, Hok; reflexivity).
  rewrite Hv. cbn [negb].
  rewrite (run_bind_returns env _ _ _ tt) by (rewrite run_perform, Hclose; reflexivity).
  rewrite (run_bind_returns env _ _ _ error) by (rewrite run_lift, Herr; reflexivity).
  rewrite run_ret. reflexivity.
Qed.

Lemma run_clone_into_check_throws sb d target cr e :
  env _ (RunCode sb (CloneScript (cloneCommand d) (projectName d))) = Returns cr ->
  env _ (RunCode sb (CheckScript (projectName d))) = Throws e ->
  run env (clone_into JSON_parse sb d target) =
  ([call (RunCode sb (CloneScript (cloneCommand d) (projectName d)));
    call (RunCode sb (CheckScript (projectName d)))],
   Throws e).
Proof.
  intros Hclone Hcheck.
  unfold clone_into.
  rewrite (run_bind_returns env _ _ _ cr) by (rewrite run_perform, Hclone; reflexivity).
  rewrite (run_bind_throws env _ _ [call (RunCode sb (CheckScript (projectName d)))] e)
    by (rewrite run_perform, Hcheck; reflexivity).
  reflexivity.
Qed.

(** The inner block when the inspection reports success and a manifest. *)
Lemma run_clone_into_manifest sb d target cr chk v w ir sr host :
  env _ (RunCode sb (CloneScript (cloneCommand d) (projectName d))) = Returns cr ->
  env _ (RunCode sb (CheckScript (projectName d))) = Returns chk ->
  Js.get (read_project_info JSON_parse chk) "success" = Returns v ->
  Js.truthy v = true ->
  Js.get (read_project_info JSON_parse chk) "hasPackageJson" = Returns w ->
  Js.truthy w = true ->
  env _ (RunCode sb (InstallScript (projectName d))) = Returns ir ->
  env _ (RunCode sb (StartScript (projectName d))) = Returns sr ->
  env _ (GetHostname sb 3000) = Returns host ->
  run env (clone_into JSON_parse sb d target) =
  ([call (RunCode sb (CloneScript (cloneCommand d) (projectName d)));
    call (RunCode sb (CheckScript (projectName d)));
    call (RunCode sb (InstallScript (projectName d)));
    call (RunCode sb (StartScript (projectName d)));
    call (GetHostname sb 3000)],
   Returns (mkResponse 200
              (SuccessBody target (projectName d)
                 (read_project_info JSON_parse chk)
                 (Some ("https://" ++ host))
                 ("Repository '" ++ gitUrl d ++ "' cloned successfully!")))).
Proof.
  intros Hclone Hcheck Hok Hv Hpkg Hw Hinstall Hstart Hhost.
  unfold clone_into.
  rewrite (run_bind_returns env _ _ _ cr) by (rewrite run_perform, Hclone; reflexivity).
  rewrite (run_bind_returns env _ _ _ chk) by (rewrite run_perform, Hcheck; reflexivity).
  rewrite (run_bind_returns env _ _ _ v) by (rewrite run_lift, Hok; reflexivity).
  rewrite Hv. cbn [negb].
  rewrite (run_bind_returns env _ _ _ w) by (rewrite run_lift, Hpkg; reflexivity).
  rewrite Hw.
  rewrite (run_bind_returns env _ _ [call (RunCode sb (InstallScript (projectName d)))] tt)
    by (rewrite (run_bind_returns env _ _ _ ir)
          by (rewrite run_perform, Hinstall; reflexivity);
        rewrite run_ret; reflexivity).
  rewrite (run_bind_returns env _ _ _ _
             (run_startDevServer_manifest sb _ _ w sr host Hpkg Hw Hstart Hhost)).
  rewrite run_ret. reflexivity.
Qed.

End CloneFacts.

Section PostFacts.
Variable is_url : string -> bool.
Variable JSON_parse : string -> option Js.value.
Variable env : Env Event.

Lemma run_open_sandbox d sb :
  env _ (SandboxCreate (requested_id d) 900000) = Returns (Some sb) ->
  run env (open_sandbox d) =
  ([call (SandboxCreate (requested_id d) 900000)],
   Returns (Some sb, target_id d sb)).
Proof.
  unfold requested_id, target_id, open_sandbox. intros H.
  destruct (given (sandboxId d)).
  - rewrite (run_bind_returns env _ _ _ (Some sb))
      by (rewrite run_perform, H; reflexivity).
    rewrite run_ret. reflexivity.
  - rewrite (run_bind_returns env _ _ _ (Some sb))
      by (rewrite run_perform, H; reflexivity).
    rewrite run_ret. reflexivity.
Qed.

(** The route up to the inner block. *)
Lemma run_POST_opened body d session sb :
  env _ GetSession = Returns (Some session) ->
  cloneSchema_parse is_url body = Returns d ->
  env _ (SandboxCreate (requested_id d) 900000) = Returns (Some sb) ->
  run env (POST is_url JSON_parse (Returns body)) =
  let '(calls, o) :=
    run env (try_catch (clone_into JSON_parse sb d (target_id d sb))
               (fun error =>
                  bind (perform (Close sb)) (fun _ => ret (clone_failed error)))) in
  (call GetSession :: call (SandboxCreate (requested_id d) 900000) :: calls,
   match o with
   | Returns response => response
   | Throws (ZodError issues) =>
       mkResponse 400 (ErrorBody (Js.str "Invalid request data") (Some issues))
   | Throws (Error _) => internal_error
   end).
Proof.
  intros Hs Hparse Hcreate. unfold POST. rewrite run_pbind.
  rewrite (run_bind_returns env _ _ _ (Some session))
    by (rewrite run_perform, Hs; reflexivity).
  rewrite (run_bind_returns env _ _ _ body) by (rewrite run_lift; reflexivity).
  rewrite (run_bind_returns env _ _ _ d) by (rewrite run_lift, Hparse; reflexivity).
  rewrite (run_bind_returns env _ _ _ _ (run_open_sandbox d sb Hcreate)).
  change (fun error : Exn =>
            bind (perform (Close sb))
              (fun _ : unit =>
                 ret (mkResponse 500
                        (ErrorBody
                           (Js.str ("Clone operation failed: " ++ message_of error))
                           None))))
    with (fun error : Exn =>
            bind (perform (Close sb)) (fun _ : unit => ret (E := Event) (clone_failed error))).
  destruct (run env (try_catch _ _)) as [calls o].
  destruct o as [r | [m | issues]];
    cbn [run app]; rewrite ?app_nil_r; reflexivity.
Qed.

Lemma run_POST_returns body d session sb calls response :
  env _ GetSession = Returns (Some session) ->
  cloneSchema_parse is_url body = Returns d ->
  env _ (SandboxCreate (requested_id d) 900000) = Returns (Some sb) ->
  run env (clone_into JSON_parse sb d (target_id d sb)) = (calls, Returns response) ->
  run env (POST is_url JSON_parse (Returns body)) =
  (call GetSession :: call (SandboxCreate (requested_id d) 900000) :: calls,
   response).
Proof.
  intros Hs Hparse Hcreate Hrun.
  rewrite (run_POST_opened body d session sb Hs Hparse Hcreate).
  rewrite (run_try_returns env _ _ _ _ Hrun). reflexivity.
Qed.

Lemma run_POST_throws body d session sb calls e :
  env _ GetSession = Returns (Some session) ->
  cloneSchema_parse is_url body = Returns d ->
  env _ (SandboxCreate (requested_id d) 900000) = Returns (Some sb) ->
  run env (clone_into JSON_parse sb d (target_id d sb)) = (calls, Throws e) ->
  env _ (Close sb) = Returns tt ->
  run env (POST is_url JSON_parse (Returns body)) =
  (call GetSession :: call (SandboxCreate (requested_id d) 900000)
     :: (calls ++ [call (Close sb)])%list,
   clone_failed e).
Proof.
  intros Hs Hparse Hcreate Hrun Hclose.
  rewrite (run_POST_opened body d session sb Hs Hparse Hcreate).
  rewrite (run_try_throws env _ _ _ _ Hrun).
  rewrite (run_bind_returns env _ _ _ tt) by (rewrite run_perform, Hclose; reflexivity).
  rewrite run_ret. reflexivity.
Qed.

(** A body that the schema rejects ends the route after the session
    lookup. *)
Lemma run_POST_rejected body session issues :
  env _ GetSession = Returns (Some session) ->
  cloneSchema_parse is_url body = Throws (ZodError issues) ->
  run env (POST is_url JSON_parse (Returns body)) =
  ([call GetSession],
   mkResponse 400 (ErrorBody (Js.str "Invalid request data") (Some issues))).
Proof.
  intros Hs Hparse. unfold POST. rewrite run_pbind.
  rewrite (run_bind_returns env _ _ _ (Some session))
    by (rewrite run_perform, Hs; reflexivity).
  rewrite (run_bind_returns env _ _ _ body) by (rewrite run_lift; reflexivity).
  rewrite (run_bind_throws env _ _ [] (ZodError issues))
    by (rewrite run_lift, Hparse; reflexivity).
  reflexivity.
Qed.

End PostFacts.

Section Validation.
Variable is_url : string -> bool.
Variable JSON_parse : string -> option Js.value.
Variable env : Env Event.

(** The schema rejects a body whose [gitUrl] is missing, is not a
    string, or fails the URL check. *)
Lemma cloneSchema_rejects_gitUrl (fields : list (string * Js.value)) :
  (forall g, Js.lookup "gitUrl" fields = Js.str g -> is_url g = false) ->
  exists issues,
    cloneSchema_parse is_url (Js.object fields) = Throws (ZodError ("gitUrl" :: issues)).
Proof.
  intros H. unfold cloneSchema_parse.
  assert (E : z_check is_url (z_string (Js.lookup "gitUrl" fields)) = None).
  { destruct (Js.lookup "gitUrl" fields) as [| |b|n|g|l|l] eqn:L; try reflexivity.
    simpl. now rewrite (H g eq_refl). }
  rewrite E. eexists. reflexivity.
Qed.

Lemma run_open_sandbox_null d :
  env _ (SandboxCreate (requested_id d) 900000) = Returns None ->
  run env (open_sandbox d) =
  ([call (SandboxCreate (requested_id d) 900000)],
   if given (sandboxId d) then Returns (None, sandboxId d)
   else Throws (Error "Cannot read properties of null (reading 'id')")).
Proof.
  unfold requested_id, open_sandbox. intros H.
  destruct (given (sandboxId d)).
  - rewrite (run_bind_returns env _ _ _ None)
      by (rewrite run_perform, H; reflexivity).
    rewrite run_ret. reflexivity.
  - rewrite (run_bind_returns env _ _ _ None)
      by (rewrite run_perform, H; reflexivity).
    reflexivity.
Qed.

Lemma run_open_sandbox_throws d e :
  env _ (SandboxCreate (requested_id d) 900000) = Throws e ->
  run env (open_sandbox d) =
  ([call (SandboxCreate (requested_id d) 900000)], Throws e).
Proof.
  unfold requested_id, open_sandbox. intros H.
  destruct (given (sandboxId d));
    rewrite (run_bind_throws env _ _ _ e (eq_trans (run_perform env _)
                                            (f_equal (pair _) H)));
    reflexivity.
Qed.

(** A body that the schema accepts takes the route to the provider. *)
Lemma run_POST_accepted_reaches_provider body d session :
  env _ GetSession = Returns (Some session) ->
  cloneSchema_parse is_url body = Returns d ->
  exists calls response,
    run env (POST is_url JSON_parse (Returns body)) =
    (call GetSession :: call (SandboxCreate (requested_id d) 900000) :: calls,
     response).
Proof.
  intros Hs Hparse.
  destruct (env _ (SandboxCreate (requested_id d) 900000)) as [[sb|]|e] eqn:Hc.
  - rewrite (run_POST_opened is_url JSON_parse env body d session sb Hs Hparse Hc).
    destruct (run env (try_catch _ _)) as [calls o]. eexists. eexists. reflexivity.
  - unfold POST. rewrite run_pbind.
    rewrite (run_bind_returns env _ _ _ (Some session))
      by (rewrite run_perform, Hs; reflexivity).
    rewrite (run_bind_returns env _ _ _ body) by (rewrite run_lift; reflexivity).
    rewrite (run_bind_returns env _ _ _ d) by (rewrite run_lift, Hparse; reflexivity).
    pose proof (run_open_sandbox_null d Hc) as Ho.
    destruct (given (sandboxId d)).
    + rewrite (run_bind_returns env _ _ _ _ Ho). rewrite run_ret.
      eexists. eexists. reflexivity.
    + rewrite (run_bind_throws env _ _ _ _ Ho). eexists. eexists. reflexivity.
  - unfold POST. rewrite run_pbind.
    rewrite (run_bind_returns env _ _ _ (Some session))
      by (rewrite run_perform, Hs; reflexivity).
    rewrite (run_bind_returns env _ _ _ body) by (rewrite run_lift; reflexivity).
    rewrite (run_bind_returns env _ _ _ d) by (rewrite run_lift, Hparse; reflexivity).
    rewrite (run_bind_throws env _ _ _ _ (run_open_sandbox_throws d e Hc)).
    destruct e; eexists; eexists; reflexivity.
Qed.

End Validation.

Import CloneSamples.

(** C3, as stated, fails on both counts: an address of another host, and
    a private repository without access token, pass the schema; the route
    creates the sandbox and clones. *)
Lemma C3_counterexample :
  (isValidGitUrl "https://example.com/acme/widgets" = false /\
   Js.lookup "gitUrl" [("gitUrl", Js.str "https://example.com/acme/widgets");
                       ("projectName", Js.str "widgets")]
   = Js.str "https://example.com/acme/widgets" /\
   ~ rejected_before_remote
       (run env_no_run_script
          (POST sample_is_url sample_JSON_parse (Returns body_other_host)))) /\
  (Js.lookup "isPrivate" [("gitUrl", Js.str "https://github.com/acme/widgets");
                          ("projectName", Js.str "widgets");
                          ("isPrivate", Js.boolean true)] = Js.boolean true /\
   Js.lookup "accessToken" [("gitUrl", Js.str "https://github.com/acme/widgets");
                            ("projectName", Js.str "widgets");
                            ("isPrivate", Js.boolean true)] = Js.undefined /\
   ~ rejected_before_remote
       (run env_no_run_script
          (POST sample_is_url sample_JSON_parse (Returns body_private_no_token)))).
Proof.
  split; (split; [reflexivity | split; [reflexivity|]]).
  - intros [_ H]. vm_compute in H. discriminate.
  - intros [_ H]. vm_compute in H. discriminate.
Qed.

(** C3, amended: for a signed-in caller, a request whose [gitUrl] is
    missing, is not a string or fails the schema's URL check is answered
    with status 400 "Invalid request data" after the session lookup
    alone, no call reaching the sandbox provider; a request that the
    schema accepts, whatever its host, [isPrivate] and [accessToken],
    goes on to create or attach the sandbox. *)
Theorem C3_schema_rejection_before_remote
    (is_url : string -> bool) (JSON_parse : string -> option Js.value)
    (env : Env Event) (session : Session)
    (Hs : env _ GetSession = Returns (Some session)) :
  (forall fields,
      (forall g, Js.lookup "gitUrl" fields = Js.str g -> is_url g = false) ->
      exists issues,
        run env (POST is_url JSON_parse (Returns (Js.object fields))) =
        ([call GetSession],
         mkResponse 400
           (ErrorBody (Js.str "Invalid request data") (Some ("gitUrl" :: issues))))
        /\ rejected_before_remote
             (run env (POST is_url JSON_parse (Returns (Js.object fields))))) /\
  (forall body d,
      cloneSchema_parse is_url body = Returns d ->
      exists calls response,
        run env (POST is_url JSON_parse (Returns body)) =
        (call GetSession :: call (SandboxCreate (requested_id d) 900000) :: calls,
         response)).
Proof.
  split.
  - intros fields Hurl.
    destruct (cloneSchema_rejects_gitUrl is_url fields Hurl) as [issues Hrej].
    exists issues.
    rewrite (run_POST_rejected is_url JSON_parse env _ session _ Hs Hrej).
    split; [reflexivity|]. split; [simpl; lia | reflexivity].
  - intros body d Hparse.
    exact (run_POST_accepted_reaches_provider is_url JSON_parse env body d session
             Hs Hparse).
Qed.

Lemma C3_schema_rejection_before_remote_witness :
  rejected_before_remote
    (run env_no_run_script
       (POST sample_is_url sample_JSON_parse (Returns body_not_a_url))).
Proof.
  destruct (C3_schema_rejection_before_remote sample_is_url sample_JSON_parse
              env_no_run_script "user-1" eq_refl) as [H _].
  destruct (H [("gitUrl", Js.str "git@github.com:acme/widgets");
               ("projectName", Js.str "widgets")]) as [issues [_ Hrej]].
  - intros g Hg. injection Hg as <-. reflexivity.
  - exact Hrej.
Defined.

(** C4, as stated, fails: the manifest declares [build] and [test] only,
    and the response carries the address of port 3000 as [serverUrl]. *)
Lemma C4_counterexample :
  SandboxScripts.has_package_json widgets_dir = true /\
  SandboxScripts.dev_command build_only = None /\
  env_no_run_script _ (RunCode sbx (StartScript "widgets")) =
  Returns (printed (SandboxScripts.start_stdout (Returns build_only) false "")) /\
  serverUrl_of
    (snd (run env_no_run_script
            (POST sample_is_url sample_JSON_parse (Returns body_public))))
  = Some (Some "https://3000-sbx-1.e2b.dev").
Proof. repeat split; vm_compute; reflexivity. Qed.

(** C4, amended: when the inspection reports success and a package
    manifest, and the install and launch calls return, the route answers
    with status 200, [success: true] and [serverUrl] the [https] address of
    port 3000 of the sandbox, whatever the launch program printed, hence
    also when the manifest declares none of [dev], [start], [serve]. *)
Theorem C4_server_url_with_manifest
    (is_url : string -> bool) (JSON_parse : string -> option Js.value)
    (env : Env Event) (body : Js.value) (d : CloneData) (session : Session)
    (sb : Sandbox) (cr chk ir sr : Execution) (v w : Js.value) (host : string)
    (Hs : env _ GetSession = Returns (Some session))
    (Hparse : cloneSchema_parse is_url body = Returns d)
    (Hcreate : env _ (SandboxCreate (requested_id d) 900000) = Returns (Some sb))
    (Hclone : env _ (RunCode sb (CloneScript (cloneCommand d) (projectName d)))
              = Returns cr)
    (Hcheck : env _ (RunCode sb (CheckScript (projectName d))) = Returns chk)
    (Hok : Js.get (read_project_info JSON_parse chk) "success" = Returns v)
    (Hv : Js.truthy v = true)
    (Hpkg : Js.get (read_project_info JSON_parse chk) "hasPackageJson" = Returns w)
    (Hw : Js.truthy w = true)
    (Hinstall : env _ (RunCode sb (InstallScript (projectName d))) = Returns ir)
    (Hstart : env _ (RunCode sb (StartScript (projectName d))) = Returns sr)
    (Hhost : env _ (GetHostname sb 3000) = Returns host) :
  let response := snd (run env (POST is_url JSON_parse (Returns body))) in
  status response = 200 /\
  success response = true /\
  serverUrl_of response = Some (Some ("https://" ++ host)).
Proof.
  rewrite (run_POST_returns is_url JSON_parse env body d session sb _ _
             Hs Hparse Hcreate
             (run_clone_into_manifest JSON_parse env sb d (target_id d sb)
                cr chk v w ir sr host
                Hclone Hcheck Hok Hv Hpkg Hw Hinstall Hstart Hhost)).
  repeat split.
Qed.

Lemma C4_server_url_with_manifest_witness :
  serverUrl_of
    (snd (run env_no_run_script
            (POST sample_is_url sample_JSON_parse (Returns body_public))))
  = Some (Some "https://3000-sbx-1.e2b.dev").
Proof.
  exact (proj2 (proj2
    (C4_server_url_with_manifest sample_is_url sample_JSON_parse
       env_no_run_script body_public
       (mkCloneData "https://github.com/acme/widgets" "main" "widgets"
          None false None None)
       "user-1" sbx clone_ok
       (printed [dumps (SandboxScripts.check_result (Some widgets_dir))])
       (printed ["Dependencies installed successfully!"])
       (printed (SandboxScripts.start_stdout (Returns build_only) false ""))
       (Js.boolean true) (Js.boolean true) "3000-sbx-1.e2b.dev"
       eq_refl eq_refl eq_refl eq_refl eq_refl eq_refl eq_refl eq_refl eq_refl
       eq_refl eq_refl eq_refl))).
Defined.




(** * Properties of the calls to the hosting provider's API *)

Section EveryCall.
Context {E : Type -> Type} (P : Call E -> Prop).

Lemma every_call_run {A} (p : Prog E A) (env : Env E) :
  every_call P p -> Forall P (fst (run env p)).
Proof.
  intros H. induction H as [a | X e k He _ IH]; simpl.
  - constructor.
  - specialize (IH (env X e)). destruct (run env (k (env X e))) as [t a].
    constructor; assumption.
Qed.

Lemma every_call_pbind {A B} (p : Prog E A) (k : A -> Prog E B) :
  every_call P p -> (forall a, every_call P (k a)) -> every_call P (pbind p k).
Proof.
  intros H Hk. induction H as [a | X e c He _ IH]; simpl.
  - apply Hk.
  - constructor; assumption.
Qed.

End EveryCall.

Import GitHubApi.

Ltac settle_calls :=
  repeat (cbn;
          match goal with
          | |- every_call _ (Done _) => constructor
          | |- every_call _ (match ?x with _ => _ end) => destruct x
          end).

Lemma validateRepository_calls (gitUrl : string) (accessToken : option string) :
  every_call bare (validateRepository gitUrl accessToken).
Proof.
  unfold validateRepository. apply every_call_pbind.
  - destruct (parseGitUrl gitUrl) as [repoInfo|]; [|constructor].
    unfold bind, perform. cbn [pbind]. constructor; [reflexivity|].
    intros [response|e]; [|constructor].
    unfold lift, ret. settle_calls.
  - intros [v|e]; constructor.
Qed.

Lemma getBranches_calls (gitUrl : string) (accessToken : option string) :
  every_call bare (getBranches gitUrl accessToken).
Proof.
  unfold getBranches. apply every_call_pbind.
  - destruct (parseGitUrl gitUrl) as [repoInfo|]; [|constructor].
    unfold bind, perform. cbn [pbind]. constructor; [reflexivity|].
    intros [response|e]; [|constructor].
    unfold lift, ret. settle_calls.
  - intros [v|e]; constructor.
Qed.

(** C10: [validateRepository] and [getBranches] are the same program for
    any two access tokens, absent ones included: they ask the outside the
    same questions and give the same result for the same answers; and no
    request either of them sends carries a header object, so the
    [Authorization] header they build is never sent. *)
Theorem C10_result_independent_of_token (gitUrl : string)
    (token token' : option string) :
  validateRepository gitUrl token = validateRepository gitUrl token' /\
  getBranches gitUrl token = getBranches gitUrl token' /\
  (forall env : Env GitHubApi.Event,
      run env (validateRepository gitUrl token) =
      run env (validateRepository gitUrl token') /\
      run env (getBranches gitUrl token) = run env (getBranches gitUrl token') /\
      Forall bare (fst (run env (validateRepository gitUrl token))) /\
      Forall bare (fst (run env (getBranches gitUrl token)))).
Proof.
  split; [reflexivity | split; [reflexivity|]].
  intros env. split; [reflexivity | split; [reflexivity | split]].
  - apply every_call_run. apply validateRepository_calls.
  - apply every_call_run. apply getBranches_calls.
Qed.

(** * Worked examples *)

(** The sweep at time 1000000 over the sample store: the stopped record
    is past its deadline and stays out, like the running record whose
    deadline lies ahead. *)
Example expired_in_sample_store :
  map _id (getSandboxesToAutoStop 1000000 Samples.db_mixed) = [0%nat].
Proof. reflexivity. Qed.

(** Two running records with deadlines [T - 1] and [T + 1]. *)
Example expired_around_now :
  map _id
    (getSandboxesToAutoStop 5000
       (mkDb [Store.mkSandbox 0%nat 7%nat None "a" "a" None running 0 0
                (Some 4999) false;
              Store.mkSandbox 1%nat 7%nat None "b" "b" None running 0 0
                (Some 5001) false]
             [] [] 2%nat))
  = [0%nat].
Proof. reflexivity. Qed.

(** A status update five seconds after the creation. *)
Example status_update_after_create :
  map (fun s => (lastActiveAt s, autoStopAt s))
    (sandboxes (snd (updateSandboxStatus 5000 "sbx-1" running None Samples.db_created)))
  = [(5000, Some 900000)].
Proof. reflexivity. Qed.

(** The pattern is not anchored: the address may sit inside the text. *)
Example parse_inside_text :
  owner_name (parseGitUrl "see https://github.com/acme/widgets/tree/main")
  = Some ("acme", "widgets").
Proof. reflexivity. Qed.

(** A name that ends in [.git] is read as a name and the suffix. *)
Example parse_name_with_suffix :
  owner_name (parseGitUrl (https_form "acme" "widgets.git")) = Some ("acme", "widgets").
Proof. reflexivity. Qed.

(** The SSH spelling is a valid address and is no URL for the schema of
    the clone route. *)
Example ssh_form_is_valid_address :
  isValidGitUrl "git@github.com:acme/widgets" = true.
Proof. reflexivity. Qed.

(** The clone command for a private repository with a token. *)
Example clone_command_with_token :
  authGitUrl
    (mkCloneData "https://github.com/acme/widgets" "main" "widgets" None true
       (Some "tok") None)
  = "https://tok@github.com/acme/widgets".
Proof. reflexivity. Qed.

(** Without a manifest the launch step asks nothing and gives no address. *)
Example no_manifest_no_server (env : Env CloneRoute.Event) :
  run env (startDevServer sbx "widgets"
             (Js.object [("success", Js.boolean true);
                         ("hasPackageJson", Js.boolean false)]))
  = ([], Returns None).
Proof. reflexivity. Qed.

(** The priority of the run scripts. *)
Example dev_command_priority :
  SandboxScripts.dev_command ["serve"; "start"; "dev"] = Some "npm run dev" /\
  SandboxScripts.dev_command ["serve"; "start"] = Some "npm start" /\
  SandboxScripts.dev_command ["serve"] = Some "npm run serve".
Proof. repeat split. Qed.

(** * Further properties of the record store *)

Module StoreFacts.
Import Store StoreQueries.

Section StoreMore.

Lemma same_id_same_doc {A} (key : A -> nat) (l : list A) (x y : A) :
  NoDup (map key l) -> In x l -> In y l -> key x = key y -> x = y.
Proof.
  induction l as [|a l IH]; intros Hnd Hx Hy E; [contradiction|].
  simpl in Hnd. inversion Hnd as [|? ? Hnot Hnd']; subst.
  destruct Hx as [<-|Hx], Hy as [<-|Hy].
  - reflexivity.
  - exfalso. apply Hnot. rewrite E. apply in_map. exact Hy.
  - exfalso. apply Hnot. rewrite <- E. apply in_map. exact Hx.
  - apply IH; assumption.
Qed.

Lemma filter_filter {A} (p q : A -> bool) (l : list A) :
  filter p (filter q l) = filter (fun x => q x && p x) l.
Proof.
  induction l as [|a l IH]; simpl; [reflexivity|].
  destruct (q a); simpl; [destruct (p a)|]; now rewrite IH.
Qed.

(** Deleting, one by one, the documents picked by [p] leaves those that
    [p] does not pick, provided ids are not shared. *)
Lemma delete_picked {A} (key : A -> nat) (p : A -> bool) (l : list A) :
  NoDup (map key l) ->
  filter (fun x => negb (existsb (Nat.eqb (key x)) (map key (filter p l)))) l =
  filter (fun x => negb (p x)) l.
Proof.
  intros Hnd. apply filter_ext_in. intros x Hx. f_equal.
  destruct (p x) eqn:Hp.
  - apply existsb_exists. exists (key x). split; [|apply Nat.eqb_refl].
    apply in_map. apply filter_In. split; assumption.
  - destruct (existsb _ _) eqn:He; [|reflexivity].
    apply existsb_exists in He. destruct He as [k [Hk Ek]].
    apply Nat.eqb_eq in Ek. apply in_map_iff in Hk. destruct Hk as [y [Ey Hy]].
    apply filter_In in Hy. destruct Hy as [Hy Hpy].
    assert (x = y) by (apply (same_id_same_doc key l); congruence).
    subst y. congruence.
Qed.

Lemma for_each_delete_snapshots (sel : list FileSnapshot) (db : Db) :
  for_each sel (fun snapshot => delete_snapshot (snapshot_id snapshot)) db =
  (Returns tt,
   mkDb (sandboxes db)
        (filter (fun f => negb (existsb (Nat.eqb (snapshot_id f)) (map snapshot_id sel)))
           (fileSnapshots db))
        (chatHistory db) (next_id db)).
Proof.
  revert db. induction sel as [|x sel IH]; intros db.
  - simpl. unfold Store.ret. destruct db as [a b c n]; simpl.
    f_equal. f_equal. symmetry. apply forallb_filter_id.
    apply forallb_forall. reflexivity.
  - simpl. unfold Store.bind, delete_snapshot. rewrite IH. simpl.
    rewrite filter_filter. f_equal. f_equal. apply filter_ext. intros f.
    rewrite (Nat.eqb_sym (snapshot_id f) (snapshot_id x)).
    now rewrite negb_orb.
Qed.

Lemma for_each_delete_chats (sel : list ChatMessage) (db : Db) :
  for_each sel (fun chat => delete_chat (chat_id chat)) db =
  (Returns tt,
   mkDb (sandboxes db) (fileSnapshots db)
        (filter (fun c => negb (existsb (Nat.eqb (chat_id c)) (map chat_id sel)))
           (chatHistory db))
        (next_id db)).
Proof.
  revert db. induction sel as [|x sel IH]; intros db.
  - simpl. unfold Store.ret. destruct db as [a b c n]; simpl.
    f_equal. f_equal. symmetry. apply forallb_filter_id.
    apply forallb_forall. reflexivity.
  - simpl. unfold Store.bind, delete_chat. rewrite IH. simpl.
    rewrite filter_filter. f_equal. f_equal. apply filter_ext. intros f.
    rewrite (Nat.eqb_sym (chat_id f) (chat_id x)).
    now rewrite negb_orb.
Qed.

End StoreMore.

(** X1: [deleteSandbox] on a record that exists removes the record, every
    file snapshot and every chat message that refers to its internal id,
    and nothing else: the other records, snapshots and messages stay, in
    their order. *)
Theorem deleteSandbox_cascade (sid : string) (db : Db) (s : Sandbox)
    (Hfound : find (fun r => String.eqb (sandboxId r) sid) (sandboxes db) = Some s)
    (Hsnap : NoDup (map snapshot_id (fileSnapshots db)))
    (Hchat : NoDup (map chat_id (chatHistory db))) :
  deleteSandbox sid db =
  (Returns (_id s),
   mkDb (filter (fun r => negb (Nat.eqb (_id r) (_id s))) (sandboxes db))
        (filter (fun f => negb (snapshot_of (_id s) f)) (fileSnapshots db))
        (filter (fun c => negb (chat_of (_id s) c)) (chatHistory db))
        (next_id db)).
Proof.
  unfold deleteSandbox. unfold Store.bind at 1.
  rewrite first_by_sandbox_id_run, Hfound.
  unfold Store.bind at 1. unfold Store.bind at 1.
  rewrite for_each_delete_snapshots. cbn [fileSnapshots sandboxes chatHistory next_id].
  unfold Store.bind at 1. unfold Store.bind at 1.
  rewrite for_each_delete_chats. cbn [fileSnapshots sandboxes chatHistory next_id].
  unfold Store.bind, delete_sandbox, Store.ret.
  cbn [fileSnapshots sandboxes chatHistory next_id].
  pose proof (delete_picked snapshot_id (snapshot_of (_id s)) _ Hsnap) as H1.
  pose proof (delete_picked chat_id (chat_of (_id s)) _ Hchat) as H2.
  rewrite <- H1, <- H2. reflexivity.
Qed.

Lemma deleteSandbox_cascade_witness :
  deleteSandbox "sbx-1"
    (mkDb (sandboxes Samples.db_mixed)
          [mkFileSnapshot 3%nat 0%nat; mkFileSnapshot 4%nat 2%nat;
           mkFileSnapshot 5%nat 0%nat]
          [mkChatMessage 6%nat (Some 0%nat); mkChatMessage 7%nat None;
           mkChatMessage 8%nat (Some 1%nat)]
          9%nat) =
  (Returns 0%nat,
   mkDb (tl (sandboxes Samples.db_mixed))
        [mkFileSnapshot 4%nat 2%nat]
        [mkChatMessage 7%nat None; mkChatMessage 8%nat (Some 1%nat)]
        9%nat).
Proof.
  assert (Hsnap : NoDup [3%nat; 4%nat; 5%nat]).
  { repeat constructor; simpl; intuition discriminate. }
  assert (Hchat : NoDup [6%nat; 7%nat; 8%nat]).
  { repeat constructor; simpl; intuition discriminate. }
  exact (deleteSandbox_cascade "sbx-1"
           (mkDb (sandboxes Samples.db_mixed)
                 [mkFileSnapshot 3%nat 0%nat; mkFileSnapshot 4%nat 2%nat;
                  mkFileSnapshot 5%nat 0%nat]
                 [mkChatMessage 6%nat (Some 0%nat); mkChatMessage 7%nat None;
                  mkChatMessage 8%nat (Some 1%nat)]
                 9%nat)
           (mkSandbox 0%nat 7%nat None "sbx-1" "a" (Some "https://a") running
              0 0 (Some 900000) false)
           eq_refl Hsnap Hchat).
Defined.

Section Patched.

Lemma patched_status id st u la asa (l : list Sandbox) s :
  In s (map (patch_where id (mkSandboxPatch (Some st) u la asa)) l) ->
  _id s = id -> status s = st.
Proof.
  intros Hin Hid. apply in_patched in Hin. destruct Hin as [s0 [_ ->]].
  rewrite patch_where_id in Hid. unfold patch_where.
  rewrite Hid, Nat.eqb_refl. reflexivity.
Qed.

Lemma patched_fixed_part id p (l : list Sandbox) :
  map fixed_part (map (patch_where id p) l) = map fixed_part l.
Proof.
  rewrite map_map. apply map_ext. intros s. unfold patch_where.
  destruct (Nat.eqb (_id s) id); reflexivity.
Qed.

Lemma patched_elsewhere id p (l : list Sandbox) s :
  _id s <> id -> (In s l <-> In s (map (patch_where id p) l)).
Proof.
  intros Hne. split.
  - intros Hin. apply in_map_iff. exists s. split; [|exact Hin].
    unfold patch_where. destruct (Nat.eqb_spec (_id s) id); [contradiction|reflexivity].
  - intros Hin. apply in_patched in Hin. destruct Hin as [s0 [Hin0 E]].
    assert (Hid : _id s0 = _id s) by (rewrite E; symmetry; apply patch_where_id).
    unfold patch_where in E.
    destruct (Nat.eqb_spec (_id s0) id) as [E0|_]; [congruence|].
    now subst.
Qed.

Lemma find_app {A} (p : A -> bool) (l : list A) (x : A) :
  find p (l ++ [x]) =
  match find p l with
  | Some y => Some y
  | None => if p x then Some x else None
  end.
Proof.
  induction l as [|a l IH]; simpl; [reflexivity|].
  destruct (p a); [reflexivity | exact IH].
Qed.

Lemma find_id_none_below (l : list Sandbox) (n : Id) :
  (forall s, In s l -> (_id s < n)%nat) ->
  find (fun s => Nat.eqb (_id s) n) l = None.
Proof.
  induction l as [|a l IH]; intros H; simpl; [reflexivity|].
  destruct (Nat.eqb_spec (_id a) n) as [E|_].
  - specialize (H a (or_introl eq_refl)). lia.
  - apply IH. intros s Hs. apply H. right. exact Hs.
Qed.

End Patched.

(** X2: once [stopSandbox] has returned, the record it stopped is neither
    among the records the sweep would stop, at whatever time the sweep
    runs, nor among anybody's active sandboxes. *)
Theorem stopped_record_is_left_alone (now : Z) (sid : string) (db db' : Db) (id : Id)
    (Hrun : stopSandbox now sid db = (Returns id, db')) :
  (forall t s, In s (getSandboxesToAutoStop t db') -> _id s <> id) /\
  (forall uid s, In s (getActiveSandboxes uid db') -> _id s <> id).
Proof.
  destruct (find (fun r => String.eqb (sandboxId r) sid) (sandboxes db)) as [s0|] eqn:E.
  - rewrite (stopSandbox_found now sid db s0 E) in Hrun. injection Hrun as <- <-.
    split.
    + intros t s Hin Hid. unfold getSandboxesToAutoStop in Hin.
      rewrite !filter_In in Hin. destruct Hin as [[Hin Hst] _]. simpl in Hin.
      rewrite (patched_status _ _ _ _ _ _ _ Hin Hid) in Hst. discriminate.
    + intros uid s Hin Hid. unfold getActiveSandboxes in Hin.
      rewrite !filter_In in Hin. destruct Hin as [[Hin _] Hst]. simpl in Hin.
      rewrite (patched_status _ _ _ _ _ _ _ Hin Hid) in Hst. discriminate.
  - rewrite (stopSandbox_missing now sid db E) in Hrun. discriminate.
Qed.

Lemma stopped_record_is_left_alone_witness :
  (forall s,
      In s (getSandboxesToAutoStop 2000000
              (snd (stopSandbox 1000 "sbx-1" Samples.db_mixed))) ->
      _id s <> 0%nat) /\
  (forall s,
      In s (getActiveSandboxes 7%nat
              (snd (stopSandbox 1000 "sbx-1" Samples.db_mixed))) ->
      _id s <> 0%nat).
Proof.
  split.
  - exact (proj1 (stopped_record_is_left_alone 1000 "sbx-1" Samples.db_mixed _ 0%nat
                    eq_refl) 2000000).
  - exact (proj2 (stopped_record_is_left_alone 1000 "sbx-1" Samples.db_mixed _ 0%nat
                    eq_refl) 7%nat).
Defined.

(** X3: after [updateSandboxActivity] at time [now] the record it touched
    is due for the sweep at time [t] exactly when it is running and
    [t] is later than [now] plus the 15 minutes: a touch keeps a sandbox
    out of the sweep for the whole grace window. *)
Theorem touched_record_survives_grace (now : Z) (sid : string) (db db' : Db) (id : Id)
    (Hrun : updateSandboxActivity now sid db = (Returns id, db')) :
  forall t s, In s (sandboxes db') -> _id s = id ->
    (In s (getSandboxesToAutoStop t db') <->
     status s = running /\ now + GRACE_MS < t).
Proof.
  destruct (find (fun r => String.eqb (sandboxId r) sid) (sandboxes db)) as [s0|] eqn:E.
  - rewrite (updateSandboxActivity_found now sid db s0 E) in Hrun.
    injection Hrun as <- <-. intros t s Hin Hid. simpl in Hin.
    unfold getSandboxesToAutoStop. rewrite !filter_In, Status_eqb_eq, field_lt_spec.
    simpl sandboxes.
    rewrite (autoStopAt_written _ _ _ _ _ _ _ Hin Hid). tauto.
  - rewrite (updateSandboxActivity_missing now sid db E) in Hrun. discriminate.
Qed.

Lemma touched_record_survives_grace_witness :
  getSandboxesToAutoStop (5000 + GRACE_MS)
    (snd (updateSandboxActivity 5000 "sbx-1" Samples.db_mixed))
  = [].
Proof.
  pose proof (touched_record_survives_grace 5000 "sbx-1" Samples.db_mixed _ 0%nat
                eq_refl (5000 + GRACE_MS)) as H.
  destruct (getSandboxesToAutoStop (5000 + GRACE_MS)
              (snd (updateSandboxActivity 5000 "sbx-1" Samples.db_mixed)))
    as [|s l] eqn:E; [reflexivity|].
  vm_compute in E. discriminate.
Defined.

(** X4: in a store whose ids are below [next_id] and that holds no record
    with the given [sandboxId], the record that [createSandbox] inserts is
    the one found by that [sandboxId] and by the returned id; it is in
    status [creating], counts among its owner's active sandboxes, and a
    status update by its [sandboxId] reaches it. *)
Theorem created_record_is_found (now : Z) (a : CreateArgs) (db : Db)
    (Hids : ids_below_next db)
    (Hfresh : forall s, In s (sandboxes db) -> sandboxId s <> a_sandboxId a) :
  exists s db',
    createSandbox now a db = (Returns (_id s), db') /\
    getSandboxBySandboxId (a_sandboxId a) db' = Some s /\
    Store.get db' (_id s) = Some s /\
    status s = creating /\
    In s (getActiveSandboxes (a_userId a) db') /\
    ids_below_next db' /\
    forall now' st u,
      fst (updateSandboxStatus now' (a_sandboxId a) st u db') = Returns (_id s).
Proof.
  set (doc := mkSandbox (next_id db) (a_userId a) (a_projectId a) (a_sandboxId a)
                (a_name a) (a_url a) creating now now (Some (now + GRACE_MS))
                (or_false (a_isTemporary a))).
  exists doc, (mkDb (sandboxes db ++ [doc]) (fileSnapshots db) (chatHistory db)
                 (S (next_id db))).
  split; [reflexivity|].
  assert (Hfind : find (fun r => String.eqb (sandboxId r) (a_sandboxId a))
                    (sandboxes db ++ [doc]) = Some doc).
  { rewrite find_app, (find_none_of_no_match _ _ Hfresh). unfold doc at 1.
    cbn [sandboxId]. now rewrite String.eqb_refl. }
  split; [exact Hfind|]. split; [|split; [reflexivity|split; [|split]]].
  - unfold Store.get. cbn [sandboxes].
    change (_id doc) with (next_id db).
    rewrite find_app, (find_id_none_below _ _ Hids).
    change (_id doc) with (next_id db). now rewrite Nat.eqb_refl.
  - unfold getActiveSandboxes. cbn [sandboxes]. rewrite !filter_In.
    split; [split|].
    + apply in_or_app. right. left. reflexivity.
    + apply Nat.eqb_refl.
    + reflexivity.
  - intros s Hs. cbn [sandboxes next_id] in *.
    apply in_app_or in Hs. destruct Hs as [Hs|[<-|[]]].
    + specialize (Hids s Hs). lia.
    + change (_id doc) with (next_id db). lia.
  - intros now' st u.
    rewrite (updateSandboxStatus_found now' (a_sandboxId a) st u
               (mkDb (sandboxes db ++ [doc]) (fileSnapshots db) (chatHistory db)
                  (S (next_id db))) doc Hfind).
    reflexivity.
Qed.

Lemma created_record_is_found_witness :
  exists s, getSandboxBySandboxId "sbx-1" Samples.db_created = Some s /\
            status s = creating.
Proof.
  destruct (created_record_is_found 0 Samples.widgets_args Samples.empty_db)
    as [s [db' [Hc [Hf [_ [Hs _]]]]]].
  - intros s [].
  - intros s [].
  - exists s. split; [|exact Hs].
    unfold Samples.db_created. rewrite Hc. exact Hf.
Defined.

(** X5: [createSandbox] does not look for a record with the same
    [sandboxId]: it always adds a record, and when one with that
    [sandboxId] was there, the lookup by [sandboxId] keeps finding the
    earlier one. *)
Theorem createSandbox_keeps_earlier_record (now : Z) (a : CreateArgs) (db : Db)
    (r : Sandbox)
    (Hthere : getSandboxBySandboxId (a_sandboxId a) db = Some r) :
  let db' := snd (createSandbox now a db) in
  List.length (sandboxes db') = S (List.length (sandboxes db)) /\
  getSandboxBySandboxId (a_sandboxId a) db' = Some r.
Proof.
  simpl. split.
  - rewrite length_app. simpl. lia.
  - unfold getSandboxBySandboxId in *. simpl. rewrite find_app, Hthere. reflexivity.
Qed.

Lemma createSandbox_keeps_earlier_record_witness :
  option_map _id
    (getSandboxBySandboxId "sbx-1"
       (snd (createSandbox 9000 Samples.widgets_args Samples.db_created)))
  = Some 0%nat.
Proof.
  exact (f_equal (option_map _id)
           (proj2 (createSandbox_keeps_earlier_record 9000 Samples.widgets_args
                     Samples.db_created _ eq_refl))).
Defined.

(** X6: a status update, a touch and a stop never change the id, owner,
    project, [sandboxId], name, [startedAt] or [isTemporary] of any
    record, never add or remove a record, and leave the snapshots, the
    chat history and every record with another id as they were. *)
Theorem mutations_keep_fixed_part (now : Z) (sid : string) (db : Db) :
  let kept (r : Outcome Id * Db) :=
    map fixed_part (sandboxes (snd r)) = map fixed_part (sandboxes db) /\
    fileSnapshots (snd r) = fileSnapshots db /\
    chatHistory (snd r) = chatHistory db /\
    next_id (snd r) = next_id db /\
    forall id, fst r = Returns id ->
      forall s, _id s <> id -> (In s (sandboxes db) <-> In s (sandboxes (snd r))) in
  (forall st u, kept (updateSandboxStatus now sid st u db)) /\
  kept (updateSandboxActivity now sid db) /\
  kept (stopSandbox now sid db).
Proof.
  intros kept. unfold kept.
  destruct (find (fun r => String.eqb (sandboxId r) sid) (sandboxes db)) as [s0|] eqn:E.
  - split; [intros st u; rewrite (updateSandboxStatus_found now sid st u db s0 E)
           | split; [rewrite (updateSandboxActivity_found now sid db s0 E)
                    | rewrite (stopSandbox_found now sid db s0 E)]];
      simpl; (split; [apply patched_fixed_part|]); repeat (split; [reflexivity|]);
      intros id Hid s Hne; injection Hid as <-; apply patched_elsewhere; exact Hne.
  - split; [intros st u; rewrite (updateSandboxStatus_missing now sid st u db E)
           | split; [rewrite (updateSandboxActivity_missing now sid db E)
                    | rewrite (stopSandbox_missing now sid db E)]];
      simpl; repeat (split; [reflexivity|]); intros id Hid; discriminate.
Qed.

End StoreFacts.

(** * Properties of the subscription records *)

Module SubscriptionFacts.
Import Txn Subscriptions.

Section Upsert.

Lemma patch_where_polar id p s :
  polarSubscriptionId (patch_where id p s) = polarSubscriptionId s.
Proof. unfold patch_where. destruct (Nat.eqb (_id s) id); reflexivity. Qed.

Lemma patched_polar_ids id p (l : list Subscription) :
  map polarSubscriptionId (map (patch_where id p) l) = map polarSubscriptionId l.
Proof. rewrite map_map. apply map_ext. intros s. apply patch_where_polar. Qed.

Lemma find_polar_patched pid id p (l : list Subscription) :
  find (by_polar_id pid) (map (patch_where id p) l) =
  option_map (patch_where id p) (find (by_polar_id pid) l).
Proof.
  induction l as [|a l IH]; simpl; [reflexivity|].
  unfold by_polar_id at 1 3. rewrite patch_where_polar.
  destruct (String.eqb (polarSubscriptionId a) pid); [reflexivity | exact IH].
Qed.

Lemma find_polar_none pid (l : list Subscription) :
  find (by_polar_id pid) l = None -> ~ In pid (map polarSubscriptionId l).
Proof.
  intros H Hin. apply in_map_iff in Hin. destruct Hin as [s [E Hs]].
  pose proof (find_none _ _ H s Hs) as Hn. unfold by_polar_id in Hn.
  rewrite E, String.eqb_refl in Hn. discriminate.
Qed.

Lemma NoDup_snoc {A} (l : list A) (x : A) :
  NoDup l -> ~ In x l -> NoDup (l ++ [x]).
Proof.
  induction l as [|a l IH]; intros Hnd Hx; simpl.
  - constructor; [intros [] | constructor].
  - inversion Hnd as [|? ? Ha Hl]; subst. constructor.
    + intros Hin. apply in_app_or in Hin. destruct Hin as [Hin|[->|[]]].
      * contradiction.
      * apply Hx. left. reflexivity.
    + apply IH; [exact Hl | intros Hin; apply Hx; right; exact Hin].
Qed.

Lemma exists_own_id (l : list Subscription) (e : Subscription) :
  In e l -> existsb (fun s => Nat.eqb (_id s) (_id e)) l = true.
Proof.
  intros H. apply existsb_exists. exists e. split; [exact H | apply Nat.eqb_refl].
Qed.

(** What [createSubscription] does in its two cases. *)
Lemma createSubscription_existing now a db e :
  getByPolarId (a_polarSubscriptionId a) db = Some e ->
  createSubscription now a db =
  (Returns (_id e),
   mkDb (map (patch_where (_id e)
                (mkPatch (Some (a_tier a)) (Some (a_status a))
                   (Some (a_currentPeriodStart a)) (Some (a_currentPeriodEnd a))
                   (Some now)))
           (subscriptions db))
        (next_id db)).
Proof.
  intros H. unfold createSubscription, bind. rewrite H. unfold patch.
  rewrite (exists_own_id _ e) by (apply (find_some _ _ H)). reflexivity.
Qed.

Lemma createSubscription_new now a db :
  getByPolarId (a_polarSubscriptionId a) db = None ->
  createSubscription now a db =
  (Returns (next_id db),
   mkDb (subscriptions db ++
         [mkSubscription (next_id db) (a_userId a) (a_polarSubscriptionId a)
            (a_tier a) (a_status a) (a_currentPeriodStart a)
            (a_currentPeriodEnd a) now now])
        (S (next_id db))).
Proof. intros H. unfold createSubscription, bind. rewrite H. reflexivity. Qed.

End Upsert.

(** X7: [createSubscription] never makes a second record for a
    [polarSubscriptionId]: a store in which these ids are distinct stays
    so, and the table grows by one record exactly when the id was not
    there. *)
Theorem createSubscription_keeps_polar_ids_distinct (now : Z) (a : CreateArgs) (db : Db)
    (Hdistinct : NoDup (map polarSubscriptionId (subscriptions db))) :
  let db' := snd (createSubscription now a db) in
  NoDup (map polarSubscriptionId (subscriptions db')) /\
  List.length (subscriptions db') =
  match getByPolarId (a_polarSubscriptionId a) db with
  | Some _ => List.length (subscriptions db)
  | None => S (List.length (subscriptions db))
  end.
Proof.
  destruct (getByPolarId (a_polarSubscriptionId a) db) as [e|] eqn:E.
  - rewrite (createSubscription_existing now a db e E). cbn [snd subscriptions].
    rewrite patched_polar_ids. split; [exact Hdistinct | apply length_map].
  - rewrite (createSubscription_new now a db E). cbn [snd subscriptions].
    rewrite map_app, length_app. simpl. split; [|lia].
    apply NoDup_snoc; [exact Hdistinct | apply find_polar_none; exact E].
Qed.

Lemma createSubscription_keeps_polar_ids_distinct_witness :
  List.length
    (subscriptions
       (snd (createSubscription 20 (mkCreateArgs 1%nat "sub_1" pro active 0 100)
               (snd (createSubscription 10 (mkCreateArgs 1%nat "sub_1" free active 0 50)
                       (mkDb [] 0%nat)))))) = 1%nat.
Proof.
  exact (proj2 (createSubscription_keeps_polar_ids_distinct 20
                  (mkCreateArgs 1%nat "sub_1" pro active 0 100)
                  (snd (createSubscription 10 (mkCreateArgs 1%nat "sub_1" free active 0 50)
                          (mkDb [] 0%nat)))
                  (NoDup_cons "sub_1" (fun H : In "sub_1" [] => H) (NoDup_nil string)))).
Defined.

(** X8: after [createSubscription] the record found by the
    [polarSubscriptionId] is the one whose id was returned, and it
    carries the tier, the status and the period of the call, with
    [updatedAt] the time of the call; when the record was there before,
    its owner and [createdAt] are the earlier ones, not those of the
    call. *)
Theorem createSubscription_then_lookup (now : Z) (a : CreateArgs) (db : Db) :
  exists s,
    fst (createSubscription now a db) = Returns (_id s) /\
    getByPolarId (a_polarSubscriptionId a) (snd (createSubscription now a db)) = Some s /\
    tier s = a_tier a /\ status s = a_status a /\
    currentPeriodStart s = a_currentPeriodStart a /\
    currentPeriodEnd s = a_currentPeriodEnd a /\
    updatedAt s = now /\
    match getByPolarId (a_polarSubscriptionId a) db with
    | Some e => _id s = _id e /\ userId s = userId e /\ createdAt s = createdAt e
    | None => userId s = a_userId a /\ createdAt s = now
    end.
Proof.
  destruct (getByPolarId (a_polarSubscriptionId a) db) as [e|] eqn:E.
  - rewrite (createSubscription_existing now a db e E). cbn [fst snd].
    exists (apply_patch (mkPatch (Some (a_tier a)) (Some (a_status a))
                           (Some (a_currentPeriodStart a)) (Some (a_currentPeriodEnd a))
                           (Some now)) e).
    split; [reflexivity|]. split; [|repeat split].
    unfold getByPolarId in *. cbn [subscriptions].
    rewrite find_polar_patched, E. simpl. unfold patch_where.
    now rewrite Nat.eqb_refl.
  - rewrite (createSubscription_new now a db E). cbn [fst snd].
    eexists (mkSubscription _ _ _ _ _ _ _ _ _).
    split; [reflexivity|]. split; [|repeat split].
    unfold getByPolarId in *. cbn [subscriptions].
    rewrite StoreFacts.find_app, E. unfold by_polar_id. cbn [polarSubscriptionId].
    now rewrite String.eqb_refl.
Qed.

Section Counting.

(** The counters by status and by tier grow by one each per record. *)
Lemma count_subscription_sums (stats : Stats) (sub : Subscription) :
  let stats' := count_subscription stats sub in
  total stats' = total stats /\
  n_active stats' + n_cancelled stats' + n_pastDue stats' + n_unpaid stats' =
  n_active stats + n_cancelled stats + n_pastDue stats + n_unpaid stats + 1 /\
  n_free stats' + n_pro stats' + n_enterprise stats' =
  n_free stats + n_pro stats + n_enterprise stats + 1 /\
  revenue_monthly stats' = revenue_monthly stats /\
  revenue_annual stats' = revenue_annual stats.
Proof.
  unfold count_subscription. destruct (status sub), (tier sub); simpl; repeat split; lia.
Qed.

Lemma fold_count_sums (l : list Subscription) (stats : Stats) :
  let stats' := fold_left count_subscription l stats in
  total stats' = total stats /\
  n_active stats' + n_cancelled stats' + n_pastDue stats' + n_unpaid stats' =
  n_active stats + n_cancelled stats + n_pastDue stats + n_unpaid stats
  + Z.of_nat (List.length l) /\
  n_free stats' + n_pro stats' + n_enterprise stats' =
  n_free stats + n_pro stats + n_enterprise stats + Z.of_nat (List.length l) /\
  revenue_monthly stats' = revenue_monthly stats /\
  revenue_annual stats' = revenue_annual stats.
Proof.
  revert stats. induction l as [|a l IH]; intros stats.
  - simpl. repeat split; lia.
  - cbn [fold_left]. specialize (IH (count_subscription stats a)).
    pose proof (count_subscription_sums stats a) as H. cbv zeta in *.
    destruct IH as [I1 [I2 [I3 [I4 I5]]]]. destruct H as [H1 [H2 [H3 [H4 H5]]]].
    rewrite I1, I2, I3, I4, I5, H1, H2, H3, H4, H5.
    change (List.length (a :: l)) with (S (List.length l)).
    repeat split; lia.
Qed.

End Counting.

Section CountingEach.

Lemma counted_cons p a l :
  counted p (a :: l) = (if p a then 1 else 0) + counted p l.
Proof.
  unfold counted. simpl. destruct (p a); [|lia].
  change (List.length (a :: filter p l)) with (S (List.length (filter p l))). lia.
Qed.

(** Every counter ends at its start plus the number of records of its
    status, of its tier. *)
Lemma fold_count_each (l : list Subscription) (stats : Stats) :
  let stats' := fold_left count_subscription l stats in
  n_active stats' = n_active stats + counted (fun s => Status_eqb (status s) active) l /\
  n_cancelled stats' =
  n_cancelled stats + counted (fun s => Status_eqb (status s) cancelled) l /\
  n_pastDue stats' = n_pastDue stats + counted (fun s => Status_eqb (status s) past_due) l /\
  n_unpaid stats' = n_unpaid stats + counted (fun s => Status_eqb (status s) unpaid) l /\
  n_free stats' = n_free stats + counted (fun s => Tier_eqb (tier s) free) l /\
  n_pro stats' = n_pro stats + counted (fun s => Tier_eqb (tier s) pro) l /\
  n_enterprise stats' =
  n_enterprise stats + counted (fun s => Tier_eqb (tier s) enterprise) l.
Proof.
  revert stats. induction l as [|a l IH]; intros stats.
  - unfold counted. simpl. repeat split; lia.
  - cbn [fold_left]. specialize (IH (count_subscription stats a)). cbv zeta in *.
    destruct IH as [I1 [I2 [I3 [I4 [I5 [I6 I7]]]]]].
    rewrite I1, I2, I3, I4, I5, I6, I7, !counted_cons. cbv beta.
    unfold count_subscription.
    destruct (status a), (tier a);
      cbn [Status_eqb Tier_eqb n_active n_cancelled n_pastDue n_unpaid n_free n_pro
           n_enterprise];
      repeat split; lia.
Qed.

End CountingEach.

(** X9: in the statistics every subscription is counted once under its
    own status and once under its own tier: each of the four status
    counters is the number of subscriptions in that status, each of the
    three tier counters the number of subscriptions in that tier, [total]
    is the number of records, so that the status counters, and the tier
    counters, add up to [total]; both revenue figures are zero. *)
Theorem getSubscriptionStats_partitions (db : Db) :
  let stats := getSubscriptionStats db in
  total stats = Z.of_nat (List.length (subscriptions db)) /\
  (n_active stats = in_status active db /\
   n_cancelled stats = in_status cancelled db /\
   n_pastDue stats = in_status past_due db /\
   n_unpaid stats = in_status unpaid db) /\
  (n_free stats = in_tier free db /\
   n_pro stats = in_tier pro db /\
   n_enterprise stats = in_tier enterprise db) /\
  n_active stats + n_cancelled stats + n_pastDue stats + n_unpaid stats = total stats /\
  n_free stats + n_pro stats + n_enterprise stats = total stats /\
  revenue_monthly stats = 0 /\ revenue_annual stats = 0.
Proof.
  unfold getSubscriptionStats.
  pose proof (fold_count_sums (subscriptions db)
                (mkStats (Z.of_nat (List.length (subscriptions db))) 0 0 0 0 0 0 0 0 0))
    as H.
  pose proof (fold_count_each (subscriptions db)
                (mkStats (Z.of_nat (List.length (subscriptions db))) 0 0 0 0 0 0 0 0 0))
    as E.
  cbv zeta in *. destruct H as [H1 [H2 [H3 [H4 H5]]]].
  destruct E as [E1 [E2 [E3 [E4 [E5 [E6 E7]]]]]].
  split; [rewrite H1; reflexivity|].
  split; [unfold in_status; repeat split;
          [rewrite E1 | rewrite E2 | rewrite E3 | rewrite E4]; reflexivity|].
  split; [unfold in_tier; repeat split; [rewrite E5 | rewrite E6 | rewrite E7];
          reflexivity|].
  rewrite H1, H2, H3, H4, H5. simpl. repeat split; lia.
Qed.

(** X10: [hasActiveSubscription] answers [true] only when the user owns
    a subscription that is active and whose period ends after [now]; and
    after [cancelSubscription] the subscription that was cancelled is
    never the reason for such an answer. *)
Theorem hasActiveSubscription_sound (uid : Id) (now : Z) (db : Db) :
  (hasActiveSubscription uid now db = true ->
   exists s, In s (subscriptions db) /\ userId s = uid /\
             status s = active /\ now < currentPeriodEnd s) /\
  (forall t id,
      hasActiveSubscription uid now (snd (cancelSubscription t id db)) = true ->
      exists s, In s (subscriptions (snd (cancelSubscription t id db))) /\
                userId s = uid /\ status s = active /\
                now < currentPeriodEnd s /\ _id s <> id).
Proof.
  assert (Hsound : forall d, hasActiveSubscription uid now d = true ->
            exists s, In s (subscriptions d) /\ userId s = uid /\
                      status s = active /\ now < currentPeriodEnd s).
  { intros d H. unfold hasActiveSubscription in H.
    destruct (find _ _) as [s|] eqn:E; [|discriminate].
    apply find_some in E. destruct E as [Hin Hst].
    apply in_rev in Hin. apply filter_In in Hin. destruct Hin as [Hin Hu].
    exists s. repeat split.
    - exact Hin.
    - apply Nat.eqb_eq. exact Hu.
    - destruct (status s); try discriminate; reflexivity.
    - apply Z.ltb_lt. exact H. }
  split; [apply Hsound|].
  intros t id H. destruct (Hsound _ H) as [s [Hin [Hu [Hst Hend]]]].
  exists s. repeat split; try assumption.
  intros Hid. unfold cancelSubscription, bind, patch in Hin.
  destruct (existsb _ _) eqn:Ex.
  - cbn [snd subscriptions] in Hin. apply in_map_iff in Hin.
    destruct Hin as [s0 [E Hs0]].
    assert (H0 : _id s0 = id).
    { rewrite <- Hid, <- E. unfold patch_where.
      destruct (Nat.eqb (_id s0) id); reflexivity. }
    unfold patch_where in E. rewrite H0, Nat.eqb_refl in E.
    rewrite <- E in Hst. discriminate.
  - cbn [snd] in Hin.
    assert (Hf : existsb (fun s => Nat.eqb (_id s) id) (subscriptions db) = true).
    { apply existsb_exists. exists s. split; [exact Hin | now apply Nat.eqb_eq]. }
    congruence.
Qed.

End SubscriptionFacts.

Lemma hasActiveSubscription_sound_witness :
  exists s,
    In s (Subscriptions.subscriptions
            (snd (Subscriptions.createSubscription 10
                    (Subscriptions.mkCreateArgs 1%nat "sub_1" Subscriptions.pro
                       Subscriptions.active 0 100)
                    (Subscriptions.mkDb [] 0%nat)))) /\
    Subscriptions.userId s = 1%nat /\ 50 < Subscriptions.currentPeriodEnd s.
Proof.
  destruct (proj1 (SubscriptionFacts.hasActiveSubscription_sound 1%nat 50
                     (snd (Subscriptions.createSubscription 10
                             (Subscriptions.mkCreateArgs 1%nat "sub_1" Subscriptions.pro
                                Subscriptions.active 0 100)
                             (Subscriptions.mkDb [] 0%nat))))
                  eq_refl) as [s [H1 [H2 [_ H3]]]].
  exists s. split; [exact H1 | split; [exact H2 | exact H3]].
Defined.

(** * Properties of the project records *)

Module NumberFacts.
Import Number.

Lemma digits_size p : digits2_pos p = Pos.size p.
Proof. induction p; simpl; congruence. Qed.

Lemma iter_pos_eq {A} (f : A -> A) p x : iter_pos f p x = Pos.iter f x p.
Proof.
  revert x. induction p as [p IH|p IH|]; intros x; simpl.
  - rewrite !IH. rewrite <- !Pos.iter_swap. reflexivity.
  - rewrite !IH. reflexivity.
  - reflexivity.
Qed.

Lemma shift_mul p k : Z.pos (Pos.iter xO p k) = Z.pos p * 2 ^ Z.pos k.
Proof.
  induction k as [|k IH] using Pos.peano_ind.
  - simpl. lia.
  - rewrite Pos.iter_succ, Pos2Z.inj_xO, IH, Pos2Z.inj_succ, Z.pow_succ_r by lia. lia.
Qed.

Lemma size_shift p k : Z.pos (Pos.size (Pos.iter xO p k)) = Z.pos (Pos.size p) + Z.pos k.
Proof.
  induction k as [|k IH] using Pos.peano_ind.
  - simpl. lia.
  - rewrite Pos.iter_succ. simpl Pos.size. rewrite Pos2Z.inj_succ, IH. lia.
Qed.

Lemma size_bound n : Z.pos n < 2 ^ 53 -> Z.pos (Pos.size n) <= 53.
Proof.
  intros Hlt. pose proof (Pos.size_le n) as H.
  destruct (Z_le_gt_dec (Z.pos (Pos.size n)) 53) as [|G]; [assumption|].
  exfalso.
  assert (2 ^ 54 <= 2 ^ Z.pos (Pos.size n)) by (apply Z.pow_le_mono_r; lia).
  assert (Z.pos (2 ^ Pos.size n) <= Z.pos n~0) by exact H.
  rewrite Pos2Z.inj_pow in *. lia.
Qed.

(** Shifting out binary places that are all zero loses nothing. *)
Lemma shr_exact q k :
  Pos.iter shr_1 {| shr_m := Z.pos (Pos.iter xO q k); shr_r := false; shr_s := false |} k
  = {| shr_m := Z.pos q; shr_r := false; shr_s := false |}.
Proof.
  induction k as [|k IH] using Pos.peano_ind.
  - reflexivity.
  - rewrite Pos.iter_succ_r, Pos.iter_succ. simpl shr_1. exact IH.
Qed.

Lemma shr_fexp_canonical m e :
  Z.pos (Pos.size m) = 53 -> -1074 <= e ->
  shr_fexp 53 1024 (Z.pos m) e loc_Exact =
  ({| shr_m := Z.pos m; shr_r := false; shr_s := false |}, e).
Proof.
  intros Hm He. unfold shr_fexp. cbn [Zdigits2 shr_record_of_loc].
  rewrite digits_size, Hm.
  replace (fexp 53 1024 (53 + e) - e) with 0 by (unfold fexp, emin; lia).
  reflexivity.
Qed.

(** A mantissa of 53 bits with an exponent in range is kept. *)
Lemma round_canonical s m e :
  Z.pos (Pos.size m) = 53 -> -1074 <= e <= 971 ->
  binary_round_aux 53 1024 s (Z.pos m) e loc_Exact = S754_finite s m e.
Proof.
  intros Hm He. unfold binary_round_aux.
  rewrite shr_fexp_canonical by (assumption || lia).
  cbn [shr_m loc_of_shr_record round_nearest_even].
  rewrite shr_fexp_canonical by (assumption || lia).
  cbn [shr_m].
  replace (e <=? 1024 - 53) with true by (symmetry; apply Z.leb_le; lia).
  reflexivity.
Qed.

Lemma round_shifted s q k e :
  Z.pos (Pos.size q) = 53 -> -1074 <= e + Z.pos k <= 971 ->
  binary_round_aux 53 1024 s (Z.pos (Pos.iter xO q k)) e loc_Exact
  = S754_finite s q (e + Z.pos k).
Proof.
  intros Hq He. unfold binary_round_aux, shr_fexp at 1.
  cbn [Zdigits2 shr_record_of_loc].
  rewrite digits_size, size_shift, Hq.
  replace (fexp 53 1024 (53 + Z.pos k + e) - e) with (Z.pos k)
    by (unfold fexp, emin; lia).
  cbn [shr]. rewrite iter_pos_eq, shr_exact.
  cbn [shr_m loc_of_shr_record round_nearest_even].
  rewrite shr_fexp_canonical by (assumption || lia).
  cbn [shr_m].
  replace (e + Z.pos k <=? 1024 - 53) with true by (symmetry; apply Z.leb_le; lia).
  reflexivity.
Qed.

(** The double that is a positive integer below 2^53: its digits, moved
    up to 53 bits. *)
Lemma of_Z_small n :
  Z.pos (Pos.size n) <= 53 ->
  of_Z (Z.pos n) =
  match 53 - Z.pos (Pos.size n) with
  | Z.pos k => S754_finite false (Pos.iter xO n k) (- Z.pos k)
  | _ => S754_finite false n 0
  end.
Proof.
  intros Hn. unfold of_Z, binary_normalize, binary_round.
  rewrite digits_size. unfold shl_align.
  replace (fexp 53 1024 (Z.pos (Pos.size n) + 0) - 0) with (- (53 - Z.pos (Pos.size n)))
    by (unfold fexp, emin; lia).
  destruct (53 - Z.pos (Pos.size n)) as [|k|k] eqn:E; try lia.
  - cbn [Z.opp]. apply round_canonical; lia.
  - cbn [Z.opp].
    replace (fexp 53 1024 (Z.pos (Pos.size n) + 0)) with (Z.neg k)
      by (unfold fexp, emin; lia).
    apply round_canonical; [rewrite size_shift; lia | lia].
Qed.

Lemma aligned mx ex :
  -52 <= ex ->
  Z.pos (fst (shl_align mx ex (-52))) = Z.pos mx * 2 ^ (ex + 52).
Proof.
  intros He. unfold shl_align.
  destruct (-52 - ex) as [|p|p] eqn:E; try lia; cbn [fst].
  - replace (ex + 52) with 0 by lia. lia.
  - rewrite shift_mul. f_equal. f_equal. lia.
Qed.

Lemma size_ge_2 N : (2 <= N)%positive -> 2 <= Z.pos (Pos.size N).
Proof. destruct N; simpl; lia. Qed.

(** An integer below 2^53 that is given with 52 further binary places
    rounds to itself. *)
Lemma normalize_scaled N :
  (2 <= N)%positive -> Z.pos (Pos.size N) <= 53 ->
  binary_normalize 53 1024 (Z.pos N * 2 ^ 52) (-52) false = of_Z (Z.pos N).
Proof.
  intros H2 Hs. pose proof (size_ge_2 N H2) as Hd.
  replace (Z.pos N * 2 ^ 52) with (Z.pos (Pos.iter xO N 52))
    by (rewrite shift_mul; reflexivity).
  rewrite (of_Z_small N Hs).
  unfold binary_normalize, binary_round. rewrite digits_size.
  assert (Hsz : Z.pos (Pos.size (Pos.iter xO N 52)) = Z.pos (Pos.size N) + 52)
    by apply size_shift.
  rewrite Hsz. unfold shl_align.
  replace (fexp 53 1024 (Z.pos (Pos.size N) + 52 + -52) - -52)
    with (Z.pos (Pos.size N) - 1) by (unfold fexp, emin; lia).
  destruct (Z.pos (Pos.size N) - 1) as [|j|j] eqn:Ej; try lia.
  destruct (53 - Z.pos (Pos.size N)) as [|k|k] eqn:Ek; try lia.
  - assert (j = 52%positive) by lia. subst j.
    rewrite (round_shifted false N 52 (-52)) by lia. reflexivity.
  - assert (Hjk : (j + k = 52)%positive) by lia.
    rewrite <- Hjk at 1. rewrite Pos.iter_add.
    rewrite (round_shifted false (Pos.iter xO N k) j (-52))
      by (rewrite ?size_shift; lia).
    f_equal. lia.
Qed.

Lemma of_Z_1 : of_Z 1 = S754_finite false 4503599627370496 (-52).
Proof. reflexivity. Qed.

Lemma add_one_exact_pos n :
  Z.pos (n + 1) < 2 ^ 53 ->
  add (of_Z (Z.pos n)) (of_Z 1) = of_Z (Z.pos n + 1).
Proof.
  intros Hlt.
  assert (Hs' : Z.pos (Pos.size (n + 1)) <= 53) by (apply size_bound; exact Hlt).
  assert (Hs : Z.pos (Pos.size n) <= 53) by (apply size_bound; lia).
  rewrite (of_Z_small n Hs), of_Z_1.
  assert (Hsum : forall mx ex,
             -52 <= ex -> Z.pos mx * 2 ^ (ex + 52) = Z.pos n * 2 ^ 52 ->
             add (S754_finite false mx ex) (S754_finite false 4503599627370496 (-52))
             = of_Z (Z.pos n + 1)).
  { intros mx ex He Hv. unfold add, SFadd.
    replace (Z.min ex (-52)) with (-52) by lia.
    cbn [cond_Zopp].
    rewrite (aligned mx ex He), Hv.
    change (Z.pos (fst (shl_align 4503599627370496 (-52) (-52)))) with (2 ^ 52).
    replace (Z.pos n * 2 ^ 52 + 2 ^ 52) with (Z.pos (n + 1) * 2 ^ 52) by lia.
    rewrite normalize_scaled by (assumption || lia).
    f_equal. }
  destruct (53 - Z.pos (Pos.size n)) as [|k|k] eqn:Ek; try lia.
  - apply Hsum; [lia | reflexivity].
  - apply Hsum; [lia|].
    rewrite shift_mul, <- Z.mul_assoc, <- Z.pow_add_r by lia.
    f_equal. f_equal. lia.
Qed.

(** Adding one to an integer from 0 to 2^53 - 1 is exact. *)
Lemma add_one_exact n :
  0 <= n < 2 ^ 53 -> add (of_Z n) (of_Z 1) = of_Z (n + 1).
Proof.
  intros [H0 Hn]. destruct n as [|n|n]; [reflexivity | | lia].
  destruct (Z.eq_dec (Z.pos n + 1) (2 ^ 53)) as [E|E].
  - assert (n = 9007199254740991%positive) by lia. subst n. vm_compute. reflexivity.
  - apply add_one_exact_pos. lia.
Qed.

(** At 2^53 adding one changes nothing: 2^53 + 1 is no double and
    rounds back. *)
Lemma add_one_sticks : add (of_Z (2 ^ 53)) (of_Z 1) = of_Z (2 ^ 53).
Proof. vm_compute. reflexivity. Qed.

(** An integer from 0 to 2^53 - 1 is read back as the count it is. *)
Lemma to_count_of_Z n :
  0 <= n < 2 ^ 53 -> to_count (of_Z n) = Some (Z.to_nat n).
Proof.
  intros [H0 Hn]. destruct n as [|n|n]; [reflexivity | | lia].
  rewrite (of_Z_small n (size_bound n Hn)).
  destruct (53 - Z.pos (Pos.size n)) as [|k|k]; unfold to_count.
  - cbn [Z.leb Z.compare]. f_equal. f_equal. lia.
  - change (0 <=? - Z.pos k) with false. cbv iota.
    rewrite Z.opp_involutive, shift_mul, Z.mod_mul by lia.
    cbn [Z.eqb]. rewrite Z.div_mul by lia. reflexivity.
  - cbn [Z.leb Z.compare]. f_equal. f_equal. lia.
Qed.

Lemma truthy_of_Z n : 0 < n < 2 ^ 53 -> truthy (of_Z n) = true.
Proof.
  intros [H0 Hn]. destruct n as [|n|n]; try lia.
  rewrite (of_Z_small n (size_bound n Hn)).
  destruct (53 - Z.pos (Pos.size n)); reflexivity.
Qed.

(** A number that is a positive count is true in a condition. *)
Lemma truthy_of_count x k : to_count x = Some (S k) -> truthy x = true.
Proof.
  destruct x as [s|s| |s m e]; simpl; try discriminate; reflexivity.
Qed.

End NumberFacts.

Module ProjectFacts.
Import Txn Projects.

Section Access.

Lemma find_project_patched id p (l : list Project) :
  find (fun x => Nat.eqb (_id x) id) (map (patch_where id p) l) =
  option_map (apply_patch p) (find (fun x => Nat.eqb (_id x) id) l).
Proof.
  induction l as [|a l IH]; simpl; [reflexivity|].
  unfold patch_where at 1 2.
  destruct (Nat.eqb (_id a) id) eqn:E; simpl; rewrite E; [reflexivity | exact IH].
Qed.

Lemma found_exists id (l : list Project) x :
  find (fun x => Nat.eqb (_id x) id) l = Some x ->
  existsb (fun x => Nat.eqb (_id x) id) l = true.
Proof.
  intros H. apply find_some in H. apply existsb_exists. exists x. exact H.
Qed.

Lemma in_firstn {A} (n : nat) (l : list A) (x : A) :
  In x (firstn n l) -> In x l.
Proof.
  intros H. rewrite <- (firstn_skipn n l). apply in_or_app. left. exact H.
Qed.

Lemma incrementAccessCount_found now id db x :
  getProject id db = Some x ->
  incrementAccessCount now id db =
  (Returns (plus_one (accessCount x)),
   mkDb (map (patch_where id
                (mkPatch None None None None None (Some now)
                   (Some (plus_one (accessCount x)))))
           (projects db))
        (next_id db)).
Proof.
  intros H. unfold incrementAccessCount, bind. rewrite H. unfold patch.
  rewrite (found_exists id _ x H). reflexivity.
Qed.

Lemma iter_plus_one_shift (k : nat) (c : Number.number) :
  Nat.iter k plus_one (plus_one c) = Nat.iter (S k) plus_one c.
Proof.
  symmetry. apply Nat.iter_succ_r.
Qed.

(** Visit after visit the counter is the one before, plus one. *)
Lemma visits_count (nows : list Z) id db x :
  getProject id db = Some x ->
  fst (visits nows id db) =
  Returns (map (fun k => Nat.iter k plus_one (accessCount x))
             (seq 1 (List.length nows))) /\
  option_map accessCount (getProject id (snd (visits nows id db))) =
  Some (Nat.iter (List.length nows) plus_one (accessCount x)).
Proof.
  revert db x. induction nows as [|now nows IH]; intros db x H.
  - simpl. rewrite H. split; reflexivity.
  - set (db1 := mkDb (map (patch_where id
                             (mkPatch None None None None None (Some now)
                                (Some (plus_one (accessCount x)))))
                        (projects db))
                   (next_id db)).
    assert (Hv : visits (now :: nows) id db =
                 match visits nows id db1 with
                 | (Returns cs, db2) => (Returns (plus_one (accessCount x) :: cs), db2)
                 | (Throws e, db2) => (Throws e, db2)
                 end).
    { cbn [visits]. unfold bind at 1.
      rewrite (incrementAccessCount_found now id db x H). fold db1.
      unfold bind, ret. destruct (visits nows id db1) as [[cs|e] db2]; reflexivity. }
    assert (H1 : getProject id db1 =
                 Some (apply_patch (mkPatch None None None None None (Some now)
                                      (Some (plus_one (accessCount x)))) x)).
    { unfold getProject, db1. cbn [projects]. rewrite find_project_patched.
      unfold getProject in H. now rewrite H. }
    destruct (IH db1 _ H1) as [I1 I2].
    cbn [accessCount apply_patch or_keep p_accessCount] in I1, I2.
    rewrite Hv. destruct (visits nows id db1) as [[cs|e] db2]; cbn [fst snd] in *.
    + injection I1 as ->. split.
      * cbn [List.length seq map]. apply f_equal. apply f_equal2; [reflexivity|].
        rewrite <- (seq_shift (List.length nows) 1), map_map.
        apply map_ext. intros k. apply iter_plus_one_shift.
      * rewrite I2. f_equal. cbn [List.length]. apply iter_plus_one_shift.
    + discriminate.
Qed.

(** Below 2^53 the additions are exact. *)
Lemma iter_plus_one_exact (k : nat) (n : Z) :
  0 <= n -> n + Z.of_nat k <= 2 ^ 53 ->
  Nat.iter k plus_one (Number.of_Z n) = Number.of_Z (n + Z.of_nat k).
Proof.
  induction k as [|k IH]; intros H0 Hk.
  - simpl. f_equal. lia.
  - rewrite Nat.iter_succ, IH by lia. unfold plus_one.
    rewrite NumberFacts.add_one_exact by lia. f_equal. lia.
Qed.

(** From 2^53 on they change nothing. *)
Lemma iter_plus_one_sticks (k : nat) :
  Nat.iter k plus_one (Number.of_Z (2 ^ 53)) = Number.of_Z (2 ^ 53).
Proof.
  induction k as [|k IH]; [reflexivity|].
  rewrite Nat.iter_succ, IH. exact NumberFacts.add_one_sticks.
Qed.

End Access.

(** X11: [incrementAccessCount] on a missing project throws "Project not
    found" and leaves the store as it was.  On a project that is there,
    the k-th of k successive calls returns the stored count after k
    additions of 1 in the arithmetic of doubles, and the last of these is
    the count stored afterwards: for an integer count [n] with [n + k] at
    most 2^53 that is [n + k] exactly, and a count of 2^53 stays 2^53
    however many calls follow. *)
Theorem access_count_adds_up (id : Id) (db : Db) :
  (getProject id db = None ->
   forall now, incrementAccessCount now id db = (Throws (Error "Project not found"), db)) /\
  (forall x nows,
      getProject id db = Some x ->
      fst (visits nows id db) =
      Returns (map (fun k => Nat.iter k plus_one (accessCount x))
                 (seq 1 (List.length nows))) /\
      option_map accessCount (getProject id (snd (visits nows id db))) =
      Some (Nat.iter (List.length nows) plus_one (accessCount x))) /\
  (forall x nows n,
      getProject id db = Some x ->
      accessCount x = Number.of_Z n ->
      0 <= n -> n + Z.of_nat (List.length nows) <= 2 ^ 53 ->
      fst (visits nows id db) =
      Returns (map (fun k => Number.of_Z (n + Z.of_nat k)) (seq 1 (List.length nows))) /\
      option_map accessCount (getProject id (snd (visits nows id db))) =
      Some (Number.of_Z (n + Z.of_nat (List.length nows)))) /\
  (forall x nows,
      getProject id db = Some x ->
      accessCount x = Number.of_Z (2 ^ 53) ->
      fst (visits nows id db) =
      Returns (repeat (Number.of_Z (2 ^ 53)) (List.length nows)) /\
      option_map accessCount (getProject id (snd (visits nows id db))) =
      Some (Number.of_Z (2 ^ 53))).
Proof.
  split; [|split; [|split]].
  - intros H now. unfold incrementAccessCount, bind. rewrite H. reflexivity.
  - intros x nows H. apply visits_count. exact H.
  - intros x nows n H Hn H0 Hk.
    destruct (visits_count nows id db x H) as [V1 V2]. rewrite V1, V2, Hn. split.
    + f_equal. apply map_ext_in. intros k Hin. apply in_seq in Hin.
      apply iter_plus_one_exact; lia.
    + f_equal. apply iter_plus_one_exact; lia.
  - intros x nows H Hn.
    destruct (visits_count nows id db x H) as [V1 V2]. rewrite V1, V2, Hn. split.
    + f_equal. clear V1 V2. generalize 1%nat.
      induction (List.length nows) as [|k IH]; intros start; [reflexivity|].
      cbn [seq map repeat]. rewrite iter_plus_one_sticks. f_equal. apply IH.
    + f_equal. apply iter_plus_one_sticks.
Qed.

Lemma access_count_adds_up_witness :
  fst (visits [5; 6; 7] 0%nat
         (snd (createProject 1 (mkCreateArgs 3%nat "widgets" None None None None cloned)
                 (mkDb [] 0%nat))))
  = Returns [Number.of_Z 1; Number.of_Z 2; Number.of_Z 3].
Proof.
  exact (proj1 (proj1 (proj2 (proj2 (access_count_adds_up 0%nat
                         (snd (createProject 1
                                 (mkCreateArgs 3%nat "widgets" None None None None cloned)
                                 (mkDb [] 0%nat))))))
                      _ [5; 6; 7] 0 eq_refl eq_refl ltac:(lia) ltac:(simpl; lia))).
Defined.

Section Recent.

Lemma filter_both {A} (f g : A -> bool) (l : list A) :
  filter g (filter f l) = filter (fun x => f x && g x) l.
Proof.
  induction l as [|a l IH]; simpl; [reflexivity|].
  destruct (f a); simpl; [destruct (g a); now rewrite IH | exact IH].
Qed.

(** The query for a limit that is a count. *)
Lemma getRecentProjects_count uid limit db k :
  Number.to_count (limit_or_10 limit) = Some k ->
  exists l,
    getRecentProjects uid limit db = Returns l /\
    List.length l = Nat.min k (active_count uid db) /\
    l = firstn k (rev (filter (fun x => Status_eqb (status x) active)
                         (filter (fun x => Nat.eqb (userId x) uid) (projects db)))).
Proof.
  intros H. unfold getRecentProjects, take. rewrite H. eexists.
  split; [reflexivity | split; [|reflexivity]].
  rewrite length_firstn, length_rev, filter_both. reflexivity.
Qed.

Lemma limit_default limit :
  limit = None \/ (exists s, limit = Some (S754_zero s)) \/ limit = Some S754_nan ->
  Number.to_count (limit_or_10 limit) = Some 10%nat.
Proof.
  intros [-> | [[s ->] | ->]]; reflexivity.
Qed.

Lemma limit_whole k :
  0 < k < 2 ^ 53 ->
  Number.to_count (limit_or_10 (Some (Number.of_Z k))) = Some (Z.to_nat k).
Proof.
  intros Hk. unfold limit_or_10. rewrite NumberFacts.truthy_of_Z by exact Hk.
  apply NumberFacts.to_count_of_Z. lia.
Qed.

Lemma limit_unfit l :
  Number.to_count l = None -> l <> S754_nan ->
  Number.to_count (limit_or_10 (Some l)) = None.
Proof.
  intros H Hn. unfold limit_or_10.
  destruct l as [s|s| |s m e]; try discriminate; try contradiction; exact H.
Qed.

Lemma returned_are_active uid limit db l x :
  getRecentProjects uid limit db = Returns l -> In x l ->
  In x (projects db) /\ userId x = uid /\ status x = active.
Proof.
  unfold getRecentProjects, take. destruct (Number.to_count _); [|discriminate].
  intros E H. injection E as <-.
  apply in_firstn, in_rev in H. rewrite !filter_In in H.
  destruct H as [[H Hu] Hs]. repeat split.
  - exact H.
  - now apply Nat.eqb_eq.
  - destruct (status x); try discriminate; reflexivity.
Qed.

End Recent.

(** X12: the project that [createProject] has just inserted is active,
    its access count is 0, its branch is "main" when none, or an empty
    one, was given, and it is the first of its owner's recent projects
    whenever the query returns: with no limit, with a limit of 0 or NaN
    (which count as 10) and with a limit that is a positive integer.  With
    any other limit, negative, fractional or infinite, the query
    throws. *)
Theorem created_project_is_most_recent (now : Z) (a : CreateArgs) (db : Db) :
  exists x,
    fst (createProject now a db) = Returns (_id x) /\
    status x = active /\ accessCount x = Number.of_Z 0 /\ createdAt x = now /\
    lastCommitHash x = None /\
    gitBranch x = Some (branch_or_main (a_gitBranch a)) /\
    (a_gitBranch a = None \/ a_gitBranch a = Some EmptyString ->
     gitBranch x = Some "main") /\
    (forall limit,
        limit = None \/ (exists s, limit = Some (S754_zero s)) \/ limit = Some S754_nan ->
        exists l,
          getRecentProjects (a_userId a) limit (snd (createProject now a db)) = Returns l
          /\ hd_error l = Some x) /\
    (forall k,
        0 < k < 2 ^ 53 ->
        exists l,
          getRecentProjects (a_userId a) (Some (Number.of_Z k))
            (snd (createProject now a db)) = Returns l
          /\ hd_error l = Some x) /\
    (forall n k,
        Number.to_count n = Some (S k) ->
        exists l,
          getRecentProjects (a_userId a) (Some n) (snd (createProject now a db))
          = Returns l
          /\ hd_error l = Some x) /\
    (forall n,
        Number.to_count n = None -> n <> S754_nan ->
        exists e,
          getRecentProjects (a_userId a) (Some n) (snd (createProject now a db))
          = Throws e).
Proof.
  eexists (mkProject _ _ _ _ _ _ _ _ _ _ _ _ _).
  split; [reflexivity|]. do 5 (split; [reflexivity|]).
  split; [intros [H|H]; cbn [gitBranch]; rewrite H; reflexivity|].
  assert (Hhead : forall limit k,
             Number.to_count (limit_or_10 limit) = Some (S k) ->
             exists l,
               getRecentProjects (a_userId a) limit (snd (createProject now a db))
               = Returns l /\
               hd_error l =
               Some (mkProject (next_id db) (a_userId a) (a_name a) (a_description a)
                       (a_gitUrl a) (Some (branch_or_main (a_gitBranch a)))
                       (or_false (a_isPrivateRepo a)) None (a_projectType a)
                       active now now (Number.of_Z 0))).
  { intros limit k Hk.
    destruct (getRecentProjects_count (a_userId a) limit
                (snd (createProject now a db)) _ Hk) as [l [Hl [_ ->]]].
    eexists. split; [exact Hl|].
    unfold createProject. cbn [snd projects].
    rewrite !filter_app. cbn [filter userId status Status_eqb].
    rewrite Nat.eqb_refl. cbn [filter status Status_eqb app].
    rewrite rev_app_distr. reflexivity. }
  split; [|split; [|split]].
  - intros limit Hl. apply (Hhead limit 9%nat). apply limit_default. exact Hl.
  - intros k Hk.
    destruct (Z.to_nat k) as [|k'] eqn:E; [lia|].
    apply (Hhead _ k'). rewrite limit_whole by exact Hk. now rewrite E.
  - intros n k Hn. apply (Hhead _ k). unfold limit_or_10.
    now rewrite (NumberFacts.truthy_of_count n k Hn).
  - intros n Hn Hnan. unfold getRecentProjects, take.
    rewrite (limit_unfit n Hn Hnan). eexists. reflexivity.
Qed.

(** X13: when [getRecentProjects] returns, every project it gives is an
    active one of the user, and a project that [archiveProject] has
    archived is not among them.  With no limit, or a limit of 0 or NaN,
    it returns the 10 newest of them, or all when there are fewer; with a
    limit that is a positive integer below 2^53, that many; with a limit
    that is negative, fractional or infinite it throws. *)
Theorem recent_projects_are_active (uid : Id) (db : Db) :
  (forall limit l x,
      getRecentProjects uid limit db = Returns l -> In x l ->
      In x (projects db) /\ userId x = uid /\ status x = active) /\
  (forall limit,
      limit = None \/ (exists s, limit = Some (S754_zero s)) \/ limit = Some S754_nan ->
      exists l,
        getRecentProjects uid limit db = Returns l /\
        List.length l = Nat.min 10 (active_count uid db)) /\
  (forall k,
      0 < k < 2 ^ 53 ->
      exists l,
        getRecentProjects uid (Some (Number.of_Z k)) db = Returns l /\
        List.length l = Nat.min (Z.to_nat k) (active_count uid db)) /\
  (forall n,
      Number.to_count n = None -> n <> S754_nan ->
      exists e, getRecentProjects uid (Some n) db = Throws e) /\
  (forall limit now id l x,
      getRecentProjects uid limit (snd (archiveProject now id db)) = Returns l ->
      In x l -> _id x <> id).
Proof.
  split; [|split; [|split; [|split]]].
  - intros limit l x. apply returned_are_active.
  - intros limit Hl.
    destruct (getRecentProjects_count uid limit db _ (limit_default limit Hl))
      as [l [H1 [H2 _]]].
    exists l. split; assumption.
  - intros k Hk.
    destruct (getRecentProjects_count uid _ db _ (limit_whole k Hk)) as [l [H1 [H2 _]]].
    exists l. split; assumption.
  - intros n Hn Hnan. unfold getRecentProjects, take.
    rewrite (limit_unfit n Hn Hnan). eexists. reflexivity.
  - intros limit now id l x Hl H Hid.
    destruct (returned_are_active _ _ _ _ _ Hl H) as [Hx [_ Hst]].
    unfold archiveProject, bind, patch in Hx.
    destruct (existsb _ _) eqn:Ex; cbn [snd projects] in Hx.
    + apply in_map_iff in Hx. destruct Hx as [x0 [E Hx0]].
      assert (H0 : _id x0 = id).
      { rewrite <- Hid, <- E. unfold patch_where.
        destruct (Nat.eqb (_id x0) id); reflexivity. }
      unfold patch_where in E. rewrite H0, Nat.eqb_refl in E.
      rewrite <- E in Hst. discriminate.
    + assert (Hf : existsb (fun x => Nat.eqb (_id x) id) (projects db) = true).
      { apply existsb_exists. exists x. split; [exact Hx | now apply Nat.eqb_eq]. }
      congruence.
Qed.

(** A limit of 2 gives the two newest, a limit of -1 and a limit of 1/2
    make the query throw. *)
Lemma recent_projects_are_active_witness :
  (exists l,
      getRecentProjects 3%nat (Some (Number.of_Z 2))
        (snd (createProject 1
                (mkCreateArgs 3%nat "widgets" None None None None cloned)
                (mkDb [] 0%nat))) = Returns l /\
      List.length l = 1%nat) /\
  (exists e,
      getRecentProjects 3%nat (Some (S754_finite true 4503599627370496 (-52)))
        (mkDb [] 0%nat) = Throws e) /\
  (exists e,
      getRecentProjects 3%nat (Some (S754_finite false 4503599627370496 (-53)))
        (mkDb [] 0%nat) = Throws e).
Proof.
  split; [|split].
  - exact (proj1 (proj2 (proj2 (recent_projects_are_active 3%nat
                                  (snd (createProject 1
                                          (mkCreateArgs 3%nat "widgets" None None None
                                             None cloned)
                                          (mkDb [] 0%nat)))))) 2 ltac:(lia)).
  - exact (proj1 (proj2 (proj2 (proj2 (recent_projects_are_active 3%nat (mkDb [] 0%nat)))))
             (S754_finite true 4503599627370496 (-52)) eq_refl ltac:(discriminate)).
  - exact (proj1 (proj2 (proj2 (proj2 (recent_projects_are_active 3%nat (mkDb [] 0%nat)))))
             (S754_finite false 4503599627370496 (-53)) eq_refl ltac:(discriminate)).
Defined.

End ProjectFacts.

(** * Further properties of the git helpers *)

Module GitFacts.
Import JsString JsText Regex GitUtils GitHubApi GitHelpers.

Section Inversion.

Lemma try_lengths_some (n : nat) (s : string) (caps r : Captures) (k : Cont) :
  try_lengths n s caps k = Some r ->
  exists j, (1 <= j <= n)%nat /\ k (drop j s) caps = Some r.
Proof.
  induction n as [|n IH]; intros H; [discriminate|].
  cbn [try_lengths] in H.
  destruct (k (drop (S n) s) caps) as [r'|] eqn:E.
  - injection H as <-. exists (S n). split; [lia | exact E].
  - destruct (IH H) as [j [Hj Hk]]. exists j. split; [lia | exact Hk].
Qed.

Lemma run_length_le (c : CharSet) (s : string) :
  (run_length c s <= String.length s)%nat.
Proof.
  induction s as [|a s IH]; simpl; [lia|].
  destruct (in_class c a); simpl; lia.
Qed.

Lemma length_drop (j : nat) (s : string) :
  (j <= String.length s)%nat ->
  String.length (drop j s) = (String.length s - j)%nat.
Proof.
  revert s. induction j as [|j IH]; intros s H; simpl.
  - lia.
  - destruct s as [|a s]; simpl in *; [lia | apply IH; lia].
Qed.

Lemma run_prefix_in_class (c : CharSet) (s : string) (j : nat) :
  (j <= run_length c s)%nat ->
  all_chars (in_class c) (substring 0 j s) = true.
Proof.
  revert j. induction s as [|a s IH]; intros j H; simpl in *.
  - destruct j; reflexivity.
  - destruct j as [|j]; [reflexivity|].
    destruct (in_class c a) eqn:Ha; [|lia].
    simpl. rewrite Ha. apply IH. lia.
Qed.

Lemma length_substring_prefix (s : string) (j : nat) :
  (j <= String.length s)%nat -> String.length (substring 0 j s) = j.
Proof.
  revert j. induction s as [|a s IH]; intros j H; simpl in *.
  - assert (j = O) by lia. subst. reflexivity.
  - destruct j as [|j]; [reflexivity|]. simpl. rewrite IH; lia.
Qed.

(** What a captured run hands on when it matches. *)
Lemma group_many1_some (c : CharSet) (s : string) (caps r : Captures) (k : Cont) :
  matches (Group (Many1 c)) s caps k = Some r ->
  exists run,
    run <> EmptyString /\ all_chars (in_class c) run = true /\
    k (drop (String.length run) s) (caps ++ [run])%list = Some r.
Proof.
  intros H. cbn [matches] in H. apply try_lengths_some in H.
  destruct H as [j [Hj Hk]].
  pose proof (run_length_le c s) as Hle.
  rewrite length_drop in Hk by lia.
  replace (String.length s - (String.length s - j))%nat with j in Hk by lia.
  exists (substring 0 j s). split; [|split].
  - intros E. pose proof (length_substring_prefix s j ltac:(lia)) as L.
    rewrite E in L. simpl in L. lia.
  - apply run_prefix_in_class. lia.
  - rewrite length_substring_prefix by lia. exact Hk.
Qed.

Lemma strip_prefix_some (p s r : string) :
  strip_prefix p s = Some r -> s = (p ++ r)%string.
Proof.
  revert s. induction p as [|a p IH]; intros s H; simpl in H.
  - injection H as <-. reflexivity.
  - destruct s as [|b s]; [discriminate|].
    destruct (Ascii.eqb_spec a b) as [->|]; [|discriminate].
    simpl. f_equal. apply IH. exact H.
Qed.

(** A match of the shared tail captures an owner and a name. *)
Lemma repo_tail_some (s : string) (caps r : Captures) :
  matches repo_tail s caps accept = Some r ->
  exists o n, r = (caps ++ [o; n])%list /\
              valid_owner o = true /\ valid_name n = true.
Proof.
  intros H. unfold repo_tail in H. rewrite matches_seq in H.
  apply group_many1_some in H. destruct H as [o [Ho1 [Ho2 H]]].
  rewrite matches_seq, matches_lit in H.
  destruct (strip_prefix "/" (drop (String.length o) s)) as [rest|]; [|discriminate].
  apply group_many1_some in H. destruct H as [n [Hn1 [Hn2 H]]].
  unfold accept in H. injection H as <-.
  exists o, n. split; [now rewrite <- app_assoc|].
  unfold valid_owner, valid_name. rewrite Ho2, Hn2.
  destruct o; [congruence|]. destruct n; [congruence|]. split; reflexivity.
Qed.

Lemma search_some (pre s : string) (r : Captures) :
  search (repo_pattern pre) s = Some r ->
  exists o n, r = [o; n] /\ valid_owner o = true /\ valid_name n = true.
Proof.
  assert (Hm : forall t, matches (repo_pattern pre) t [] accept = Some r ->
                 exists o n, r = [o; n] /\ valid_owner o = true /\ valid_name n = true).
  { intros t H. unfold repo_pattern in H. rewrite matches_seq, matches_lit in H.
    destruct (strip_prefix pre t) as [rest|]; [|discriminate].
    exact (repo_tail_some rest [] r H). }
  induction s as [|a s IH]; intros H.
  - unfold search in H.
    destruct (matches (repo_pattern pre) EmptyString [] accept) eqn:E; [|discriminate].
    injection H as <-. apply (Hm EmptyString). exact E.
  - rewrite search_cons in H.
    destruct (matches (repo_pattern pre) (String a s) [] accept) eqn:E.
    + injection H as <-. apply (Hm (String a s)). exact E.
    + apply IH. exact H.
Qed.

End Inversion.

(** X14: whatever [parseGitUrl] returns is well formed: the owner is not
    empty and holds no slash, the name is not empty and holds neither a
    slash nor a question mark, the address is the one given, the branch is
    "main" and the repository is reported as public. *)
Theorem parseGitUrl_sound (gitUrl : string) (info : GitRepoInfo)
    (Hparsed : parseGitUrl gitUrl = Some info) :
  valid_owner (owner info) = true /\ valid_name (name info) = true /\
  url info = gitUrl /\ branch info = "main" /\ GitUtils.isPrivate info = false.
Proof.
  unfold parseGitUrl in Hparsed.
  set (clean := if endsWith gitUrl ".git" then slice_to_minus 4 gitUrl else gitUrl)
    in Hparsed.
  destruct (search httpsPattern clean) as [m|] eqn:E1.
  - destruct (search_some "https://github.com/" clean m E1) as [o [n [-> [Ho Hn]]]].
    unfold repo_of_match in Hparsed. injection Hparsed as <-.
    cbn [owner name url branch GitUtils.isPrivate]. repeat split; assumption.
  - destruct (search sshPattern clean) as [m|] eqn:E2; [|discriminate].
    destruct (search_some "git@github.com:" clean m E2) as [o [n [-> [Ho Hn]]]].
    unfold repo_of_match in Hparsed. injection Hparsed as <-.
    cbn [owner name url branch GitUtils.isPrivate]. repeat split; assumption.
Qed.

Lemma parseGitUrl_sound_witness :
  exists info, parseGitUrl "see https://github.com/acme/widgets/tree/main" = Some info /\
               valid_owner (owner info) = true /\ valid_name (name info) = true.
Proof.
  eexists. split; [reflexivity|].
  destruct (parseGitUrl_sound "see https://github.com/acme/widgets/tree/main" _ eq_refl)
    as [H1 [H2 _]].
  split; [exact H1 | exact H2].
Defined.

(** X15: [generateProjectName] never gives an empty name, so what it
    suggests passes the clone route's check on [projectName]; for an
    address in either spelling, with or without the suffix, it gives the
    repository name. *)
Theorem generateProjectName_nonempty (gitUrl : string) :
  generateProjectName gitUrl <> EmptyString /\
  (forall o n,
      valid_owner o = true -> valid_name n = true -> endsWith n ".git" = false ->
      (gitUrl = https_form o n \/ gitUrl = ssh_form o n \/
       gitUrl = (https_form o n ++ ".git")%string \/
       gitUrl = (ssh_form o n ++ ".git")%string) ->
      generateProjectName gitUrl = n).
Proof.
  split.
  - unfold generateProjectName.
    destruct (parseGitUrl gitUrl) as [info|] eqn:E.
    + destruct (parseGitUrl_sound gitUrl info E) as [_ [Hn _]].
      unfold valid_name in Hn. intros H. rewrite H in Hn. discriminate.
    + cbv zeta. destruct (nonempty _) eqn:Hne.
      * unfold nonempty in Hne. intros H. rewrite H in Hne. discriminate.
      * discriminate.
  - intros o n Ho Hn Hs Hform. unfold generateProjectName.
    assert (Hname : owner_name (parseGitUrl gitUrl) = Some (o, n)).
    { destruct Hform as [H|[H|[H|H]]]; rewrite H.
      - apply parse_https_plain; assumption.
      - apply parse_ssh_plain; assumption.
      - apply parse_https_suffixed; assumption.
      - apply parse_ssh_suffixed; assumption. }
    destruct (parseGitUrl gitUrl) as [info|]; [|discriminate].
    simpl in Hname. congruence.
Qed.

Section Rewriting.

Lemma split_nonempty (c : ascii) (s : string) : split c s <> [].
Proof.
  induction s as [|a s IH]; simpl; [discriminate|].
  destruct (Ascii.eqb a c); [discriminate|].
  destruct (split c s); [contradiction | discriminate].
Qed.

Lemma join_cons (sep p : string) (rest : list string) :
  rest <> [] -> join sep (p :: rest) = (p ++ sep ++ join sep rest)%string.
Proof. destruct rest; [contradiction | reflexivity]. Qed.

(** Splitting at a character and joining with it gives the text back. *)
Lemma join_split (c : ascii) (s : string) :
  join (String c EmptyString) (split c s) = s.
Proof.
  induction s as [|a s IH]; [reflexivity|].
  cbn [split]. destruct (Ascii.eqb_spec a c) as [->|Hne].
  - rewrite join_cons by apply split_nonempty. rewrite IH. reflexivity.
  - pose proof (split_nonempty c s) as Hn.
    destruct (split c s) as [|first rest]; [contradiction|].
    destruct rest as [|r rest].
    + simpl in *. now rewrite IH.
    + rewrite join_cons by discriminate.
      rewrite join_cons in IH by discriminate.
      simpl. now rewrite <- IH.
Qed.

(** The route's rewriting on an address with a slash after the scheme. *)
Lemma split_host (host rest : string) :
  all_chars (fun a => negb (Ascii.eqb a "/")) host = true ->
  split "/" (host ++ String "/" rest) = host :: split "/" rest.
Proof.
  induction host as [|a host IH]; intros H; simpl in *.
  - reflexivity.
  - apply andb_true_iff in H. destruct H as [Ha Hh].
    apply negb_true_iff in Ha. rewrite Ha, (IH Hh). reflexivity.
Qed.

End Rewriting.

(** X16: [createAuthenticatedGitUrl] turns the HTTPS and the SSH spelling
    of a repository into the same address,
    [https://<token>@github.com/<owner>/<name>], and gives back unchanged
    any address that starts with neither prefix. *)
Theorem createAuthenticatedGitUrl_forms (token : string) :
  (forall o n,
      createAuthenticatedGitUrl (https_form o n) token =
      ("https://" ++ token ++ "@github.com/" ++ o ++ "/" ++ n)%string /\
      createAuthenticatedGitUrl (ssh_form o n) token =
      ("https://" ++ token ++ "@github.com/" ++ o ++ "/" ++ n)%string) /\
  (forall u,
      startsWith u "https://github.com/" = false ->
      startsWith u "git@github.com:" = false ->
      createAuthenticatedGitUrl u token = u).
Proof.
  split.
  - intros o n. split; reflexivity.
  - intros u H1 H2. unfold createAuthenticatedGitUrl. now rewrite H1, H2.
Qed.

(** X17: for a private repository with a token, the clone route rewrites
    an address [https://<host>/<path>] to [https://<token>@<host>/<path>],
    which for a GitHub address is what [createAuthenticatedGitUrl] gives;
    without a token, with an empty one, or for a repository that is not
    private, the address is used as it is. *)
Theorem route_embeds_token (d : CloneRoute.CloneData) :
  (forall token host path,
      CloneRoute.isPrivate d = true ->
      CloneRoute.accessToken d = Some token -> token <> EmptyString ->
      all_chars (fun a => negb (Ascii.eqb a "/")) host = true ->
      CloneRoute.gitUrl d = ("https://" ++ host ++ "/" ++ path)%string ->
      CloneRoute.authGitUrl d = ("https://" ++ token ++ "@" ++ host ++ "/" ++ path)%string /\
      (host = "github.com" ->
       CloneRoute.authGitUrl d = createAuthenticatedGitUrl (CloneRoute.gitUrl d) token)) /\
  (CloneRoute.isPrivate d = false \/ CloneRoute.accessToken d = None \/
   CloneRoute.accessToken d = Some EmptyString ->
   CloneRoute.authGitUrl d = CloneRoute.gitUrl d).
Proof.
  split.
  - intros token host path Hp Ht Hne Hhost Hurl.
    assert (Hauth : CloneRoute.authGitUrl d =
                    ("https://" ++ token ++ "@" ++ host ++ "/" ++ path)%string).
    { unfold CloneRoute.authGitUrl. rewrite Ht, Hp, Hurl.
      assert (Hn : nonempty token = true).
      { unfold nonempty. destruct token; [congruence | reflexivity]. }
      rewrite Hn. cbn [andb].
      change (replace_first "https://" "" ("https://" ++ host ++ "/" ++ path))
        with (host ++ String "/" path)%string.
      rewrite (split_host host path Hhost). cbv iota.
      rewrite (join_split "/" path). reflexivity. }
    split; [exact Hauth|].
    intros ->. rewrite Hauth, Hurl. reflexivity.
  - intros H. unfold CloneRoute.authGitUrl.
    destruct H as [H|[H|H]]; rewrite H.
    + destruct (CloneRoute.accessToken d); reflexivity.
    + reflexivity.
    + now rewrite andb_false_r.
Qed.

Lemma route_embeds_token_witness :
  CloneRoute.authGitUrl
    (CloneRoute.mkCloneData "https://github.com/acme/widgets" "main" "widgets" None
       true (Some "tok") None)
  = createAuthenticatedGitUrl "https://github.com/acme/widgets" "tok".
Proof.
  exact (proj2 (proj1 (route_embeds_token
                         (CloneRoute.mkCloneData "https://github.com/acme/widgets"
                            "main" "widgets" None true (Some "tok") None))
                      "tok" "github.com" "acme/widgets" eq_refl eq_refl
                      ltac:(discriminate) eq_refl eq_refl)
               eq_refl).
Defined.

(** X18: [isValidGitUrl] accepts only addresses that start with
    [https://github.com/] or with [git@github.com:]. *)
Theorem isValidGitUrl_prefix (u : string) (Hvalid : isValidGitUrl u = true) :
  startsWith u "https://github.com/" = true \/ startsWith u "git@github.com:" = true.
Proof.
  unfold isValidGitUrl, match_at_start, gitUrlPattern in Hvalid.
  rewrite matches_seq, matches_group, matches_alt in Hvalid.
  rewrite matches_seq, matches_lit in Hvalid. unfold startsWith.
  destruct (strip_prefix "https://github.com/" u) as [r1|]; [left; reflexivity|].
  rewrite matches_seq, matches_lit in Hvalid.
  destruct (strip_prefix "git@github.com:" u) as [r2|]; [right; reflexivity|].
  discriminate.
Qed.

Lemma isValidGitUrl_prefix_witness :
  startsWith "git@github.com:acme/widgets" "https://github.com/" = true \/
  startsWith "git@github.com:acme/widgets" "git@github.com:" = true.
Proof. exact (isValidGitUrl_prefix "git@github.com:acme/widgets" eq_refl). Defined.

Section DefaultBranch.

Lemma getDefaultBranch_calls (gitUrl : string) (token : string) :
  every_call (authorized token) (getDefaultBranch gitUrl (Some token)).
Proof.
  unfold getDefaultBranch. apply every_call_pbind.
  - destruct (parseGitUrl gitUrl) as [repoInfo|]; [|constructor].
    destruct (nonempty token); [|constructor].
    unfold Interaction.bind, Interaction.perform. cbn [Interaction.pbind].
    constructor; [reflexivity|].
    intros [response|e]; [|constructor].
    unfold Interaction.lift, Interaction.ret. settle_calls.
  - intros [v|e]; constructor.
Qed.

Lemma or_else_truthy (v : Js.value) : Js.truthy (Js.or_else v (Js.str "main")) = true.
Proof. unfold Js.or_else. destruct (Js.truthy v) eqn:E; [exact E | reflexivity]. Qed.

End DefaultBranch.

(** X19: [getDefaultBranch] sends no request when no token, or an empty
    one, is given, and answers "main"; with a token every request it
    sends carries the token in its [Authorization] header; and whatever
    the answers, the branch it gives is never empty or undefined. *)
Theorem getDefaultBranch_behaviour (gitUrl : string) :
  getDefaultBranch gitUrl None = Interaction.Done (Js.str "main") /\
  getDefaultBranch gitUrl (Some EmptyString) = Interaction.Done (Js.str "main") /\
  (forall token (env : Interaction.Env Event),
      Forall (authorized token)
        (fst (Interaction.run env (getDefaultBranch gitUrl (Some token))))) /\
  (forall token (env : Interaction.Env Event),
      Js.truthy (snd (Interaction.run env (getDefaultBranch gitUrl token))) = true).
Proof.
  split; [|split; [|split]].
  - unfold getDefaultBranch. destruct (parseGitUrl gitUrl); reflexivity.
  - unfold getDefaultBranch. destruct (parseGitUrl gitUrl); reflexivity.
  - intros token env. apply every_call_run. apply getDefaultBranch_calls.
  - intros token env. unfold getDefaultBranch.
    destruct (parseGitUrl gitUrl) as [repoInfo|]; [|reflexivity].
    destruct token as [token|]; [|reflexivity].
    destruct (nonempty token); [|reflexivity].
    unfold Interaction.bind, Interaction.perform, Interaction.lift, Interaction.ret.
    cbn [Interaction.pbind Interaction.run].
    destruct (env _ _) as [response|e]; [|reflexivity].
    cbn. destruct (ok response); [|reflexivity].
    cbn. destruct (json response) as [data|e]; [|reflexivity].
    cbn. destruct (Js.get data "default_branch") as [b|e]; [|reflexivity].
    cbn. apply or_else_truthy.
Qed.

End GitFacts.

(** * Further properties of the clone route *)

Module CloneFacts2.
Import Interaction CloneRoute CloneCalls.

Section Early.
Variable is_url : string -> bool.
Variable JSON_parse : string -> option Js.value.
Variable env : Env Event.

Lemma cloneSchema_rejects_projectName (fields : list (string * Js.value)) :
  (forall p, Js.lookup "projectName" fields = Js.str p -> p = EmptyString) ->
  exists issues,
    cloneSchema_parse is_url (Js.object fields) = Throws (ZodError issues) /\
    In "projectName" issues.
Proof.
  intros H. unfold cloneSchema_parse.
  assert (E : z_check (fun s => (1 <=? String.length s)%nat)
                (z_string (Js.lookup "projectName" fields)) = None).
  { destruct (Js.lookup "projectName" fields) as [| |b|n|p|l|l] eqn:L; try reflexivity.
    simpl. now rewrite (H p eq_refl). }
  rewrite E.
  destruct (z_check is_url _), (z_default z_string "main" _);
    (eexists; split; [reflexivity|]); simpl; auto.
Qed.

End Early.

(** X20: the route ends before it reaches the sandbox provider, and
    before it looks at the body, when there is no session (status 401);
    it ends after the session lookup alone when the body cannot be read
    (status 500) and when [projectName] is missing, is not a string or is
    empty (status 400, with [projectName] among the issues). *)
Theorem route_ends_early (is_url : string -> bool)
    (JSON_parse : string -> option Js.value) (env : Env Event) :
  (env _ GetSession = Returns None ->
   forall request,
     run env (POST is_url JSON_parse request) =
     ([call GetSession], mkResponse 401 (ErrorBody (Js.str "Unauthorized") None))) /\
  (forall session e,
      env _ GetSession = Returns (Some session) ->
      run env (POST is_url JSON_parse (Throws (Error e))) =
      ([call GetSession], internal_error)) /\
  (forall session fields,
      env _ GetSession = Returns (Some session) ->
      (forall p, Js.lookup "projectName" fields = Js.str p -> p = EmptyString) ->
      exists issues,
        In "projectName" issues /\
        run env (POST is_url JSON_parse (Returns (Js.object fields))) =
        ([call GetSession],
         mkResponse 400 (ErrorBody (Js.str "Invalid request data") (Some issues)))).
Proof.
  split; [|split].
  - intros Hs request. unfold POST. rewrite run_pbind.
    rewrite (run_bind_returns env _ _ _ None) by (rewrite run_perform, Hs; reflexivity).
    reflexivity.
  - intros session e Hs. unfold POST. rewrite run_pbind.
    rewrite (run_bind_returns env _ _ _ (Some session))
      by (rewrite run_perform, Hs; reflexivity).
    rewrite (run_bind_throws env _ _ [] (Error e)) by reflexivity.
    reflexivity.
  - intros session fields Hs Hp.
    destruct (cloneSchema_rejects_projectName is_url fields Hp) as [issues [Hrej Hin]].
    exists issues. split; [exact Hin|].
    exact (run_POST_rejected is_url JSON_parse env _ session issues Hs Hrej).
Qed.

Lemma route_ends_early_witness :
  exists issues,
    In "projectName" issues /\
    run CloneSamples.env_no_run_script
      (POST CloneSamples.sample_is_url CloneSamples.sample_JSON_parse
         (Returns (Js.object [("gitUrl", Js.str "https://github.com/acme/widgets");
                              ("projectName", Js.str "")]))) =
    ([call GetSession],
     mkResponse 400 (ErrorBody (Js.str "Invalid request data") (Some issues))).
Proof.
  apply (proj2 (proj2 (route_ends_early CloneSamples.sample_is_url
                         CloneSamples.sample_JSON_parse CloneSamples.env_no_run_script))
           "user-1" _ eq_refl).
  intros p Hp. injection Hp as <-. reflexivity.
Defined.

Section Bootstrap.
Variable is_url : string -> bool.
Variable JSON_parse : string -> option Js.value.
Variable env : Env Event.

(** The inner block when the inspection reports success and no manifest. *)
Lemma run_clone_into_no_manifest sb d target cr chk v w :
  env _ (RunCode sb (CloneScript (cloneCommand d) (projectName d))) = Returns cr ->
  env _ (RunCode sb (CheckScript (projectName d))) = Returns chk ->
  Js.get (read_project_info JSON_parse chk) "success" = Returns v ->
  Js.truthy v = true ->
  Js.get (read_project_info JSON_parse chk) "hasPackageJson" = Returns w ->
  Js.truthy w = false ->
  run env (clone_into JSON_parse sb d target) =
  ([call (RunCode sb (CloneScript (cloneCommand d) (projectName d)));
    call (RunCode sb (CheckScript (projectName d)))],
   Returns (mkResponse 200
              (SuccessBody target (projectName d)
                 (read_project_info JSON_parse chk) None
                 ("Repository '" ++ gitUrl d ++ "' cloned successfully!")))).
Proof.
  intros Hclone Hcheck Hok Hv Hpkg Hw. unfold clone_into.
  rewrite (run_bind_returns env _ _ _ cr) by (rewrite run_perform, Hclone; reflexivity).
  rewrite (run_bind_returns env _ _ _ chk) by (rewrite run_perform, Hcheck; reflexivity).
  rewrite (run_bind_returns env _ _ _ v) by (rewrite run_lift, Hok; reflexivity).
  rewrite Hv. cbn [negb].
  rewrite (run_bind_returns env _ _ _ w) by (rewrite run_lift, Hpkg; reflexivity).
  rewrite Hw.
  rewrite (run_bind_returns env _ _ [] tt) by (rewrite run_ret; reflexivity).
  rewrite (run_bind_returns env _ _ _ _
             (run_startDevServer_no_manifest env sb _ _ w Hpkg Hw)).
  rewrite run_ret. reflexivity.
Qed.

(** The inner block when the install call throws. *)
Lemma run_clone_into_install_throws sb d target cr chk v w e :
  env _ (RunCode sb (CloneScript (cloneCommand d) (projectName d))) = Returns cr ->
  env _ (RunCode sb (CheckScript (projectName d))) = Returns chk ->
  Js.get (read_project_info JSON_parse chk) "success" = Returns v ->
  Js.truthy v = true ->
  Js.get (read_project_info JSON_parse chk) "hasPackageJson" = Returns w ->
  Js.truthy w = true ->
  env _ (RunCode sb (InstallScript (projectName d))) = Throws e ->
  run env (clone_into JSON_parse sb d target) =
  ([call (RunCode sb (CloneScript (cloneCommand d) (projectName d)));
    call (RunCode sb (CheckScript (projectName d)));
    call (RunCode sb (InstallScript (projectName d)))],
   Throws e).
Proof.
  intros Hclone Hcheck Hok Hv Hpkg Hw Hinstall. unfold clone_into.
  rewrite (run_bind_returns env _ _ _ cr) by (rewrite run_perform, Hclone; reflexivity).
  rewrite (run_bind_returns env _ _ _ chk) by (rewrite run_perform, Hcheck; reflexivity).
  rewrite (run_bind_returns env _ _ _ v) by (rewrite run_lift, Hok; reflexivity).
  rewrite Hv. cbn [negb].
  rewrite (run_bind_returns env _ _ _ w) by (rewrite run_lift, Hpkg; reflexivity).
  rewrite Hw.
  rewrite (run_bind_throws env _ _ [call (RunCode sb (InstallScript (projectName d)))] e)
    by (rewrite (run_bind_throws env _ _ [call (RunCode sb (InstallScript (projectName d)))] e)
          by (rewrite run_perform, Hinstall; reflexivity);
        reflexivity).
  reflexivity.
Qed.

(** The inner block when the launch call throws. *)
Lemma run_clone_into_launch_throws sb d target cr chk v w ir e :
  env _ (RunCode sb (CloneScript (cloneCommand d) (projectName d))) = Returns cr ->
  env _ (RunCode sb (CheckScript (projectName d))) = Returns chk ->
  Js.get (read_project_info JSON_parse chk) "success" = Returns v ->
  Js.truthy v = true ->
  Js.get (read_project_info JSON_parse chk) "hasPackageJson" = Returns w ->
  Js.truthy w = true ->
  env _ (RunCode sb (InstallScript (projectName d))) = Returns ir ->
  env _ (RunCode sb (StartScript (projectName d))) = Throws e ->
  run env (clone_into JSON_parse sb d target) =
  ([call (RunCode sb (CloneScript (cloneCommand d) (projectName d)));
    call (RunCode sb (CheckScript (projectName d)));
    call (RunCode sb (InstallScript (projectName d)));
    call (RunCode sb (StartScript (projectName d)))],
   Returns (mkResponse 200
              (SuccessBody target (projectName d)
                 (read_project_info JSON_parse chk) None
                 ("Repository '" ++ gitUrl d ++ "' cloned successfully!")))).
Proof.
  intros Hclone Hcheck Hok Hv Hpkg Hw Hinstall Hstart. unfold clone_into.
  rewrite (run_bind_returns env _ _ _ cr) by (rewrite run_perform, Hclone; reflexivity).
  rewrite (run_bind_returns env _ _ _ chk) by (rewrite run_perform, Hcheck; reflexivity).
  rewrite (run_bind_returns env _ _ _ v) by (rewrite run_lift, Hok; reflexivity).
  rewrite Hv. cbn [negb].
  rewrite (run_bind_returns env _ _ _ w) by (rewrite run_lift, Hpkg; reflexivity).
  rewrite Hw.
  rewrite (run_bind_returns env _ _ [call (RunCode sb (InstallScript (projectName d)))] tt)
    by (rewrite (run_bind_returns env _ _ _ ir)
          by (rewrite run_perform, Hinstall; reflexivity);
        rewrite run_ret; reflexivity).
  rewrite (run_bind_returns env _ _ _ _
             (run_startDevServer_launch_throws env sb _ _ w e Hpkg Hw Hstart)).
  rewrite run_ret. reflexivity.
Qed.

End Bootstrap.

(** X21: when the inspection reports success and no package manifest,
    the route neither installs nor launches anything: after the
    inspection it makes no further call, leaves the sandbox open and
    answers with status 200 and [serverUrl] null. *)
Theorem no_manifest_no_bootstrap
    (is_url : string -> bool) (JSON_parse : string -> option Js.value)
    (env : Env Event) (body : Js.value) (d : CloneData) (session : Session)
    (sb : Sandbox) (cr chk : Execution) (v w : Js.value)
    (Hs : env _ GetSession = Returns (Some session))
    (Hparse : cloneSchema_parse is_url body = Returns d)
    (Hcreate : env _ (SandboxCreate (requested_id d) 900000) = Returns (Some sb))
    (Hclone : env _ (RunCode sb (CloneScript (cloneCommand d) (projectName d)))
              = Returns cr)
    (Hcheck : env _ (RunCode sb (CheckScript (projectName d))) = Returns chk)
    (Hok : Js.get (read_project_info JSON_parse chk) "success" = Returns v)
    (Hv : Js.truthy v = true)
    (Hpkg : Js.get (read_project_info JSON_parse chk) "hasPackageJson" = Returns w)
    (Hw : Js.truthy w = false) :
  run env (POST is_url JSON_parse (Returns body)) =
  ([call GetSession; call (SandboxCreate (requested_id d) 900000);
    call (RunCode sb (CloneScript (cloneCommand d) (projectName d)));
    call (RunCode sb (CheckScript (projectName d)))],
   mkResponse 200
     (SuccessBody (target_id d sb) (projectName d)
        (read_project_info JSON_parse chk) None
        ("Repository '" ++ gitUrl d ++ "' cloned successfully!"))).
Proof.
  exact (run_POST_returns is_url JSON_parse env body d session sb _ _
           Hs Hparse Hcreate
           (run_clone_into_no_manifest JSON_parse env sb d (target_id d sb)
              cr chk v w Hclone Hcheck Hok Hv Hpkg Hw)).
Qed.

(** X22: the two best-effort steps fail differently.  When the call that
    installs the dependencies throws, the route closes the sandbox and
    answers with status 500; when the call that launches the server
    throws, the route keeps the sandbox and answers with status 200 and
    [serverUrl] null. *)
Theorem install_failure_is_fatal_launch_failure_is_not
    (is_url : string -> bool) (JSON_parse : string -> option Js.value)
    (env : Env Event) (body : Js.value) (d : CloneData) (session : Session)
    (sb : Sandbox) (cr chk : Execution) (v w : Js.value)
    (Hs : env _ GetSession = Returns (Some session))
    (Hparse : cloneSchema_parse is_url body = Returns d)
    (Hcreate : env _ (SandboxCreate (requested_id d) 900000) = Returns (Some sb))
    (Hclone : env _ (RunCode sb (CloneScript (cloneCommand d) (projectName d)))
              = Returns cr)
    (Hcheck : env _ (RunCode sb (CheckScript (projectName d))) = Returns chk)
    (Hok : Js.get (read_project_info JSON_parse chk) "success" = Returns v)
    (Hv : Js.truthy v = true)
    (Hpkg : Js.get (read_project_info JSON_parse chk) "hasPackageJson" = Returns w)
    (Hw : Js.truthy w = true) :
  let before :=
    [call GetSession; call (SandboxCreate (requested_id d) 900000);
     call (RunCode sb (CloneScript (cloneCommand d) (projectName d)));
     call (RunCode sb (CheckScript (projectName d)));
     call (RunCode sb (InstallScript (projectName d)))] in
  (forall e,
      env _ (RunCode sb (InstallScript (projectName d))) = Throws e ->
      env _ (Close sb) = Returns tt ->
      run env (POST is_url JSON_parse (Returns body)) =
      ((before ++ [call (Close sb)])%list, clone_failed e)) /\
  (forall ir e,
      env _ (RunCode sb (InstallScript (projectName d))) = Returns ir ->
      env _ (RunCode sb (StartScript (projectName d))) = Throws e ->
      run env (POST is_url JSON_parse (Returns body)) =
      ((before ++ [call (RunCode sb (StartScript (projectName d)))])%list,
       mkResponse 200
         (SuccessBody (target_id d sb) (projectName d)
            (read_project_info JSON_parse chk) None
            ("Repository '" ++ gitUrl d ++ "' cloned successfully!")))).
Proof.
  intros before. split.
  - intros e Hinstall Hclose.
    exact (run_POST_throws is_url JSON_parse env body d session sb _ e
             Hs Hparse Hcreate
             (run_clone_into_install_throws JSON_parse env sb d (target_id d sb)
                cr chk v w e Hclone Hcheck Hok Hv Hpkg Hw Hinstall)
             Hclose).
  - intros ir e Hinstall Hstart.
    exact (run_POST_returns is_url JSON_parse env body d session sb _ _
             Hs Hparse Hcreate
             (run_clone_into_launch_throws JSON_parse env sb d (target_id d sb)
                cr chk v w ir e Hclone Hcheck Hok Hv Hpkg Hw Hinstall Hstart)).
Qed.

Lemma no_manifest_no_bootstrap_witness :
  existsb installs_or_launches
    (fst (run BootstrapSamples.env_no_manifest
            (POST CloneSamples.sample_is_url BootstrapSamples.parse_report
               (Returns CloneSamples.body_public)))) = false /\
  serverUrl_of
    (snd (run BootstrapSamples.env_no_manifest
            (POST CloneSamples.sample_is_url BootstrapSamples.parse_report
               (Returns CloneSamples.body_public)))) = Some None.
Proof.
  rewrite (no_manifest_no_bootstrap CloneSamples.sample_is_url
             BootstrapSamples.parse_report BootstrapSamples.env_no_manifest
             CloneSamples.body_public BootstrapSamples.widgets_data "user-1"
             CloneSamples.sbx CloneSamples.clone_ok
             (CloneSamples.printed
                [CloneSamples.dumps
                   (SandboxScripts.check_result (Some BootstrapSamples.readme_dir))])
             (Js.boolean true) (Js.boolean false)
             eq_refl eq_refl eq_refl eq_refl eq_refl eq_refl eq_refl eq_refl eq_refl).
  split; reflexivity.
Defined.

Lemma install_failure_is_fatal_launch_failure_is_not_witness :
  status (snd (run BootstrapSamples.env_install_throws
                 (POST CloneSamples.sample_is_url CloneSamples.sample_JSON_parse
                    (Returns CloneSamples.body_public)))) = 500 /\
  status (snd (run BootstrapSamples.env_launch_throws
                 (POST CloneSamples.sample_is_url CloneSamples.sample_JSON_parse
                    (Returns CloneSamples.body_public)))) = 200.
Proof.
  split.
  - rewrite (proj1 (install_failure_is_fatal_launch_failure_is_not
                      CloneSamples.sample_is_url CloneSamples.sample_JSON_parse
                      BootstrapSamples.env_install_throws
                      CloneSamples.body_public BootstrapSamples.widgets_data "user-1"
                      CloneSamples.sbx CloneSamples.clone_ok
                      (CloneSamples.printed
                         [CloneSamples.dumps
                            (SandboxScripts.check_result (Some CloneSamples.widgets_dir))])
                      (Js.boolean true) (Js.boolean true)
                      eq_refl eq_refl eq_refl eq_refl eq_refl eq_refl eq_refl eq_refl
                      eq_refl)
               (Error "execution timed out") eq_refl eq_refl).
    reflexivity.
  - rewrite (proj2 (install_failure_is_fatal_launch_failure_is_not
                      CloneSamples.sample_is_url CloneSamples.sample_JSON_parse
                      BootstrapSamples.env_launch_throws
                      CloneSamples.body_public BootstrapSamples.widgets_data "user-1"
                      CloneSamples.sbx CloneSamples.clone_ok
                      (CloneSamples.printed
                         [CloneSamples.dumps
                            (SandboxScripts.check_result (Some CloneSamples.widgets_dir))])
                      (Js.boolean true) (Js.boolean true)
                      eq_refl eq_refl eq_refl eq_refl eq_refl eq_refl eq_refl eq_refl
                      eq_refl)
               (CloneSamples.printed ["Dependencies installed successfully!"])
               (Error "execution timed out") eq_refl eq_refl).
    reflexivity.
Defined.

Section EveryRun.
Import Runs.

Lemma all_runs_run {E : Type -> Type} {A : Type} (P : list (Call E) -> A -> Prop)
    (p : Prog E A) (acc : list (Call E)) (env : Env E) :
  all_runs P acc p -> P (acc ++ fst (run env p))%list (snd (run env p)).
Proof.
  revert acc. induction p as [a | X e k IH]; intros acc H; simpl in *.
  - now rewrite app_nil_r.
  - specialize (IH (env X e) _ (H (env X e))).
    destruct (run env (k (env X e))) as [t a]. simpl in *.
    now rewrite <- app_assoc in IH.
Qed.

Lemma inner_block_settles (JSON_parse : string -> option Js.value)
    (sb : Sandbox) (d : CloneData) (target : option string) :
  all_runs (settled sb) []
    (try_catch (clone_into JSON_parse sb d target)
       (fun error => bind (perform (Close sb)) (fun _ => ret (clone_failed error)))).
Proof.
  unfold clone_into, startDevServer, try_catch, bind, perform, lift, ret, clone_failed.
  repeat first
    [ progress cbn [all_runs pbind app negb]
    | intros [?|?]
    | match goal with
      | |- context [Js.get ?v ?k] => destruct (Js.get v k) eqn:?
      | |- context [Js.truthy ?v] => destruct (Js.truthy v) eqn:?
      | |- context [JsText.nonempty ?v] => destruct (JsText.nonempty v) eqn:?
      end ];
    unfold settled; cbn [status existsb closes orb]; rewrite ?String.eqb_refl;
    cbn [orb];
    first [ reflexivity
          | left; split; reflexivity
          | right; split; [discriminate | reflexivity] ].
Qed.

End EveryRun.

(** X23: once the provider has handed out the sandbox, the route either
    answers with status 200 and never closes it, or answers with another
    status and has called [close] on it: no failure after the creation
    leaves the sandbox open without an attempt to close it, and no
    success closes it. *)
Theorem sandbox_closed_unless_success
    (is_url : string -> bool) (JSON_parse : string -> option Js.value)
    (env : Env Event) (body : Js.value) (d : CloneData) (session : Session)
    (sb : Sandbox)
    (Hs : env _ GetSession = Returns (Some session))
    (Hparse : cloneSchema_parse is_url body = Returns d)
    (Hcreate : env _ (SandboxCreate (requested_id d) 900000) = Returns (Some sb)) :
  let r := run env (POST is_url JSON_parse (Returns body)) in
  (status (snd r) = 200 /\ existsb (closes sb) (fst r) = false) \/
  (status (snd r) <> 200 /\ existsb (closes sb) (fst r) = true).
Proof.
  intros r. unfold r.
  rewrite (run_POST_opened is_url JSON_parse env body d session sb Hs Hparse Hcreate).
  pose proof (all_runs_run (settled sb) _ [] env
                (inner_block_settles JSON_parse sb d (target_id d sb))) as H.
  destruct (run env (try_catch _ _)) as [calls o]. cbn [app fst snd] in *.
  unfold settled in H.
  assert (Hsame : existsb (closes sb)
                    (call GetSession :: call (SandboxCreate (requested_id d) 900000)
                       :: calls) = existsb (closes sb) calls) by reflexivity.
  rewrite Hsame.
  destruct o as [response | [m | issues]]; cbn [status internal_error].
  - exact H.
  - right. split; [discriminate | exact H].
  - right. split; [discriminate | exact H].
Qed.

Lemma sandbox_closed_unless_success_witness :
  existsb (closes CloneSamples.sbx)
    (fst (run CloneSamples.env_dir_absent
            (POST CloneSamples.sample_is_url CloneSamples.sample_JSON_parse
               (Returns CloneSamples.body_public)))) = true.
Proof.
  destruct (sandbox_closed_unless_success CloneSamples.sample_is_url
              CloneSamples.sample_JSON_parse CloneSamples.env_dir_absent
              CloneSamples.body_public BootstrapSamples.widgets_data "user-1"
              CloneSamples.sbx eq_refl eq_refl eq_refl) as [[H _]|[_ H]].
  - vm_compute in H. discriminate.
  - exact H.
Defined.

End CloneFacts2.

(** * The route that validates a repository address *)

Module ValidateFacts.
Import Interaction GitUtils ValidateRoute Runs.

Ltac answer_all :=
  repeat first
    [ progress cbn [all_runs pbind within app negb GitHubApi.exists_]
    | intros [?|?]
    | match goal with
      | |- context [if ?c then _ else _] => destruct c eqn:?
      | |- context [match ?x with Returns _ => _ | Throws _ => _ end] =>
          destruct x eqn:?
      end ].

Lemma GET_settles (url_param : Outcome (option string)) :
  all_runs (GET_settled url_param) [] (GET url_param).
Proof.
  unfold GET, bind, lift, ret, resolved.
  destruct url_param as [[u|]|e]; cbn [pbind all_runs];
    try (right; split; [cbn; auto | reflexivity]).
  destruct (JsText.nonempty u) eqn:Hne; cbn [negb pbind all_runs];
    try (right; split; [cbn; auto | reflexivity]).
  destruct (isValidGitUrl u) eqn:Hv; cbn [negb pbind all_runs];
    try (right; split; [cbn; auto | reflexivity]).
  destruct (parseGitUrl u) as [info|] eqn:Hp; cbn [negb pbind all_runs];
    try (right; split; [cbn; auto | reflexivity]).
  unfold GitHubApi.validateRepository, bind, perform, lift, ret. rewrite Hp.
  answer_all;
    (left; exists u, info; do 4 eexists;
     split; [reflexivity|]; split; [exact Hv|]; split; [exact Hp|];
     split; [reflexivity|]; split; [reflexivity|];
     split; [split; [discriminate || reflexivity | congruence]
            | discriminate || congruence]).
Qed.

(** X24: a run of [GET] that reaches the hosting provider has asked it
    once, for the repository the address parses to and without a header
    object, and answers with status 200 whatever came back, naming a
    repository when and only when it says [valid], and an error whenever
    it does not; every other run answers with status 400 or 500 and has
    asked nothing. *)
Theorem GET_asks_once_or_never (url_param : Outcome (option string))
    (env : Env GitHubApi.Event) :
  GET_settled url_param (fst (run env (GET url_param)))
    (snd (run env (GET url_param))).
Proof.
  exact (CloneFacts2.all_runs_run (GET_settled url_param) _ [] env
           (GET_settles url_param)).
Qed.

Ltac answer_all_or_fail :=
  repeat first
    [ progress cbn [all_runs pbind within app negb GitHubApi.exists_]
    | intros [?|?]
    | match goal with
      | |- context [if ?c then _ else _] => destruct c eqn:?
      | |- context [match ?x with Returns _ => _ | Throws _ => _ end] =>
          destruct x eqn:?
      | |- context [match ?x with Error _ => _ | ZodError _ => _ end] =>
          destruct x eqn:?
      | |- context [match ?x with Some _ => _ | None => _ end] =>
          destruct x eqn:?
      end ].

Lemma POST_settles (request_json : Outcome Js.value) :
  all_runs POST_settled [] (POST request_json).
Proof.
  unfold POST, bind, perform, lift, ret, resolved,
    GitHubApi.validateRepository, GitHubApi.getBranches, bind, perform, lift, ret.
  answer_all_or_fail.
  all: unfold POST_settled; cbn [status];
    (split; [reflexivity | split; [reflexivity |]]);
    first [ left; split; reflexivity
          | right; left; split; reflexivity
          | right; right; split; [auto | reflexivity] ].
Qed.

(** X25: a run of [POST] asks for the session first and hands no
    header object, hence no access token, to any call; it answers with
    status 200 after exactly two calls to the hosting provider, with 404
    after exactly one, and with 400, 401 or 500 after none. *)
Theorem POST_status_counts_the_requests (request_json : Outcome Js.value)
    (env : Env Event) :
  POST_settled (fst (run env (POST request_json)))
    (snd (run env (POST request_json))).
Proof.
  exact (CloneFacts2.all_runs_run POST_settled _ [] env (POST_settles request_json)).
Qed.

(** X26: an address that is an owner followed by [/.git] passes
    [isValidGitUrl], which reads [.git] as the name, and yet
    [parseGitUrl] finds no repository in it, because it drops the suffix
    first: both handlers answer it with status 400 from their third
    check, and ask the hosting provider nothing. *)
Theorem nameless_address_stops_at_the_parser (o u : string)
    (Ho : valid_owner o = true)
    (Hu : u = https_form o ".git" \/ u = ssh_form o ".git") :
  isValidGitUrl u = true /\
  parseGitUrl u = None /\
  GET (Returns (Some u)) =
  Done (mkResponse 400 (NotValid "Could not parse repository information")) /\
  forall (env : Env Event) session,
    env _ GetSession = Returns (Some session) ->
    run env (POST (Returns (Js.object [("gitUrl", Js.str u)]))) =
    ([call GetSession],
     mkResponse 400 (NotValid "Could not parse repository information from URL")).
Proof.
  assert (Hv : isValidGitUrl u = true).
  { destruct (isValidGitUrl_forms o ".git" Ho eq_refl) as [H1 H2].
    destruct Hu as [-> | ->]; assumption. }
  assert (Hp : parseGitUrl u = None).
  { destruct (parse_no_name o Ho) as [H1 H2].
    rewrite <- https_form_app in H1. rewrite <- ssh_form_app in H2.
    destruct Hu as [-> | ->]; assumption. }
  assert (Hne : JsText.nonempty u = true)
    by (destruct Hu as [-> | ->]; reflexivity).
  assert (Hparse : validateSchema_parse (Js.object [("gitUrl", Js.str u)]) =
                   Returns (mkValidateData u None))
    by (destruct Hu as [-> | ->]; reflexivity).
  split; [exact Hv | split; [exact Hp | split]].
  - unfold GET, bind, lift, ret. cbn [pbind]. rewrite Hne, Hv, Hp. reflexivity.
  - intros env session Hs. unfold POST, bind, perform, lift, ret.
    cbn [pbind run]. rewrite Hs. cbn [pbind]. rewrite Hparse.
    cbn [pbind gitUrl]. rewrite Hv, Hp. reflexivity.
Qed.

Lemma nameless_address_stops_at_the_parser_witness :
  isValidGitUrl "https://github.com/acme/.git" = true /\
  parseGitUrl "https://github.com/acme/.git" = None.
Proof.
  pose proof (nameless_address_stops_at_the_parser "acme"
                "https://github.com/acme/.git" eq_refl (or_introl eq_refl)) as H.
  exact (conj (proj1 H) (proj1 (proj2 H))).
Defined.

(** X27: when the hosting provider answers the repository request with
    status 403, [POST] still answers with status 200 and a repository
    marked private on the branch [main], and asks for authentication
    exactly when the request brought no access token; when it answers
    with 404, [POST] answers with 404 after that one request and does not
    ask for authentication. *)
Theorem POST_forbidden_is_valid_missing_is_not
    (env : Env Event) (session : Session) (body : Js.value) (d : ValidateData)
    (info : GitRepoInfo) (response : GitHubApi.HttpResponse)
    (Hs : env _ GetSession = Returns (Some session))
    (Hparse : validateSchema_parse body = Returns d)
    (Hvalid : isValidGitUrl (gitUrl d) = true)
    (Hinfo : parseGitUrl (gitUrl d) = Some info)
    (Hfetch : env _ (Github (GitHubApi.Fetch (apiUrl info) None)) = Returns response) :
  (GitHubApi.status response = 403 ->
   exists branches,
     snd (run env (POST (Returns body))) =
     mkResponse 200
       (Validated
          (mkRepository (Some (gitUrl d)) (GitUtils.name info) (GitUtils.owner info)
             (Js.boolean true) (Js.str "main") (Some branches))
          (GitUtils.name info)
          (Js.boolean (negb (CloneRoute.given (accessToken d)))))) /\
  (GitHubApi.status response = 404 ->
   run env (POST (Returns body)) =
   ([call GetSession; call (Github (GitHubApi.Fetch (apiUrl info) None))],
    mkResponse 404 (NotFound "Repository not found or not accessible" (Some false)))).
Proof.
  unfold apiUrl in Hfetch.
  split; intros Hst.
  - unfold POST, bind, perform, lift, ret, resolved,
      GitHubApi.validateRepository, bind, perform, lift, ret.
    cbn [pbind run]. rewrite Hs. cbn [pbind]. rewrite Hparse.
    cbn [pbind]. rewrite Hvalid, Hinfo. cbn [negb pbind within run].
    rewrite Hfetch, Hst. cbn [Z.eqb Pos.eqb pbind within GitHubApi.exists_ negb].
    unfold GitHelpers.generateProjectName. rewrite Hinfo.
    rewrite !run_pbind.
    destruct (run env (within (GitHubApi.getBranches _ _))) as [t names].
    exists names. reflexivity.
  - unfold POST, bind, perform, lift, ret, resolved,
      GitHubApi.validateRepository, bind, perform, lift, ret.
    cbn [pbind run]. rewrite Hs. cbn [pbind]. rewrite Hparse.
    cbn [pbind]. rewrite Hvalid, Hinfo. cbn [negb pbind within run].
    rewrite Hfetch, Hst. reflexivity.
Qed.

Lemma POST_forbidden_is_valid_missing_is_not_witness :
  (exists branches,
     snd (run (ValidateSamples.env_status 403)
            (POST (Returns ValidateSamples.widgets_body))) =
     mkResponse 200
       (Validated
          (mkRepository (Some ValidateSamples.widgets_url) "widgets" "acme"
             (Js.boolean true) (Js.str "main") (Some branches))
          "widgets" (Js.boolean true))) /\
  status (snd (run (ValidateSamples.env_status 404)
                 (POST (Returns ValidateSamples.widgets_body)))) = 404.
Proof.
  split.
  - exact (proj1 (POST_forbidden_is_valid_missing_is_not
                    (ValidateSamples.env_status 403) "session-1"
                    ValidateSamples.widgets_body
                    (mkValidateData ValidateSamples.widgets_url None)
                    ValidateSamples.widgets_info
                    (GitHubApi.mkHttpResponse 403 (Returns Js.null))
                    eq_refl eq_refl eq_refl eq_refl eq_refl) eq_refl).
  - exact (f_equal (fun r => status (snd r))
             (proj2 (POST_forbidden_is_valid_missing_is_not
                       (ValidateSamples.env_status 404) "session-1"
                       ValidateSamples.widgets_body
                       (mkValidateData ValidateSamples.widgets_url None)
                       ValidateSamples.widgets_info
                       (GitHubApi.mkHttpResponse 404 (Returns Js.null))
                       eq_refl eq_refl eq_refl eq_refl eq_refl) eq_refl)).
Defined.

End ValidateFacts.
